(** * permify: storage readers, check-cache keys, schema lowering and the
      lookup-entity engine, embedded and verified.

    The development follows the Go sources:
    - [internal/repositories/memory/relationshipReader.go]   (Module [memory])
    - [internal/repositories/postgres/relationshipReader.go] (Module [postgres])
    - [internal/keys/command.go]                              (Module [keys])
    - [internal/commands/lookupEntity.go]                     (Module [commands])
    - [pkg/dsl/compiler], known through its test suite        (Module [compiler])

    Go values are embedded shallowly: [uint64] row ids as [N], strings as
    [string], a Go [(value, error)] return as [result], structs as records.
    Collaborators whose code is outside the files above (go-memdb, squirrel,
    database/sql, base64, xxhash, the cache) are parameters. *)

From Stdlib Require Import NArith ZArith String Ascii List Bool Lia.
From Stdlib Require Import DecimalString DecimalN DecimalPos Decimal.
From Stdlib Require Import Sorting.Sorted Sorting.Permutation.
From stdpp Require Import gmap strings.
Import ListNotations.
Open Scope string_scope.
Open Scope list_scope.
Open Scope nat_scope.
Set Warnings "-register-all".

(* ================================================================== *)
(** * Go errors and [(value, error)] returns *)
(* ================================================================== *)

(** A Go [error] value.  [errors_New msg] is [errors.New(msg)];
    [sql_ErrNoRows] is the sentinel of database/sql that [errors.Is]
    recognises. *)
Inductive error : Type :=
| errors_New (msg : string)
| sql_ErrNoRows.

(** [err.Error()] *)
Definition Error (e : error) : string :=
  match e with
  | errors_New msg => msg
  | sql_ErrNoRows => "sql: no rows in result set"
  end.

(** [errors.Is(err, sql.ErrNoRows)] *)
Definition errors_Is_ErrNoRows (e : error) : bool :=
  match e with
  | sql_ErrNoRows => true
  | errors_New _ => false
  end.

(** A Go function returning [(T, error)] with the zero [T] on failure. *)
Inductive result (A : Type) : Type :=
| Ok (a : A)
| Err (e : error).
Arguments Ok {A} a.
Arguments Err {A} e.

Definition is_Ok {A} (r : result A) : bool :=
  match r with Ok _ => true | Err _ => false end.

(* ================================================================== *)
(** * pkg/pb/base/v1: messages and the error-code enumeration *)
(* ================================================================== *)

Module base.

(** Modelled from the spec: the enumeration [base.ErrorCode] is declared
    in the generated protobuf package, which is not among the sources.
    The constructors are the codes the sources name, followed by the
    further codes the specification lists. *)
Inductive ErrorCode : Type :=
| ERROR_CODE_SQL_BUILDER
| ERROR_CODE_EXECUTION
| ERROR_CODE_INVALID_CONTINUOUS_TOKEN
| ERROR_CODE_TYPE_CONVERSATION
| ERROR_CODE_UNDEFINED_RELATION_REFERENCE
| ERROR_CODE_NOT_SUPPORTED_RELATION_WALK
| ERROR_CODE_RELATION_REFERENCE_MUST_HAVE_ONE_ENTITY_REFERENCE
| ERROR_CODE_RELATION_REFERENCE_NOT_FOUND_IN_ENTITY_REFERENCES
| ERROR_CODE_DUPLICATE_NAME
| ERROR_CODE_DEPTH_EXCEEDED
| ERROR_CODE_NOT_FOUND.

(** [code.String()] *)
Definition ErrorCode_String (c : ErrorCode) : string :=
  match c with
  | ERROR_CODE_SQL_BUILDER => "ERROR_CODE_SQL_BUILDER"
  | ERROR_CODE_EXECUTION => "ERROR_CODE_EXECUTION"
  | ERROR_CODE_INVALID_CONTINUOUS_TOKEN => "ERROR_CODE_INVALID_CONTINUOUS_TOKEN"
  | ERROR_CODE_TYPE_CONVERSATION => "ERROR_CODE_TYPE_CONVERSATION"
  | ERROR_CODE_UNDEFINED_RELATION_REFERENCE => "ERROR_CODE_UNDEFINED_RELATION_REFERENCE"
  | ERROR_CODE_NOT_SUPPORTED_RELATION_WALK => "ERROR_CODE_NOT_SUPPORTED_RELATION_WALK"
  | ERROR_CODE_RELATION_REFERENCE_MUST_HAVE_ONE_ENTITY_REFERENCE =>
      "ERROR_CODE_RELATION_REFERENCE_MUST_HAVE_ONE_ENTITY_REFERENCE"
  | ERROR_CODE_RELATION_REFERENCE_NOT_FOUND_IN_ENTITY_REFERENCES =>
      "ERROR_CODE_RELATION_REFERENCE_NOT_FOUND_IN_ENTITY_REFERENCES"
  | ERROR_CODE_DUPLICATE_NAME => "ERROR_CODE_DUPLICATE_NAME"
  | ERROR_CODE_DEPTH_EXCEEDED => "ERROR_CODE_DEPTH_EXCEEDED"
  | ERROR_CODE_NOT_FOUND => "ERROR_CODE_NOT_FOUND"
  end.

Definition all_codes : list ErrorCode :=
  [ ERROR_CODE_SQL_BUILDER; ERROR_CODE_EXECUTION;
    ERROR_CODE_INVALID_CONTINUOUS_TOKEN; ERROR_CODE_TYPE_CONVERSATION;
    ERROR_CODE_UNDEFINED_RELATION_REFERENCE;
    ERROR_CODE_NOT_SUPPORTED_RELATION_WALK;
    ERROR_CODE_RELATION_REFERENCE_MUST_HAVE_ONE_ENTITY_REFERENCE;
    ERROR_CODE_RELATION_REFERENCE_NOT_FOUND_IN_ENTITY_REFERENCES;
    ERROR_CODE_DUPLICATE_NAME; ERROR_CODE_DEPTH_EXCEEDED;
    ERROR_CODE_NOT_FOUND ].

(** The error's message is the name of one of the codes. *)
Definition carries_code (e : error) : bool :=
  existsb (fun c => String.eqb (Error e) (ErrorCode_String c)) all_codes.

(** [errors.New(code.String())], the way every reader reports a code. *)
Definition code_error (c : ErrorCode) : error :=
  errors_New (ErrorCode_String c).

Record Entity : Type := { Entity_Type : string; Entity_Id : string }.

Record Subject : Type :=
  { Subject_Type : string; Subject_Id : string; Subject_Relation : string }.

Record Tuple : Type :=
  { Tuple_Entity : Entity; Tuple_Relation : string; Tuple_Subject : Subject }.

Record EntityFilter : Type :=
  { EntityFilter_Type : string; EntityFilter_Ids : list string }.

Record SubjectFilter : Type :=
  { SubjectFilter_Type : string;
    SubjectFilter_Ids : list string;
    SubjectFilter_Relation : string }.

Record TupleFilter : Type :=
  { TupleFilter_Entity : EntityFilter;
    TupleFilter_Relation : string;
    TupleFilter_Subject : SubjectFilter }.

Inductive PermissionCheckResponse_Result : Type :=
| RESULT_UNKNOWN
| RESULT_ALLOWED
| RESULT_DENIED.

Record PermissionCheckResponse : Type :=
  { Can : PermissionCheckResponse_Result; RemainingDepth : Z }.

Record PermissionCheckRequestMetadata : Type :=
  { Check_SchemaVersion : string;
    Check_SnapToken : string;
    Check_Depth : Z;
    Check_Exclusion : bool }.

(** [Metadata] is a pointer in the generated struct: [None] is [nil]. *)
Record PermissionCheckRequest : Type :=
  { Check_TenantId : string;
    Check_Metadata : option PermissionCheckRequestMetadata;
    Check_Entity : Entity;
    Check_Permission : string;
    Check_Subject : Subject }.

(** The generated getters are nil-safe: on a [nil] metadata they give the
    zero value. *)
Definition Check_GetSchemaVersion (r : PermissionCheckRequest) : string :=
  match Check_Metadata r with Some m => Check_SchemaVersion m | None => "" end.

Definition Check_GetSnapToken (r : PermissionCheckRequest) : string :=
  match Check_Metadata r with Some m => Check_SnapToken m | None => "" end.

Definition Check_GetDepth (r : PermissionCheckRequest) : Z :=
  match Check_Metadata r with Some m => Check_Depth m | None => 0%Z end.

Record PermissionLookupEntityRequestMetadata : Type :=
  { Lookup_SchemaVersion : string;
    Lookup_SnapToken : string;
    Lookup_Depth : Z }.

(** [Metadata] is a pointer in the generated struct: [None] is [nil]. *)
Record PermissionLookupEntityRequest : Type :=
  { Lookup_TenantId : string;
    Lookup_Metadata : option PermissionLookupEntityRequestMetadata;
    Lookup_EntityType : string;
    Lookup_Permission : string;
    Lookup_Subject : Subject }.

Definition Lookup_GetSchemaVersion (r : PermissionLookupEntityRequest) : string :=
  match Lookup_Metadata r with Some m => Lookup_SchemaVersion m | None => "" end.

Definition Lookup_GetSnapToken (r : PermissionLookupEntityRequest) : string :=
  match Lookup_Metadata r with Some m => Lookup_SnapToken m | None => "" end.

Definition Lookup_GetDepth (r : PermissionLookupEntityRequest) : Z :=
  match Lookup_Metadata r with Some m => Lookup_Depth m | None => 0%Z end.

End base.

(* ================================================================== *)
(** * strconv: decimal rendering of uint64 *)
(* ================================================================== *)

Module strconv.

Definition MaxUint64 : N := 18446744073709551615.

(** [strconv.FormatUint(v, 10)] *)
Definition FormatUint (v : N) : string :=
  NilZero.string_of_uint (N.to_uint v).

(** [strconv.ParseUint(s, 10, 64)]: digits only, no sign, no empty
    string, value at most [MaxUint64]. *)
Definition ParseUint (s : string) : result N :=
  match NilZero.uint_of_string s with
  | None => Err (errors_New ("strconv.ParseUint: parsing " +:+ s +:+ ": invalid syntax"))
  | Some d =>
      let v := N.of_uint d in
      if (v <=? MaxUint64)%N then Ok v
      else Err (errors_New ("strconv.ParseUint: parsing " +:+ s +:+ ": value out of range"))
  end.

End strconv.

(* ================================================================== *)
(** * Repository rows, collections, pagination *)
(* ================================================================== *)

Module repositories.

(** The row type both back ends scan into.  Its declaration is outside
    the sources; the fields are those the readers scan and read. *)
Record RelationTuple : Type :=
  { ID : N;
    EntityType : string;
    EntityID : string;
    Relation : string;
    SubjectType : string;
    SubjectID : string;
    SubjectRelation : string }.

(** Modelled from the spec: [RelationTuple.ToTuple] is not among the
    sources; a tuple is (entity type, entity id, relation, subject type,
    subject id, subject relation). *)
Definition ToTuple (r : RelationTuple) : base.Tuple :=
  {| base.Tuple_Entity :=
       {| base.Entity_Type := EntityType r; base.Entity_Id := EntityID r |};
     base.Tuple_Relation := Relation r;
     base.Tuple_Subject :=
       {| base.Subject_Type := SubjectType r;
          base.Subject_Id := SubjectID r;
          base.Subject_Relation := SubjectRelation r |} |}.

(** Rows by ascending [ID] (insertion sort): the order [sort.Slice] with
    the [ID] comparison and SQL's [ORDER BY id] both produce. *)
Fixpoint insert_by_ID (t : RelationTuple) (l : list RelationTuple) : list RelationTuple :=
  match l with
  | [] => [t]
  | x :: l' =>
      if (ID t <? ID x)%N then t :: x :: l'
      else x :: insert_by_ID t l'
  end.

Definition sort_by_ID (tup : list RelationTuple) : list RelationTuple :=
  fold_right insert_by_ID [] tup.

Definition ID_le (a b : RelationTuple) : Prop := (ID a <= ID b)%N.

Definition ID_lt (a b : RelationTuple) : Prop := (ID a < ID b)%N.

(** [r.ID >= bound] *)
Definition at_least (bound : N) (r : RelationTuple) : bool := (bound <=? ID r)%N.

End repositories.

Module database.

(** [database.TupleCollection]: the tuples in insertion order. *)
Definition TupleCollection : Type := list base.Tuple.

(** [collection.CreateTupleIterator()]: iterates the same tuples. *)
Definition TupleIterator : Type := list base.Tuple.

Definition CreateTupleIterator (c : TupleCollection) : TupleIterator := c.

(** [database.Pagination].  Its declaration is outside the sources;
    the readers convert [PageSize()] with [int(...)] and [uint64(...)]:
    it is a [uint32], here a number below [2 ^ 32]. *)
Record Pagination : Type := { PageSize : N; Token : string }.

(** [database.EncodedContinuousToken]: the string handed to clients. *)
Record EncodedContinuousToken : Type := { Value : string }.

(** The three return values of [ReadRelationships]; [None] is [nil]. *)
Definition ReadResult : Type :=
  (option TupleCollection * option EncodedContinuousToken * option error)%type.

End database.

(** encoding/base64, the codec of continuous tokens: decoding undoes
    encoding, and only the empty string encodes to the empty string. *)
Class Base64 : Type :=
  { EncodeToString : string -> string;
    DecodeString : string -> result string;
    DecodeString_EncodeToString : forall s, DecodeString (EncodeToString s) = Ok s;
    EncodeToString_nonempty : forall s, s <> "" -> EncodeToString s <> "" }.

(** The continuous tokens of a back end's [utils] package. *)
Module utils.
Section tokens.
Context `{Base64}.

(** Modelled from the spec: [utils.ContinuousToken] is outside the
    sources; "opaque base64 of the last seen row id". *)
Definition NewContinuousToken_Encode (value : string) : database.EncodedContinuousToken :=
  {| database.Value := EncodeToString value |}.

(** Modelled from the spec: [utils.NewNoopContinuousToken().Encode()] is
    outside the sources; the token whose absence of content signals that
    nothing more is available is the empty one. *)
Definition NewNoopContinuousToken_Encode : database.EncodedContinuousToken :=
  {| database.Value := "" |}.

(** Modelled from the spec: [utils.EncodedContinuousToken{Value: s}.Decode()]
    is outside the sources; it undoes the base64 encoding and gives the
    [Value] of the decoded [ContinuousToken]. *)
Definition EncodedContinuousToken_Decode (s : string) : result string :=
  DecodeString s.

(** The lower bound a pagination token stands for: none (that is, 0) for
    the empty token, otherwise the decimal uint64 inside the token. *)
Definition decoded_bound (pagination : database.Pagination) : result N :=
  if String.eqb (database.Token pagination) "" then Ok 0%N
  else
    match EncodedContinuousToken_Decode (database.Token pagination) with
    | Err err => Err err
    | Ok t => strconv.ParseUint t
    end.

End tokens.
End utils.

(** Pagination as the specification words it, to compare the readers
    with: a page holds the first [n] of the matching rows at or above the
    bound, by ascending id, and the continuous token is present exactly
    when a further row exists, whose id it encodes. *)
Module paging.
Section page.
Context `{Base64}.

Definition eligible (bound : N) (matching : list repositories.RelationTuple)
  : list repositories.RelationTuple :=
  List.filter (repositories.at_least bound) (repositories.sort_by_ID matching).

Definition continuous_token (n : nat) (rows : list repositories.RelationTuple)
  : database.EncodedContinuousToken :=
  match nth_error rows n with
  | Some next =>
      utils.NewContinuousToken_Encode (strconv.FormatUint (repositories.ID next))
  | None => utils.NewNoopContinuousToken_Encode
  end.

Definition page (n : nat) (rows : list repositories.RelationTuple)
  : database.ReadResult :=
  (Some (map repositories.ToTuple (firstn n rows)),
   Some (continuous_token n rows), None).

(** What the claim on pagination says of a reader [read] (a call of
    [ReadRelationships] as a function of its pagination argument) over the
    rows [matching] the query, for a token that stands for [bound]:
    the call succeeds with the first [n] rows at or above the bound by
    ascending id, so with at most [n] tuples; the continuous token is not
    the no-op one exactly when more than [n] matching rows are at or above
    the bound; it then encodes the id of the first row not returned, and,
    row ids being distinct, the same query resumed with it returns the
    page that starts at that row. *)
Definition paginates (read : database.Pagination -> database.ReadResult)
  (matching : list repositories.RelationTuple) (pagination : database.Pagination)
  (bound : N) : Prop :=
  let n := N.to_nat (database.PageSize pagination) in
  let rows := eligible bound matching in
  let ct := continuous_token n rows in
  let resumed :=
    {| database.PageSize := database.PageSize pagination;
       database.Token := database.Value ct |} in
  read pagination = (Some (map repositories.ToTuple (firstn n rows)), Some ct, None)
  /\ length (firstn n rows) <= n
  /\ StronglySorted repositories.ID_le rows
  /\ Permutation rows (List.filter (repositories.at_least bound) matching)
  /\ (ct <> utils.NewNoopContinuousToken_Encode
      <-> n < length (List.filter (repositories.at_least bound) matching))
  /\ (forall next, nth_error rows n = Some next ->
      ct = utils.NewContinuousToken_Encode (strconv.FormatUint (repositories.ID next))
      /\ ((repositories.ID next <= strconv.MaxUint64)%N ->
          utils.decoded_bound resumed = Ok (repositories.ID next)
          /\ (List.NoDup (map repositories.ID matching) ->
              exists ct',
                read resumed
                = (Some (map repositories.ToTuple (firstn n (skipn n rows))),
                   Some ct', None)))).

End page.
End paging.

(* ================================================================== *)
(** * internal/repositories/memory: the in-memory relationship reader *)
(* ================================================================== *)

Module memory.

(** What [sort.Slice(tup, func(i, j) { return tup[i].ID < tup[j].ID })]
    leaves in [tup]: the rows by ascending [ID]. *)
Definition sort_Slice_by_ID (tup : list repositories.RelationTuple)
  : list repositories.RelationTuple :=
  repositories.sort_by_ID tup.

(** A go-memdb object, an [interface{}]: the readers assert each object
    to be a [repositories.RelationTuple]. *)
Inductive Object : Type :=
| RelationTupleObject (t : repositories.RelationTuple)
| ForeignObject.

(** [*memdb.MemDB] seen by a read transaction: the relation-tuples table
    in insertion order. *)
Record MemDB : Type := { RelationTuplesTable : list Object }.

Section reader.
Context `{Base64}.

(** [utils.GetIndexNameAndArgsByFilters] (outside the sources): the index
    and the arguments of the scan. *)
Variable GetIndexNameAndArgsByFilters :
  string -> base.TupleFilter -> string * list string.

(** [utils.FilterQuery] (outside the sources), a [memdb.FilterFunc]:
    [true] drops the object from the iteration. *)
Variable FilterQuery : base.TupleFilter -> Object -> bool.

(** go-memdb: [txn.Get(RelationTuplesTable, index, args...)] and
    [txn.LowerBound(RelationTuplesTable, index, args...)]. *)
Variable txn_Get : MemDB -> string -> list string -> result (list Object).
Variable txn_LowerBound : MemDB -> string -> list string -> result (list Object).

(** [memdb.NewFilterIterator(result, f)] drained with [Next]. *)
Definition NewFilterIterator (objs : list Object) (f : Object -> bool) : list Object :=
  List.filter (fun o => negb (f o)) objs.

(** The loop of [QueryRelationships]: assert, convert, add. *)
Fixpoint query_loop (fit : list Object) (collection : database.TupleCollection)
  : result database.TupleIterator :=
  match fit with
  | [] => Ok (database.CreateTupleIterator collection)
  | RelationTupleObject t :: rest =>
      query_loop rest (collection ++ [repositories.ToTuple t])
  | ForeignObject :: _ =>
      Err (base.code_error base.ERROR_CODE_TYPE_CONVERSATION)
  end.

(** [QueryRelationships(ctx, tenantID, filter, _)]: the snapshot argument
    is the blank identifier. *)
Definition QueryRelationships (db : MemDB) (tenantID : string)
  (filter : base.TupleFilter) (_snap : string) : result database.TupleIterator :=
  let '(index, args) := GetIndexNameAndArgsByFilters tenantID filter in
  match txn_Get db index args with
  | Err _ => Err (base.code_error base.ERROR_CODE_EXECUTION)
  | Ok result =>
      query_loop (NewFilterIterator result (FilterQuery filter)) []
  end.

(** The first loop of [ReadRelationships]: assert and append to [tup];
    [None] when an assertion fails. *)
Fixpoint read_loop (fit : list Object) (tup : list repositories.RelationTuple)
  : option (list repositories.RelationTuple) :=
  match fit with
  | [] => Some tup
  | RelationTupleObject t :: rest => read_loop rest (tup ++ [t])
  | ForeignObject :: _ => None
  end.

(** The second loop of [ReadRelationships], over the sorted rows. *)
Fixpoint page_loop (pageSize lowerBound : N)
  (tup : list repositories.RelationTuple) (tuples : list base.Tuple) : database.ReadResult :=
  match tup with
  | [] => (Some tuples, Some utils.NewNoopContinuousToken_Encode, None)
  | t :: rest =>
      if (lowerBound <=? repositories.ID t)%N then
        let tuples := tuples ++ [repositories.ToTuple t] in
        if (pageSize <? N.of_nat (length tuples))%N then
          (Some (firstn (N.to_nat pageSize) tuples),
           Some (utils.NewContinuousToken_Encode
                   (strconv.FormatUint (repositories.ID t))),
           None)
        else page_loop pageSize lowerBound rest tuples
      else page_loop pageSize lowerBound rest tuples
  end.

(** The token prologue of [ReadRelationships]: the lower bound, or the
    early return. *)
Definition lower_bound_of (pagination : database.Pagination)
  : N + database.ReadResult :=
  if String.eqb (database.Token pagination) "" then inl 0%N
  else
    match utils.EncodedContinuousToken_Decode (database.Token pagination) with
    | Err err => inr (None, Some utils.NewNoopContinuousToken_Encode, Some err)
    | Ok t =>
        match strconv.ParseUint t with
        | Err _ =>
            inr (None, Some utils.NewNoopContinuousToken_Encode,
                 Some (base.code_error base.ERROR_CODE_INVALID_CONTINUOUS_TOKEN))
        | Ok lowerBound => inl lowerBound
        end
    end.

(** [ReadRelationships(ctx, tenantID, filter, _, pagination)] *)
Definition ReadRelationships (db : MemDB) (tenantID : string)
  (filter : base.TupleFilter) (_snap : string) (pagination : database.Pagination)
  : database.ReadResult :=
  match lower_bound_of pagination with
  | inr early => early
  | inl lowerBound =>
      let '(index, args) := GetIndexNameAndArgsByFilters tenantID filter in
      match txn_LowerBound db index args with
      | Err _ =>
          (None, Some utils.NewNoopContinuousToken_Encode,
           Some (base.code_error base.ERROR_CODE_EXECUTION))
      | Ok result =>
          match read_loop (NewFilterIterator result (FilterQuery filter)) [] with
          | None =>
              (None, Some utils.NewNoopContinuousToken_Encode,
               Some (base.code_error base.ERROR_CODE_TYPE_CONVERSATION))
          | Some tup =>
              page_loop (database.PageSize pagination) lowerBound
                (sort_Slice_by_ID tup) []
          end
      end
  end.

(** [removeDuplicate]: the first occurrence of every key, in order. *)
Fixpoint removeDuplicate_loop (sliceList allKeys list_ : list string) : list string :=
  match sliceList with
  | [] => list_
  | item :: rest =>
      if existsb (String.eqb item) allKeys then removeDuplicate_loop rest allKeys list_
      else removeDuplicate_loop rest (item :: allKeys) (list_ ++ [item])
  end.

Definition removeDuplicate (sliceList : list string) : list string :=
  removeDuplicate_loop sliceList [] [].

(** The loop of [GetUniqueEntityIDsByEntityType]. *)
Fixpoint ids_loop (it : list Object) (result_ : list string) : result (list string) :=
  match it with
  | [] => Ok (removeDuplicate result_)
  | RelationTupleObject t :: rest => ids_loop rest (result_ ++ [repositories.EntityID t])
  | ForeignObject :: _ => Err (base.code_error base.ERROR_CODE_TYPE_CONVERSATION)
  end.

(** [GetUniqueEntityIDsByEntityType(ctx, tenantID, typ, _)] *)
Definition GetUniqueEntityIDsByEntityType (db : MemDB) (tenantID typ _snap : string)
  : result (list string) :=
  match txn_Get db "entity-type-index" [tenantID; typ] with
  | Err _ => Err (base.code_error base.ERROR_CODE_EXECUTION)
  | Ok it => ids_loop it []
  end.

End reader.

(** Ghost state for stating visibility: the table of a store together
    with the instant at which each object was committed. *)
Definition History : Type := list (N * Object).

Definition MemDB_of (h : History) : MemDB :=
  {| RelationTuplesTable := map snd h |}.

(** The objects committed at or before the instant [S]. *)
Definition committed_by (S : N) (h : History) : list Object :=
  map snd (List.filter (fun e => (fst e <=? S)%N) h).

End memory.

(* ================================================================== *)
(** * internal/repositories/postgres: the relational relationship reader *)
(* ================================================================== *)

Module postgres.

(** A row of the [relation_tuples] table: the tenant column, the columns
    the readers scan, and the transaction that wrote the row (read only
    by the snapshot condition). *)
Record Row : Type :=
  { tenant_id : string;
    columns : repositories.RelationTuple;
    created_tx_id : N }.

(** A row of the [transactions] table. *)
Record Transaction : Type := { tx_id : N; tx_tenant_id : string }.

(** [*db.Postgres] together with the behaviour of the driver during one
    call: the two tables, and for each fallible call of database/sql and
    squirrel the error it returns, if any ([Scan i] for the [rows.Scan]
    of the [i]-th row of the result set, counted from zero). *)
Record Postgres : Type :=
  { relation_tuples : list Row;
    transactions : list Transaction;
    BeginTx : option error;
    ToSql : option error;
    QueryContext : option error;
    Scan : nat -> option error;
    rows_Err : option error;
    Commit : option error }.

(** [snapshot.Token{Value: types.XID8{Uint: v}}] *)
Record Token : Type := { Uint : N }.

(** A squirrel select over [relation_tuples]: the conjunction of the
    [Where] conditions, [OrderBy("id")] and [Limit]. *)
Record SelectBuilder : Type :=
  { Where : list (Row -> bool);
    OrderBy_id : bool;
    Limit : option N }.

Definition Select_From_RelationTuplesTable : SelectBuilder :=
  {| Where := []; OrderBy_id := false; Limit := None |}.

Definition add_Where (b : SelectBuilder) (c : Row -> bool) : SelectBuilder :=
  {| Where := Where b ++ [c]; OrderBy_id := OrderBy_id b; Limit := Limit b |}.

Definition set_OrderBy_id (b : SelectBuilder) : SelectBuilder :=
  {| Where := Where b; OrderBy_id := true; Limit := Limit b |}.

Definition set_Limit (b : SelectBuilder) (n : N) : SelectBuilder :=
  {| Where := Where b; OrderBy_id := OrderBy_id b; Limit := Some n |}.

Definition satisfies (b : SelectBuilder) (r : Row) : bool :=
  forallb (fun c => c r) (Where b).

(** The rows the database returns for the built query. *)
Definition run (b : SelectBuilder) (table : list Row) : list repositories.RelationTuple :=
  let selected := map columns (List.filter (satisfies b) table) in
  let ordered := if OrderBy_id b then repositories.sort_by_ID selected else selected in
  match Limit b with
  | Some n => firstn (N.to_nat n) ordered
  | None => ordered
  end.

(** [uint64(pagination.PageSize() + 1)]: the sum is taken in [uint32]. *)
Definition limit_of (pagination : database.Pagination) : N :=
  ((database.PageSize pagination + 1) mod 2 ^ 32)%N.

Section reader.
Context `{Base64}.

(** [snapshot.EncodedToken{Value: snap}.Decode()] (outside the sources),
    giving [st.(snapshot.Token).Value.Uint]. *)
Variable snapshot_Decode : string -> result N.

(** [utils.FilterQueryForSelectBuilder] (outside the sources): the
    condition the filter adds to the query. *)
Variable FilterQueryForSelectBuilder :
  base.TupleFilter -> repositories.RelationTuple -> bool.

(** [utils.SnapshotQuery] (outside the sources): the visibility condition
    of a row under a revision. *)
Variable SnapshotQuery : N -> Row -> bool.

(** The builder common to [QueryRelationships] and [ReadRelationships]. *)
Definition base_builder (tenantID : string) (filter : base.TupleFilter) (st : N)
  : SelectBuilder :=
  let builder :=
    add_Where Select_From_RelationTuplesTable
      (fun r => String.eqb (tenant_id r) tenantID) in
  let builder :=
    add_Where builder (fun r => FilterQueryForSelectBuilder filter (columns r)) in
  add_Where builder (SnapshotQuery st).

(** [for rows.Next() { rows.Scan(...); collection.Add(rt.ToTuple()) }] *)
Fixpoint scan_loop (db : Postgres) (rows : list repositories.RelationTuple)
  (i : nat) (collection : list base.Tuple) : result (list base.Tuple) :=
  match rows with
  | [] => Ok collection
  | rt :: rest =>
      match Scan db i with
      | Some err => Err err
      | None => scan_loop db rest (S i) (collection ++ [repositories.ToTuple rt])
      end
  end.

(** [QueryRelationships(ctx, tenantID, filter, snap)] *)
Definition QueryRelationships (db : Postgres) (tenantID : string)
  (filter : base.TupleFilter) (snap : string) : result database.TupleIterator :=
  match snapshot_Decode snap with
  | Err err => Err err
  | Ok st =>
  match BeginTx db with
  | Some err => Err err
  | None =>
  let builder := base_builder tenantID filter st in
  match ToSql db with
  | Some _ => Err (base.code_error base.ERROR_CODE_SQL_BUILDER)
  | None =>
  match QueryContext db with
  | Some _ => Err (base.code_error base.ERROR_CODE_EXECUTION)
  | None =>
  match scan_loop db (run builder (relation_tuples db)) 0 [] with
  | Err err => Err err
  | Ok collection =>
  match rows_Err db with
  | Some err => Err err
  | None =>
  match Commit db with
  | Some err => Err err
  | None => Ok (database.CreateTupleIterator collection)
  end end end end end end end.

(** The scanning loop of [ReadRelationships], which also tracks [lastID]. *)
Fixpoint read_scan_loop (db : Postgres) (rows : list repositories.RelationTuple)
  (i : nat) (lastID : N) (tuples : list base.Tuple) : result (N * list base.Tuple) :=
  match rows with
  | [] => Ok (lastID, tuples)
  | rt :: rest =>
      match Scan db i with
      | Some err => Err err
      | None =>
          read_scan_loop db rest (S i) (repositories.ID rt)
            (tuples ++ [repositories.ToTuple rt])
      end
  end.

(** The pagination-token block of [ReadRelationships]: the builder with
    the [id >= v] condition, or the early return. *)
Definition with_token (builder : SelectBuilder) (pagination : database.Pagination)
  : SelectBuilder + database.ReadResult :=
  if String.eqb (database.Token pagination) "" then inl builder
  else
    match utils.EncodedContinuousToken_Decode (database.Token pagination) with
    | Err err => inr (None, None, Some err)
    | Ok t =>
        match strconv.ParseUint t with
        | Err _ =>
            inr (None, None,
                 Some (base.code_error base.ERROR_CODE_INVALID_CONTINUOUS_TOKEN))
        | Ok v =>
            inl (add_Where builder (fun r => (v <=? repositories.ID (columns r))%N))
        end
    end.

(** [ReadRelationships(ctx, tenantID, filter, snap, pagination)] *)
Definition ReadRelationships (db : Postgres) (tenantID : string)
  (filter : base.TupleFilter) (snap : string) (pagination : database.Pagination)
  : database.ReadResult :=
  match snapshot_Decode snap with
  | Err err => (None, None, Some err)
  | Ok st =>
  match BeginTx db with
  | Some err => (None, None, Some err)
  | None =>
  match with_token (base_builder tenantID filter st) pagination with
  | inr early => early
  | inl builder =>
  let builder := set_Limit (set_OrderBy_id builder) (limit_of pagination) in
  match ToSql db with
  | Some _ =>
      (None, Some utils.NewNoopContinuousToken_Encode,
       Some (base.code_error base.ERROR_CODE_SQL_BUILDER))
  | None =>
  match QueryContext db with
  | Some _ =>
      (None, Some utils.NewNoopContinuousToken_Encode,
       Some (base.code_error base.ERROR_CODE_EXECUTION))
  | None =>
  match read_scan_loop db (run builder (relation_tuples db)) 0 0%N [] with
  | Err err => (None, None, Some err)
  | Ok (lastID, tuples) =>
  match rows_Err db with
  | Some err => (None, None, Some err)
  | None =>
  match Commit db with
  | Some err => (None, None, Some err)
  | None =>
      if (database.PageSize pagination <? N.of_nat (length tuples))%N then
        (Some (firstn (N.to_nat (database.PageSize pagination)) tuples),
         Some (utils.NewContinuousToken_Encode (strconv.FormatUint lastID)),
         None)
      else (Some tuples, Some utils.NewNoopContinuousToken_Encode, None)
  end end end end end end end end.

(** [Select("entity_id").Distinct()]: one copy of every selected id. *)
Definition Distinct (ids : list string) : list string := memory.removeDuplicate ids.

(** [for rows.Next() { rows.Scan(&id); result = append(result, id) }] *)
Fixpoint ids_scan_loop (db : Postgres) (rows : list string) (i : nat)
  (result_ : list string) : result (list string) :=
  match rows with
  | [] => Ok result_
  | id :: rest =>
      match Scan db i with
      | Some err => Err err
      | None => ids_scan_loop db rest (S i) (result_ ++ [id])
      end
  end.

(** [GetUniqueEntityIDsByEntityType(ctx, tenantID, typ, snap)] *)
Definition GetUniqueEntityIDsByEntityType (db : Postgres) (tenantID typ snap : string)
  : result (list string) :=
  match snapshot_Decode snap with
  | Err err => Err err
  | Ok st =>
  match BeginTx db with
  | Some err => Err err
  | None =>
  let builder :=
    add_Where
      (add_Where Select_From_RelationTuplesTable
         (fun r => String.eqb (repositories.EntityType (columns r)) typ
                   && String.eqb (tenant_id r) tenantID))
      (SnapshotQuery st) in
  match ToSql db with
  | Some _ => Err (base.code_error base.ERROR_CODE_SQL_BUILDER)
  | None =>
  match QueryContext db with
  | Some _ => Err (base.code_error base.ERROR_CODE_EXECUTION)
  | None =>
  let rows := Distinct (map repositories.EntityID (run builder (relation_tuples db))) in
  match ids_scan_loop db rows 0 [] with
  | Err err => Err err
  | Ok result_ =>
  match rows_Err db with
  | Some err => Err err
  | None =>
  match Commit db with
  | Some err => Err err
  | None => Ok result_
  end end end end end end end.

(** [Select("id").From(TransactionsTable).Where(tenant_id = ?)
     .OrderBy("id DESC").Limit(1)]: the greatest id of the tenant. *)
Definition head_query (tenantID : string) (table : list Transaction) : list N :=
  match map tx_id (List.filter (fun t => String.eqb (tx_tenant_id t) tenantID) table) with
  | [] => []
  | x :: xs => [fold_left N.max xs x]
  end.

(** [QueryRowContext(...).Scan(&xid)]: a driver error, [sql.ErrNoRows]
    on an empty result, or the first row. *)
Definition QueryRow_Scan (db : Postgres) (rows : list N) : result N :=
  match QueryContext db with
  | Some err => Err err
  | None =>
      match rows with
      | [] => Err sql_ErrNoRows
      | xid :: _ => Ok xid
      end
  end.

(** [HeadSnapshot(ctx, tenantID)] *)
Definition HeadSnapshot (db : Postgres) (tenantID : string) : result Token :=
  match ToSql db with
  | Some _ => Err (base.code_error base.ERROR_CODE_SQL_BUILDER)
  | None =>
      match QueryRow_Scan db (head_query tenantID (transactions db)) with
      | Err err =>
          if errors_Is_ErrNoRows err then Ok {| Uint := 0 |}
          else Err err
      | Ok xid => Ok {| Uint := xid |}
      end
  end.

End reader.
End postgres.

(** The helpers of the relational reader, [postgres/utils]. *)
Module postgres_utils.

(** Modelled from the spec: [utils.SnapshotQuery] is outside the sources.
    "Tuples are visible under snapshot S iff they were committed at or
    before S", the snapshot of the relational back end being a monotone
    transaction identifier: the condition it adds to a query admits the
    rows written by a transaction that is not after the revision. *)
Definition SnapshotQuery (revision : N) (r : postgres.Row) : bool :=
  (postgres.created_tx_id r <=? revision)%N.

End postgres_utils.

(* ================================================================== *)
(** * internal/keys: cache keys of the check command *)
(* ================================================================== *)

(** [pkg/cache.Cache], the interface the key manager is built on: [Set]
    reports whether the entry was accepted, [Get] whether one was found.
    Both may change the cache (admission, eviction, statistics). *)
Class Cache (C : Type) : Type :=
  { cache_Set : string -> base.PermissionCheckResponse -> Z -> C -> bool * C;
    cache_Get : string -> C -> option base.PermissionCheckResponse * C }.

(** An unbounded map as a cache: every entry is accepted and kept. *)
#[export] Instance map_cache : Cache (gmap string base.PermissionCheckResponse) :=
  {| cache_Set := fun k v _ c => (true, <[k := v]> c);
     cache_Get := fun k c => (c !! k, c) |}.

(** A cache that admits entries through a write buffer, as caches with
    asynchronous admission do: [Set] queues the entry and reports it
    accepted, and [Get] finds only the entries applied so far. *)
Record buffered : Type :=
  { applied : gmap string base.PermissionCheckResponse;
    queued : list (string * base.PermissionCheckResponse) }.

#[export] Instance buffered_cache : Cache buffered :=
  {| cache_Set := fun k v _ c =>
       (true, {| applied := applied c; queued := queued c ++ [(k, v)] |});
     cache_Get := fun k c => (applied c !! k, c) |}.

Module keys.

(** [hex.EncodeToString] of one byte, most significant nibble first. *)
Definition hex_digit (n : N) : ascii :=
  match n with
  | 0 => "0" | 1 => "1" | 2 => "2" | 3 => "3" | 4 => "4" | 5 => "5"
  | 6 => "6" | 7 => "7" | 8 => "8" | 9 => "9" | 10 => "a" | 11 => "b"
  | 12 => "c" | 13 => "d" | 14 => "e" | _ => "f"
  end%N%char.

Definition hex_byte (b : N) : string :=
  String (hex_digit (N.shiftr b 4)) (String (hex_digit (N.land b 15)) "").

(** [hex.EncodeToString(h.Sum(nil))]: [Sum] appends the 64-bit digest as
    eight bytes, most significant first. *)
Definition hex_EncodeToString_Sum (digest : N) : string :=
  String.concat ""
    (map (fun i => hex_byte (N.land (N.shiftr digest (8 * i)) 255))
       [7; 6; 5; 4; 3; 2; 1; 0]%N).

Section manager.

(** [tuple.EntityAndRelationToString] and [tuple.SubjectToString]
    (outside the sources). *)
Variable EntityAndRelationToString : base.Entity -> string -> string.
Variable SubjectToString : base.Subject -> string.

(** [xxhash]: the 64-bit digest of the bytes written. *)
Variable xxhash_Sum64 : string -> N.

Context {C : Type} `{Cache C}.

(** [fmt.Sprintf("check_%s_%s:%s:%s@%s", ...)] *)
Definition checkKey (key : base.PermissionCheckRequest) : string :=
  "check_" +:+ base.Check_TenantId key +:+ "_" +:+ base.Check_GetSchemaVersion key
  +:+ ":" +:+ base.Check_GetSnapToken key +:+ ":"
  +:+ EntityAndRelationToString (base.Check_Entity key) (base.Check_Permission key)
  +:+ "@" +:+ SubjectToString (base.Check_Subject key).

(** The key under which the cache is consulted: [k] in both methods. *)
Definition hashed (key : base.PermissionCheckRequest) : string :=
  hex_EncodeToString_Sum (xxhash_Sum64 (checkKey key)).

(** [(c *CommandKeys) SetCheckKey(key, value)]; the hash's [Write] never
    fails, and [size] is the number of bytes written. *)
Definition SetCheckKey (key : base.PermissionCheckRequest)
  (value : base.PermissionCheckResponse) (c : C) : bool * C :=
  let size := String.length (checkKey key) in
  cache_Set (hashed key) value (Z.of_nat size) c.

(** [(c *CommandKeys) GetCheckKey(key)] *)
Definition GetCheckKey (key : base.PermissionCheckRequest) (c : C)
  : (option base.PermissionCheckResponse * bool) * C :=
  match cache_Get (hashed key) c with
  | (Some resp, c') => ((Some resp, true), c')
  | (None, c') => ((None, false), c')
  end.

End manager.

(** Two check requests with the same tenant, schema version, snapshot
    token, entity, permission and subject. *)
Definition same_fields (k1 k2 : base.PermissionCheckRequest) : Prop :=
  base.Check_TenantId k1 = base.Check_TenantId k2
  /\ base.Check_GetSchemaVersion k1 = base.Check_GetSchemaVersion k2
  /\ base.Check_GetSnapToken k1 = base.Check_GetSnapToken k2
  /\ base.Check_Entity k1 = base.Check_Entity k2
  /\ base.Check_Permission k1 = base.Check_Permission k2
  /\ base.Check_Subject k1 = base.Check_Subject k2.

(** [NoopCommandKeys]: nothing is stored. *)
Definition Noop_SetCheckKey (_ : base.PermissionCheckRequest)
  (_ : base.PermissionCheckResponse) : bool := true.

Definition Noop_GetCheckKey (_ : base.PermissionCheckRequest)
  : option base.PermissionCheckResponse * bool := (None, false).

End keys.

(* ================================================================== *)
(** * pkg/dsl: lowering of action expressions *)
(* ================================================================== *)

Module compiler.

(** [base.Rewrite_Operation] *)
Inductive Operation : Type := OPERATION_UNION | OPERATION_INTERSECTION | OPERATION_EXCLUSION.

(** The body of a [base.Leaf]. *)
Inductive LeafType : Type :=
| ComputedUserSet (relation : string)
| TupleToUserSet (tupleSet : string) (computed : string).

(** [base.Child]: the action AST the compiler test suite spells out. *)
Inductive Child : Type :=
| Leaf (exclusion : bool) (type : LeafType)
| Rewrite (rewriteOperation : Operation) (children : list Child).

(** Modelled from the spec: the lexer is not among the sources.  Tokens
    of section 4.1: identifiers, the keywords, the punctuation. *)
Inductive token : Type :=
| IDENT (name : string)
| ENTITY | RELATION | ACTION | OR | AND | NOT
| SIGN | HASH | DOT | LPAREN | RPAREN | COMMA | ASSIGN | LBRACE | RBRACE
| ILLEGAL (c : ascii).

Definition is_ident_char (c : ascii) : bool :=
  let n := nat_of_ascii c in
  (((48 <=? n) && (n <=? 57)) || ((65 <=? n) && (n <=? 90))
   || ((97 <=? n) && (n <=? 122)) || (n =? 95))%nat.

Definition is_space (c : ascii) : bool :=
  let n := nat_of_ascii c in
  ((n =? 32) || (n =? 9) || (n =? 10) || (n =? 13))%nat.

Definition word (w : string) : token :=
  if String.eqb w "entity" then ENTITY
  else if String.eqb w "relation" then RELATION
  else if String.eqb w "action" then ACTION
  else if String.eqb w "or" then OR
  else if String.eqb w "and" then AND
  else if String.eqb w "not" then NOT
  else IDENT w.

Definition flush (cur : string) : list token :=
  if String.eqb cur "" then [] else [word cur].

Definition punct (c : ascii) : list token :=
  if is_space c then []
  else if Ascii.eqb c "@" then [SIGN]
  else if Ascii.eqb c "#" then [HASH]
  else if Ascii.eqb c "." then [DOT]
  else if Ascii.eqb c "(" then [LPAREN]
  else if Ascii.eqb c ")" then [RPAREN]
  else if Ascii.eqb c "," then [COMMA]
  else if Ascii.eqb c "=" then [ASSIGN]
  else if Ascii.eqb c "{" then [LBRACE]
  else if Ascii.eqb c "}" then [RBRACE]
  else [ILLEGAL c].

(** Modelled from the spec: the lexer, "ignoring whitespace". *)
Fixpoint lex_from (s : string) (cur : string) : list token :=
  match s with
  | EmptyString => flush cur
  | String c rest =>
      if is_ident_char c then lex_from rest (cur +:+ String c "")
      else flush cur ++ punct c ++ lex_from rest ""
  end.

Definition lex (s : string) : list token := lex_from s "".

Inductive Operator : Type := Or | And.

(** Modelled from the spec: the raw AST of an action expression, after the
    grammar [expr := term (("or"|"and") term)*],
    [term := "not"? atom | "(" expr ")"], [atom := IDENT ("." IDENT)*]. *)
Inductive Expr : Type :=
| Identifier (negated : bool) (segments : list string)
| Infix (first : Expr) (rest : list (Operator * Expr)).

Fixpoint parse_segments (ts : list token) : list string * list token :=
  match ts with
  | DOT :: IDENT s :: r =>
      let '(segs, r') := parse_segments r in (s :: segs, r')
  | _ => ([], ts)
  end.

Definition parse_atom (negated : bool) (ts : list token) : option (Expr * list token) :=
  match ts with
  | IDENT s :: r =>
      let '(segs, r') := parse_segments r in
      Some (Identifier negated (s :: segs), r')
  | _ => None
  end.

Fixpoint parse_tail (term : list token -> option (Expr * list token))
  (fuel : nat) (ts : list token) (acc : list (Operator * Expr))
  : option (list (Operator * Expr) * list token) :=
  match fuel with
  | 0 => None
  | S fuel' =>
      match ts with
      | OR :: ts1 =>
          match term ts1 with
          | Some (t, r) => parse_tail term fuel' r (acc ++ [(Or, t)])
          | None => None
          end
      | AND :: ts1 =>
          match term ts1 with
          | Some (t, r) => parse_tail term fuel' r (acc ++ [(And, t)])
          | None => None
          end
      | _ => Some (acc, ts)
      end
  end.

(** Modelled from the spec: the parser of action expressions (recursive
    descent; [fuel] bounds the nesting and the chain length). *)
Fixpoint parse_expr (fuel : nat) (ts : list token) : option (Expr * list token) :=
  match fuel with
  | 0 => None
  | S fuel' =>
      let term (ts : list token) : option (Expr * list token) :=
        match ts with
        | NOT :: ts1 => parse_atom true ts1
        | LPAREN :: ts1 =>
            match parse_expr fuel' ts1 with
            | Some (e, RPAREN :: r) => Some (e, r)
            | _ => None
            end
        | _ => parse_atom false ts
        end in
      match term ts with
      | None => None
      | Some (t0, r0) =>
          match parse_tail term fuel' r0 [] with
          | None => None
          | Some ([], r) => Some (t0, r)
          | Some (ops, r) => Some (Infix t0 ops, r)
          end
      end
  end.

Definition parse (ts : list token) : result Expr :=
  match parse_expr (S (length ts)) ts with
  | Some (e, []) => Ok e
  | _ => Err (errors_New "unexpected token")
  end.

(** [base.RelationReference]: a target [entity_type] or
    [entity_type#relation] of a relation. *)
Record RelationReference : Type := { ref_Type : string; ref_Relation : string }.

(** What the compiler knows of an entity while lowering its actions: the
    relations with their references and the names of the actions. *)
Record EntityNames : Type :=
  { relations : gmap string (list RelationReference);
    actions : gset string }.

Definition declares (e : EntityNames) (name : string) : bool :=
  bool_decide (is_Some (relations e !! name)) || bool_decide (name ∈ actions e).

Definition lower (op : Operator) : Operation :=
  match op with Or => OPERATION_UNION | And => OPERATION_INTERSECTION end.

Definition Operation_eqb (a b : Operation) : bool :=
  match a, b with
  | OPERATION_UNION, OPERATION_UNION
  | OPERATION_INTERSECTION, OPERATION_INTERSECTION
  | OPERATION_EXCLUSION, OPERATION_EXCLUSION => true
  | _, _ => false
  end.

Section lowering.
Variable schema : gmap string EntityNames.
Variable entity : EntityNames.

(** Modelled from the spec: a bare identifier "resolves to a relation or
    action of the current entity"; [first.second] "resolves first segment
    as a relation of the current entity whose reference entity type owns
    the second segment"; longer walks are rejected. *)
Definition compileLeaf (negated : bool) (segments : list string) : result Child :=
  match segments with
  | [name] =>
      if declares entity name then Ok (Leaf negated (ComputedUserSet name))
      else Err (base.code_error base.ERROR_CODE_UNDEFINED_RELATION_REFERENCE)
  | [first; second] =>
      match relations entity !! first with
      | Some refs =>
          if existsb (fun r =>
                        match schema !! ref_Type r with
                        | Some target => declares target second
                        | None => false
                        end) refs
          then Ok (Leaf negated (TupleToUserSet first second))
          else Err (base.code_error base.ERROR_CODE_UNDEFINED_RELATION_REFERENCE)
      | None => Err (base.code_error base.ERROR_CODE_UNDEFINED_RELATION_REFERENCE)
      end
  | _ => Err (base.code_error base.ERROR_CODE_NOT_SUPPORTED_RELATION_WALK)
  end.

Definition finish (op : option Operation) (children : list Child) : Child :=
  match op, children with
  | Some o, _ => Rewrite o children
  | None, c :: _ => c
  | None, [] => Rewrite OPERATION_UNION []
  end.

(** Modelled from the spec: "[X or Y] gives [Rewrite(UNION, [X, Y])];
    chains flatten at the same precedence; [X and Y] gives
    [Rewrite(INTERSECTION, ...)]".  A parenthesised operand is lowered on
    its own and enters the enclosing chain as one child. *)
Fixpoint compileExpr (e : Expr) : result Child :=
  match e with
  | Identifier negated segments => compileLeaf negated segments
  | Infix first rest =>
      match compileExpr first with
      | Err err => Err err
      | Ok c0 =>
          (fix chain (rest : list (Operator * Expr)) (op : option Operation)
               (children : list Child) : result Child :=
             match rest with
             | [] => Ok (finish op children)
             | (o, t) :: rest' =>
                 match compileExpr t with
                 | Err err => Err err
                 | Ok c =>
                     match op with
                     | None => chain rest' (Some (lower o)) (children ++ [c])
                     | Some o0 =>
                         if Operation_eqb o0 (lower o)
                         then chain rest' op (children ++ [c])
                         else chain rest' (Some (lower o)) [Rewrite o0 children; c]
                     end
                 end
             end) rest None [c0]
      end
  end.

(** The action [action name = source] of the current entity. *)
Definition compileAction (source : list token) : result Child :=
  match parse source with
  | Err err => Err err
  | Ok e => compileExpr e
  end.

End lowering.
End compiler.

(* ================================================================== *)
(** * internal/commands: the lookup-entity command *)
(* ================================================================== *)

Module commands.

(** [token.SnapToken], known to the command by [st.Encode().String()]. *)
Record SnapToken : Type := { Encode_String : string }.

(** [LookupEntityCommand]: the check command and the two readers, by the
    methods the command calls. *)
Record LookupEntityCommand : Type :=
  { checkCommand_Execute :
      base.PermissionCheckRequest -> result base.PermissionCheckResponse;
    schemaReader_HeadVersion : string -> result string;
    relationshipReader_HeadSnapshot : string -> result SnapToken;
    relationshipReader_GetUniqueEntityIDsByEntityType :
      string -> string -> string -> result (list string) }.

(** [base.Permission_LookupEntityStreamServer]: [Send] of one id, given
    the ids already sent. *)
Record StreamServer : Type := { Send : list string -> string -> option error }.

(** [request.Metadata.SnapToken = v]; [None] is the nil dereference. *)
Definition set_SnapToken (request : base.PermissionLookupEntityRequest) (v : string)
  : option base.PermissionLookupEntityRequest :=
  match base.Lookup_Metadata request with
  | None => None
  | Some m =>
      Some {| base.Lookup_TenantId := base.Lookup_TenantId request;
              base.Lookup_Metadata :=
                Some {| base.Lookup_SchemaVersion := base.Lookup_SchemaVersion m;
                        base.Lookup_SnapToken := v;
                        base.Lookup_Depth := base.Lookup_Depth m |};
              base.Lookup_EntityType := base.Lookup_EntityType request;
              base.Lookup_Permission := base.Lookup_Permission request;
              base.Lookup_Subject := base.Lookup_Subject request |}
  end.

(** [request.Metadata.SchemaVersion = v] *)
Definition set_SchemaVersion (request : base.PermissionLookupEntityRequest) (v : string)
  : option base.PermissionLookupEntityRequest :=
  match base.Lookup_Metadata request with
  | None => None
  | Some m =>
      Some {| base.Lookup_TenantId := base.Lookup_TenantId request;
              base.Lookup_Metadata :=
                Some {| base.Lookup_SchemaVersion := v;
                        base.Lookup_SnapToken := base.Lookup_SnapToken m;
                        base.Lookup_Depth := base.Lookup_Depth m |};
              base.Lookup_EntityType := base.Lookup_EntityType request;
              base.Lookup_Permission := base.Lookup_Permission request;
              base.Lookup_Subject := base.Lookup_Subject request |}
  end.

(** How the first two blocks of [Execute] and of [Stream] end: with the
    request to evaluate, with an early return of the error, or with a
    nil-pointer panic. *)
Inductive prologue : Type :=
| Proceed (request : base.PermissionLookupEntityRequest)
| Fail (err : error)
| Panic.

(** [if request.GetMetadata().GetSnapToken() == "" { ... }] *)
Definition default_SnapToken (command : LookupEntityCommand)
  (request : base.PermissionLookupEntityRequest) : prologue :=
  if String.eqb (base.Lookup_GetSnapToken request) "" then
    match relationshipReader_HeadSnapshot command (base.Lookup_TenantId request) with
    | Err err => Fail err
    | Ok st =>
        match set_SnapToken request (Encode_String st) with
        | None => Panic
        | Some request' => Proceed request'
        end
    end
  else Proceed request.

(** [if request.GetMetadata().GetSchemaVersion() == "" { ... }]: the
    assignment to the field precedes the test of [err]. *)
Definition default_SchemaVersion (command : LookupEntityCommand)
  (request : base.PermissionLookupEntityRequest) : prologue :=
  if String.eqb (base.Lookup_GetSchemaVersion request) "" then
    match base.Lookup_Metadata request with
    | None => Panic
    | Some _ =>
        match schemaReader_HeadVersion command (base.Lookup_TenantId request) with
        | Err err => Fail err
        | Ok v =>
            match set_SchemaVersion request v with
            | None => Panic
            | Some request' => Proceed request'
            end
        end
    end
  else Proceed request.

(** Lines 36-50 of [Execute], repeated as lines 72-86 of [Stream]. *)
Definition resolve (command : LookupEntityCommand)
  (request : base.PermissionLookupEntityRequest) : prologue :=
  match default_SnapToken command request with
  | Proceed request' => default_SchemaVersion command request'
  | other => other
  end.

(** The request [internalCheck] hands to the check command for [id]. *)
Definition check_request (request : base.PermissionLookupEntityRequest) (id : string)
  : base.PermissionCheckRequest :=
  {| base.Check_TenantId := base.Lookup_TenantId request;
     base.Check_Metadata :=
       Some {| base.Check_SchemaVersion := base.Lookup_GetSchemaVersion request;
               base.Check_SnapToken := base.Lookup_GetSnapToken request;
               base.Check_Depth := base.Lookup_GetDepth request;
               base.Check_Exclusion := false |};
     base.Check_Entity :=
       {| base.Entity_Type := base.Lookup_EntityType request; base.Entity_Id := id |};
     base.Check_Permission := base.Lookup_Permission request;
     base.Check_Subject := base.Lookup_Subject request |}.

(** [result.Can == base.PermissionCheckResponse_RESULT_ALLOWED] *)
Definition is_allowed (r : base.PermissionCheckResponse) : bool :=
  match base.Can r with base.RESULT_ALLOWED => true | _ => false end.

(** ** The goroutines

    [parallelChecker] runs in its own goroutine and starts one goroutine
    per id through an [errgroup.Group] limited to 100; [resultChan] is
    buffered with capacity 100 and [errChan] is unbuffered.  A state lists
    where every goroutine stands; a schedule is the list of the goroutines'
    moves in the order they happen. *)

Definition resultChan_capacity : nat := 100.
Definition errgroup_limit : nat := 100.

(** A goroutine started by [g.Go]: about to call the check command, or
    blocked in [resultChan <- en.GetId()]. *)
Inductive worker : Type :=
| Calling (id : string)
| Sending (id : string).

(** The [parallelChecker] goroutine. *)
Inductive checker : Type :=
| Fetching                                   (* before line 129 *)
| Reporting (err : error) (ids : list string) (* in errChan <- err, line 131 *)
| Spawning (ids : list string)               (* the for loop, ids to go *)
| Waiting                                    (* in g.Wait() *)
| ReportingWait (err : error)                (* in errChan <- err, line 149 *)
| Finished.                                  (* resultChan is closed *)

Record routines : Type :=
  { chk : checker;
    workers : list worker;
    g_err : option error;
    resultChan : list string }.

Definition closed (r : routines) : bool :=
  match chk r with Finished => true | _ => false end.

(** One move of [parallelChecker]; [None] while it is blocked. *)
Definition step_checker (command : LookupEntityCommand)
  (request : base.PermissionLookupEntityRequest) (r : routines) : option routines :=
  match chk r with
  | Fetching =>
      match relationshipReader_GetUniqueEntityIDsByEntityType command
              (base.Lookup_TenantId request) (base.Lookup_EntityType request)
              (base.Lookup_GetSnapToken request) with
      | Ok ids =>
          Some {| chk := Spawning ids; workers := workers r;
                  g_err := g_err r; resultChan := resultChan r |}
      | Err err =>
          Some {| chk := Reporting err []; workers := workers r;
                  g_err := g_err r; resultChan := resultChan r |}
      end
  | Spawning [] =>
      Some {| chk := Waiting; workers := workers r;
              g_err := g_err r; resultChan := resultChan r |}
  | Spawning (id :: ids) =>
      if length (workers r) <? errgroup_limit then
        Some {| chk := Spawning ids; workers := workers r ++ [Calling id];
                g_err := g_err r; resultChan := resultChan r |}
      else None
  | Waiting =>
      match workers r with
      | [] =>
          match g_err r with
          | Some err =>
              Some {| chk := ReportingWait err; workers := [];
                      g_err := g_err r; resultChan := resultChan r |}
          | None =>
              Some {| chk := Finished; workers := [];
                      g_err := g_err r; resultChan := resultChan r |}
          end
      | _ :: _ => None
      end
  | Reporting _ _ | ReportingWait _ | Finished => None
  end.

(** [errOnce.Do(func() { g.err = err })] *)
Definition errOnce (g_err : option error) (err : error) : option error :=
  match g_err with Some e => Some e | None => Some err end.

(** One move of the [i]-th running goroutine of the group, which executes
    [internalCheck]. *)
Definition step_worker (command : LookupEntityCommand)
  (request : base.PermissionLookupEntityRequest) (i : nat) (r : routines)
  : option routines :=
  match workers r !! i with
  | None => None
  | Some (Calling id) =>
      match checkCommand_Execute command (check_request request id) with
      | Err err =>
          Some {| chk := chk r; workers := delete i (workers r);
                  g_err := errOnce (g_err r) err; resultChan := resultChan r |}
      | Ok result_ =>
          if is_allowed result_ then
            Some {| chk := chk r; workers := <[i := Sending id]> (workers r);
                    g_err := g_err r; resultChan := resultChan r |}
          else
            Some {| chk := chk r; workers := delete i (workers r);
                    g_err := g_err r; resultChan := resultChan r |}
      end
  | Some (Sending id) =>
      if length (resultChan r) <? resultChan_capacity then
        Some {| chk := chk r; workers := delete i (workers r);
                g_err := g_err r; resultChan := resultChan r ++ [id] |}
      else None
  end.

(** The moves of a schedule: of [parallelChecker], of a worker, and of the
    calling goroutine receiving from [resultChan] or from [errChan]. *)
Inductive action : Type :=
| Checker
| Worker (i : nat)
| Receive
| ReceiveErr.

Definition start : routines :=
  {| chk := Fetching; workers := []; g_err := None; resultChan := [] |}.

(** The calling goroutine inside [Execute], after [go parallelChecker]. *)
Inductive execute_main : Type :=
| Collecting (entityIDs : list string)
| Returned (EntityIds : list string).

(** [for entityID := range resultsChan { ... }]; [Execute] never receives
    from [errChan]. *)
Definition Execute_step (command : LookupEntityCommand)
  (request : base.PermissionLookupEntityRequest) (a : action)
  (s : routines * execute_main) : option (routines * execute_main) :=
  let '(r, m) := s in
  match a with
  | Checker => option_map (fun r' => (r', m)) (step_checker command request r)
  | Worker i => option_map (fun r' => (r', m)) (step_worker command request i r)
  | Receive =>
      match m with
      | Collecting entityIDs =>
          match resultChan r with
          | entityID :: rest =>
              Some ({| chk := chk r; workers := workers r;
                       g_err := g_err r; resultChan := rest |},
                    Collecting (entityIDs ++ [entityID]))
          | [] => if closed r then Some (r, Returned entityIDs) else None
          end
      | Returned _ => None
      end
  | ReceiveErr => None
  end.

(** The calling goroutine inside [Stream]: the ids sent so far, and the
    error it returned with. *)
Inductive stream_main : Type :=
| Streaming (sent : list string)
| StreamReturned (sent : list string) (err : option error).

(** The [select] of [Stream]. *)
Definition Stream_step (command : LookupEntityCommand) (server : StreamServer)
  (request : base.PermissionLookupEntityRequest) (a : action)
  (s : routines * stream_main) : option (routines * stream_main) :=
  let '(r, m) := s in
  match a with
  | Checker => option_map (fun r' => (r', m)) (step_checker command request r)
  | Worker i => option_map (fun r' => (r', m)) (step_worker command request i r)
  | Receive =>
      match m with
      | Streaming sent =>
          match resultChan r with
          | id :: rest =>
              let r' := {| chk := chk r; workers := workers r;
                           g_err := g_err r; resultChan := rest |} in
              match Send server sent id with
              | Some err => Some (r', StreamReturned sent (Some err))
              | None => Some (r', Streaming (sent ++ [id]))
              end
          | [] => if closed r then Some (r, StreamReturned sent None) else None
          end
      | StreamReturned _ _ => None
      end
  | ReceiveErr =>
      match m with
      | Streaming sent =>
          match chk r with
          | Reporting err ids =>
              Some ({| chk := Spawning ids; workers := workers r;
                       g_err := g_err r; resultChan := resultChan r |},
                    StreamReturned sent (Some err))
          | ReportingWait err =>
              Some ({| chk := Finished; workers := workers r;
                       g_err := g_err r; resultChan := resultChan r |},
                    StreamReturned sent (Some err))
          | _ => None
          end
      | StreamReturned _ _ => None
      end
  end.

(** The state after a schedule; [None] when the schedule asks a blocked
    goroutine to move. *)
Fixpoint run {S : Type} (step : action -> S -> option S) (schedule : list action)
  (s : S) : option S :=
  match schedule with
  | [] => Some s
  | a :: schedule' =>
      match step a s with
      | Some s' => run step schedule' s'
      | None => None
      end
  end.

(** What a caller of [Execute] or [Stream] observes. *)
Inductive outcome (A : Type) : Type :=
| Returns (a : A)
| Panics
| Running.
Arguments Returns {A} a.
Arguments Panics {A}.
Arguments Running {A}.

(** [Execute(ctx, request)] under a schedule: the response (its
    [EntityIds]) or the error once it has returned. *)
Definition Execute (command : LookupEntityCommand)
  (request : base.PermissionLookupEntityRequest) (schedule : list action)
  : option (outcome (result (list string))) :=
  match resolve command request with
  | Fail err => Some (Returns (Err err))
  | Panic => Some Panics
  | Proceed request' =>
      match run (Execute_step command request') schedule (start, Collecting []) with
      | Some (_, Returned EntityIds) => Some (Returns (Ok EntityIds))
      | Some (_, Collecting _) => Some Running
      | None => None
      end
  end.

(** [Stream(ctx, request, server)] under a schedule: the ids sent to the
    server and the returned error ([None] for [nil]). *)
Definition Stream (command : LookupEntityCommand) (server : StreamServer)
  (request : base.PermissionLookupEntityRequest) (schedule : list action)
  : option (outcome (list string * option error)) :=
  match resolve command request with
  | Fail err => Some (Returns ([], Some err))
  | Panic => Some Panics
  | Proceed request' =>
      match run (Stream_step command server request') schedule (start, Streaming []) with
      | Some (_, StreamReturned sent err) => Some (Returns (sent, err))
      | Some (_, Streaming _) => Some Running
      | None => None
      end
  end.

(** No goroutine can move. *)
Definition stuck {S : Type} (step : action -> S -> option S) (s : S) : Prop :=
  forall a, step a s = None.

(** The check command answers [RESULT_ALLOWED] for [id]. *)
Definition check_allows (command : LookupEntityCommand)
  (request : base.PermissionLookupEntityRequest) (id : string) : bool :=
  match checkCommand_Execute command (check_request request id) with
  | Ok result_ => is_allowed result_
  | Err _ => false
  end.

(** ** Book-keeping over states

    The ids still to be checked or delivered, and a weight that every move
    of every goroutine decreases. *)

Definition calling (ws : list worker) : list string :=
  flat_map (fun w => match w with Calling id => [id] | Sending _ => [] end) ws.

Definition sending (ws : list worker) : list string :=
  flat_map (fun w => match w with Sending id => [id] | Calling _ => [] end) ws.

(** The ids [parallelChecker] has still to hand to [g.Go]. *)
Definition todo (command : LookupEntityCommand)
  (request : base.PermissionLookupEntityRequest) (c : checker) : list string :=
  match c with
  | Fetching =>
      match relationshipReader_GetUniqueEntityIDsByEntityType command
              (base.Lookup_TenantId request) (base.Lookup_EntityType request)
              (base.Lookup_GetSnapToken request) with
      | Ok ids => ids
      | Err _ => []
      end
  | Reporting _ ids | Spawning ids => ids
  | Waiting | ReportingWait _ | Finished => []
  end.

Definition phase (c : checker) : nat :=
  match c with
  | Fetching => 5
  | Reporting _ _ => 4
  | Spawning _ => 3
  | Waiting => 2
  | ReportingWait _ => 1
  | Finished => 0
  end.

Definition weight (command : LookupEntityCommand)
  (request : base.PermissionLookupEntityRequest) (r : routines) : nat :=
  5 * length (todo command request (chk r)) + phase (chk r)
  + 3 * length (calling (workers r)) + 2 * length (sending (workers r))
  + length (resultChan r).

Definition Execute_weight (command : LookupEntityCommand)
  (request : base.PermissionLookupEntityRequest) (s : routines * execute_main) : nat :=
  weight command request (fst s)
  + match snd s with Collecting _ => 1 | Returned _ => 0 end.

Definition Stream_weight (command : LookupEntityCommand)
  (request : base.PermissionLookupEntityRequest) (s : routines * stream_main) : nat :=
  weight command request (fst s)
  + match snd s with Streaming _ => 1 | StreamReturned _ _ => 0 end.

Definition entityIDs_of (m : execute_main) : list string :=
  match m with Collecting ids | Returned ids => ids end.

(** The invariant of [Execute] while every storage read succeeds: no
    error is recorded or reported, every allowed id is in exactly one
    place (collected, in the channel, being sent, or still to be checked),
    and [Execute] returns only from the closed, drained channel. *)
Definition Execute_invariant (command : LookupEntityCommand)
  (request : base.PermissionLookupEntityRequest) (ids : list string)
  (s : routines * execute_main) : Prop :=
  let '(r, m) := s in
  g_err r = None
  /\ match chk r with
     | Reporting _ _ | ReportingWait _ => False
     | Finished => workers r = []
     | _ => True
     end
  /\ Permutation (List.filter (check_allows command request) ids)
       (entityIDs_of m ++ resultChan r ++ sending (workers r)
        ++ List.filter (check_allows command request)
             (calling (workers r) ++ todo command request (chk r)))
  /\ List.Forall (fun id => In id ids)
       (calling (workers r) ++ todo command request (chk r))
  /\ match m with
     | Returned _ => chk r = Finished /\ resultChan r = []
     | Collecting _ => True
     end.

(** The check of [id] returns an error. *)
Definition check_fails (command : LookupEntityCommand)
  (request : base.PermissionLookupEntityRequest) (id : string) : Prop :=
  is_Ok (checkCommand_Execute command (check_request request id))
  = false.

(** The states of [Execute] once a storage read has failed or is bound to
    fail: the caller is still collecting, the channel is not closed, and
    [parallelChecker] is reporting an error, or one is recorded in the
    group, or a failing check is still to come. *)
Definition Execute_blocked (command : LookupEntityCommand)
  (request : base.PermissionLookupEntityRequest)
  (s : routines * execute_main) : Prop :=
  let '(r, m) := s in
  (exists got, m = Collecting got)
  /\ match chk r with
     | Finished => False
     | Reporting _ _ | ReportingWait _ => True
     | _ =>
         g_err r <> None
         \/ List.Exists (check_fails command request)
              (calling (workers r)
               ++ todo command request (chk r))
     end.

End commands.

(* ================================================================== *)
(** * Sample data: the drive schema and small stores *)
(* ================================================================== *)

Module sample.

(** A codec with the round trip of base64: one marker byte in front. *)
Definition mark_encode (s : string) : string := String "="%char s.

Definition mark_decode (s : string) : result string :=
  match s with
  | String "="%char rest => Ok rest
  | _ => Err (errors_New "illegal base64 data at input byte 0")
  end.

#[global] Program Instance mark_codec : Base64 :=
  {| EncodeToString := mark_encode; DecodeString := mark_decode |}.
Next Obligation. reflexivity. Qed.
Next Obligation. discriminate. Qed.

Definition row (id : N) (ty eid rel sty sid : string) : repositories.RelationTuple :=
  {| repositories.ID := id;
     repositories.EntityType := ty;
     repositories.EntityID := eid;
     repositories.Relation := rel;
     repositories.SubjectType := sty;
     repositories.SubjectID := sid;
     repositories.SubjectRelation := "" |}.

(** Three owners of documents, in the order they were written. *)
Definition rows : list repositories.RelationTuple :=
  [ row 3 "doc" "3" "owner" "user" "1";
    row 1 "doc" "1" "owner" "user" "2";
    row 2 "doc" "2" "owner" "user" "1" ].

Definition any_filter : base.TupleFilter :=
  {| base.TupleFilter_Entity :=
       {| base.EntityFilter_Type := ""; base.EntityFilter_Ids := [] |};
     base.TupleFilter_Relation := "";
     base.TupleFilter_Subject :=
       {| base.SubjectFilter_Type := ""; base.SubjectFilter_Ids := [];
          base.SubjectFilter_Relation := "" |} |}.

(** The in-memory store: a primary index that scans the whole table and a
    filter that keeps every relation tuple. *)
Definition mem_index (_ : string) (_ : base.TupleFilter) : string * list string :=
  ("id", []).

Definition mem_filter (_ : base.TupleFilter) (o : memory.Object) : bool :=
  match o with memory.RelationTupleObject _ => false | memory.ForeignObject => true end.

Definition mem_scan (db : memory.MemDB) (_ : string) (_ : list string)
  : result (list memory.Object) :=
  Ok (memory.RelationTuplesTable db).

Definition mem_db : memory.MemDB :=
  {| memory.RelationTuplesTable := map memory.RelationTupleObject rows |}.

(** The relational store: the same rows of tenant [t1], written by
    transactions 3, 1 and 2, and a healthy driver. *)
Definition pg_rows : list postgres.Row :=
  map (fun r => {| postgres.tenant_id := "t1"; postgres.columns := r;
                   postgres.created_tx_id := repositories.ID r |}) rows.

Definition pg_db : postgres.Postgres :=
  {| postgres.relation_tuples := pg_rows;
     postgres.transactions :=
       [ {| postgres.tx_id := 1; postgres.tx_tenant_id := "t1" |};
         {| postgres.tx_id := 2; postgres.tx_tenant_id := "t1" |};
         {| postgres.tx_id := 3; postgres.tx_tenant_id := "t1" |} ];
     postgres.BeginTx := None;
     postgres.ToSql := None;
     postgres.QueryContext := None;
     postgres.Scan := fun _ => None;
     postgres.rows_Err := None;
     postgres.Commit := None |}.

(** The same store with one driver fault each. *)
Definition pg_db_commit_fails : postgres.Postgres :=
  {| postgres.relation_tuples := pg_rows;
     postgres.transactions := postgres.transactions pg_db;
     postgres.BeginTx := None;
     postgres.ToSql := None;
     postgres.QueryContext := None;
     postgres.Scan := fun _ => None;
     postgres.rows_Err := None;
     postgres.Commit := Some (errors_New "pq: could not serialize access due to concurrent update") |}.

Definition pg_db_scan_fails : postgres.Postgres :=
  {| postgres.relation_tuples := pg_rows;
     postgres.transactions := postgres.transactions pg_db;
     postgres.BeginTx := None;
     postgres.ToSql := None;
     postgres.QueryContext := None;
     postgres.Scan := fun _ =>
       Some (errors_New "sql: Scan error on column index 0: converting NULL to uint64 is unsupported");
     postgres.rows_Err := None;
     postgres.Commit := None |}.

(** A snapshot token is the decimal transaction id; anything else fails
    to decode. *)
Definition pg_snapshot_Decode (snap : string) : result N :=
  match strconv.ParseUint snap with
  | Ok v => Ok v
  | Err _ => Err (errors_New "illegal base64 data at input byte 0")
  end.

Definition pg_filter (_ : base.TupleFilter) (_ : repositories.RelationTuple) : bool := true.

(** A row is visible under a revision when the transaction that wrote it
    is not younger. *)
Definition pg_SnapshotQuery (revision : N) (r : postgres.Row) : bool :=
  (postgres.created_tx_id r <=? revision)%N.

(** Stringifiers and a digest for cache keys. *)
Definition EntityAndRelationToString (e : base.Entity) (relation : string) : string :=
  base.Entity_Type e +:+ ":" +:+ base.Entity_Id e +:+ "#" +:+ relation.

Definition SubjectToString (s : base.Subject) : string :=
  base.Subject_Type s +:+ ":" +:+ base.Subject_Id s.

Fixpoint byte_sum (s : string) : N :=
  match s with
  | EmptyString => 0
  | String c rest => (N_of_ascii c + 31 * byte_sum rest) mod 2 ^ 64
  end%N.

Definition check_doc1 (depth : Z) : base.PermissionCheckRequest :=
  {| base.Check_TenantId := "t1";
     base.Check_Metadata :=
       Some {| base.Check_SchemaVersion := "v1"; base.Check_SnapToken := "3";
               base.Check_Depth := depth; base.Check_Exclusion := false |};
     base.Check_Entity := {| base.Entity_Type := "doc"; base.Entity_Id := "1" |};
     base.Check_Permission := "read";
     base.Check_Subject :=
       {| base.Subject_Type := "user"; base.Subject_Id := "2";
          base.Subject_Relation := "" |} |}.

Definition allowed : base.PermissionCheckResponse :=
  {| base.Can := base.RESULT_ALLOWED; base.RemainingDepth := 18 |}.

Definition denied : base.PermissionCheckResponse :=
  {| base.Can := base.RESULT_DENIED; base.RemainingDepth := 18 |}.

(** The organization entity of the compiler's test cases. *)
Definition user_ref : compiler.RelationReference :=
  {| compiler.ref_Type := "user"; compiler.ref_Relation := "" |}.

Definition organization : compiler.EntityNames :=
  {| compiler.relations := {[ "owner" := [user_ref]; "admin" := [user_ref] ]};
     compiler.actions := {[ "update" ]} |}.

Definition user : compiler.EntityNames :=
  {| compiler.relations := ∅; compiler.actions := ∅ |}.

Definition organization_ref : compiler.RelationReference :=
  {| compiler.ref_Type := "organization"; compiler.ref_Relation := "" |}.

(** The repository entity of cases 6 and 7. *)
Definition repository : compiler.EntityNames :=
  {| compiler.relations := {[ "parent" := [organization_ref]; "owner" := [user_ref] ]};
     compiler.actions := {[ "delete" ]} |}.

Definition schema : gmap string compiler.EntityNames :=
  {[ "user" := user; "organization" := organization; "repository" := repository ]}.

(** A lookup over documents 1, 2 and 3 for a subject allowed on 1 and 2
    (the last scenario of the specification, with one more document). *)
Definition lookup_command : commands.LookupEntityCommand :=
  {| commands.checkCommand_Execute := fun r =>
       if String.eqb (base.Entity_Id (base.Check_Entity r)) "3" then Ok denied
       else Ok allowed;
     commands.schemaReader_HeadVersion := fun _ => Ok "v1";
     commands.relationshipReader_HeadSnapshot := fun _ =>
       Ok {| commands.Encode_String := "3" |};
     commands.relationshipReader_GetUniqueEntityIDsByEntityType := fun _ _ _ =>
       Ok ["1"; "2"; "3"] |}.

(** The same with a relationship reader whose id query fails. *)
Definition failing_command : commands.LookupEntityCommand :=
  {| commands.checkCommand_Execute := commands.checkCommand_Execute lookup_command;
     commands.schemaReader_HeadVersion := fun _ => Ok "v1";
     commands.relationshipReader_HeadSnapshot := fun _ =>
       Ok {| commands.Encode_String := "3" |};
     commands.relationshipReader_GetUniqueEntityIDsByEntityType := fun _ _ _ =>
       Err (base.code_error base.ERROR_CODE_EXECUTION) |}.

(** The same with a check command that fails on document 2. *)
Definition failing_check_command : commands.LookupEntityCommand :=
  {| commands.checkCommand_Execute := fun r =>
       if String.eqb (base.Entity_Id (base.Check_Entity r)) "2"
       then Err (base.code_error base.ERROR_CODE_EXECUTION)
       else Ok allowed;
     commands.schemaReader_HeadVersion := fun _ => Ok "v1";
     commands.relationshipReader_HeadSnapshot := fun _ =>
       Ok {| commands.Encode_String := "3" |};
     commands.relationshipReader_GetUniqueEntityIDsByEntityType := fun _ _ _ =>
       Ok ["1"; "2"; "3"] |}.

Definition lookup_request (snap version : string) : base.PermissionLookupEntityRequest :=
  {| base.Lookup_TenantId := "t1";
     base.Lookup_Metadata :=
       Some {| base.Lookup_SchemaVersion := version; base.Lookup_SnapToken := snap;
               base.Lookup_Depth := 20 |};
     base.Lookup_EntityType := "doc";
     base.Lookup_Permission := "read";
     base.Lookup_Subject :=
       {| base.Subject_Type := "user"; base.Subject_Id := "1";
          base.Subject_Relation := "" |} |}.

(** One interleaving of that lookup: all ids are spawned, document 2 is
    checked and delivered before document 1, document 3 is denied. *)
Definition lookup_schedule : list commands.action :=
  [ commands.Checker; commands.Checker; commands.Checker; commands.Checker;
    commands.Worker 1; commands.Worker 1; commands.Receive;
    commands.Worker 1; commands.Worker 0; commands.Checker;
    commands.Worker 0; commands.Checker; commands.Receive; commands.Receive ].

Definition server : commands.StreamServer :=
  {| commands.Send := fun _ _ => None |}.

End sample.

(* ================================================================== *)
(** * Further sample stores and requests *)
(* ================================================================== *)

Module stores.

(** The sample rows stored twice: every entity id occurs twice. *)
Definition mem_db_twice : memory.MemDB :=
  {| memory.RelationTuplesTable :=
       map memory.RelationTupleObject (sample.rows ++ sample.rows) |}.

(** The relational sample store with a row of another tenant. *)
Definition pg_db_two_tenants : postgres.Postgres :=
  {| postgres.relation_tuples :=
       {| postgres.tenant_id := "t2";
          postgres.columns := sample.row 9 "doc" "9" "owner" "user" "7";
          postgres.created_tx_id := 1 |} :: sample.pg_rows;
     postgres.transactions :=
       {| postgres.tx_id := 7; postgres.tx_tenant_id := "t2" |}
       :: postgres.transactions sample.pg_db;
     postgres.BeginTx := None;
     postgres.ToSql := None;
     postgres.QueryContext := None;
     postgres.Scan := fun _ => None;
     postgres.rows_Err := None;
     postgres.Commit := None |}.

(** The check of document 1 for user 2 under a tenant and a schema
    version. *)
Definition check_in (tenant version : string) : base.PermissionCheckRequest :=
  {| base.Check_TenantId := tenant;
     base.Check_Metadata :=
       Some {| base.Check_SchemaVersion := version; base.Check_SnapToken := "3";
               base.Check_Depth := 20; base.Check_Exclusion := false |};
     base.Check_Entity := {| base.Entity_Type := "doc"; base.Entity_Id := "1" |};
     base.Check_Permission := "read";
     base.Check_Subject :=
       {| base.Subject_Type := "user"; base.Subject_Id := "2";
          base.Subject_Relation := "" |} |}.

(** The lookup of the documents user 1 can read, sent without metadata. *)
Definition lookup_request_without_metadata : base.PermissionLookupEntityRequest :=
  {| base.Lookup_TenantId := "t1";
     base.Lookup_Metadata := None;
     base.Lookup_EntityType := "doc";
     base.Lookup_Permission := "read";
     base.Lookup_Subject :=
       {| base.Subject_Type := "user"; base.Subject_Id := "1";
          base.Subject_Relation := "" |} |}.

End stores.

(* ================================================================== *)
(** * Invariants of the goroutines of a lookup *)
(* ================================================================== *)

Module lookup.

(** The check of some id of [ids] returns [err]. *)
Definition check_error (command : commands.LookupEntityCommand)
  (request : base.PermissionLookupEntityRequest) (ids : list string) (err : error)
  : Prop :=
  exists id,
    In id ids
    /\ commands.checkCommand_Execute command (commands.check_request request id)
       = Err err.

(** [server.Send] of some allowed id of [ids], after [sent], returns [err]. *)
Definition send_error (command : commands.LookupEntityCommand)
  (server : commands.StreamServer) (request : base.PermissionLookupEntityRequest)
  (ids sent : list string) (err : error) : Prop :=
  exists id,
    In id (List.filter (commands.check_allows command request) ids)
    /\ commands.Send server sent id = Some err.

(** The invariant of [Stream] once the id query has returned [ids],
    whatever the checks and the server do.  While [Stream] is in its loop
    every allowed id is in exactly one place (sent, in the channel, being
    sent, or still to be checked), an error recorded in the group is the
    error of a check, and while none is recorded every failing check is
    still to come.  Once [Stream] has returned [nil] it has sent exactly
    the allowed ids and no check has failed; once it has returned an error
    it has sent some of the allowed ids and the error is that of a check
    or of [server.Send]. *)
Definition Stream_invariant (command : commands.LookupEntityCommand)
  (server : commands.StreamServer) (request : base.PermissionLookupEntityRequest)
  (ids : list string) (s : commands.routines * commands.stream_main) : Prop :=
  let '(r, m) := s in
  match m with
  | commands.Streaming sent =>
      match commands.chk r with
      | commands.Reporting _ _ => False
      | commands.ReportingWait err =>
          commands.workers r = [] /\ commands.g_err r = Some err
      | commands.Finished => commands.workers r = [] /\ commands.g_err r = None
      | _ => True
      end
      /\ Permutation (List.filter (commands.check_allows command request) ids)
           (sent ++ commands.resultChan r ++ commands.sending (commands.workers r)
            ++ List.filter (commands.check_allows command request)
                 (commands.calling (commands.workers r)
                  ++ commands.todo command request (commands.chk r)))
      /\ List.Forall (fun id => In id ids)
           (commands.calling (commands.workers r)
            ++ commands.todo command request (commands.chk r))
      /\ (forall err, commands.g_err r = Some err ->
                      check_error command request ids err)
      /\ (commands.g_err r = None ->
          forall id, In id ids -> commands.check_fails command request id ->
                     In id (commands.calling (commands.workers r)
                            ++ commands.todo command request (commands.chk r)))
  | commands.StreamReturned sent None =>
      Permutation sent (List.filter (commands.check_allows command request) ids)
      /\ forall id, In id ids ->
           is_Ok (commands.checkCommand_Execute command
                    (commands.check_request request id)) = true
  | commands.StreamReturned sent (Some err) =>
      (exists rest,
          Permutation (List.filter (commands.check_allows command request) ids)
            (sent ++ rest))
      /\ (check_error command request ids err
          \/ send_error command server request ids sent err)
  end.

(** The bounds [g.SetLimit(100)] and [make(chan string, 100)] impose. *)
Definition fan_out_bounded (r : commands.routines) : Prop :=
  length (commands.workers r) <= commands.errgroup_limit
  /\ length (commands.resultChan r) <= commands.resultChan_capacity.

End lookup.

(* ================================================================== *)
(** * A caller that pages through a query *)
(* ================================================================== *)

Module client.

(** Paging through [read], a call of [ReadRelationships] as a function of
    its pagination argument: the caller starts from [pagination] and calls
    again with each continuous token it is handed, until the token is the
    empty one, a call fails, or [calls] calls are made.  The result is the
    pages received and whether the end was reached. *)
Fixpoint follow (read : database.Pagination -> database.ReadResult) (calls : nat)
  (pagination : database.Pagination) : list database.TupleCollection * bool :=
  match calls with
  | 0 => ([], false)
  | S calls =>
      match read pagination with
      | (Some collection, Some ct, None) =>
          if String.eqb (database.Value ct) "" then ([collection], true)
          else
            let '(pages, finished) :=
              follow read calls
                {| database.PageSize := database.PageSize pagination;
                   database.Token := database.Value ct |} in
            (collection :: pages, finished)
      | _ => ([], false)
      end
  end.

End client.

(* ================================================================== *)
(** * Facts: the relational reader's errors and head snapshot *)
(* ================================================================== *)

Lemma head_query_empty tenantID (table : list postgres.Transaction) :
  (forall t, In t table -> postgres.tx_tenant_id t <> tenantID) ->
  postgres.head_query tenantID table = [].
Proof.
  intros Hfresh. unfold postgres.head_query.
  replace (List.filter _ table) with (@nil postgres.Transaction); [reflexivity|].
  symmetry. induction table as [|t table IH]; [reflexivity|]. simpl.
  destruct (String.eqb_spec (postgres.tx_tenant_id t) tenantID) as [Heq|_].
  - exfalso. apply (Hfresh t); [now left | exact Heq].
  - apply IH. intros t' Hin. apply Hfresh. now right.
Qed.

(** C10. For a tenant with no row in the transactions table, once the
    statement is built and the driver runs it, the relational
    [HeadSnapshot] returns the token of transaction id 0 and no error: the
    [sql.ErrNoRows] of the scan is not propagated. *)
Theorem HeadSnapshot_fresh_tenant (db : postgres.Postgres) (tenantID : string) :
  (forall t, In t (postgres.transactions db) -> postgres.tx_tenant_id t <> tenantID) ->
  postgres.ToSql db = None ->
  postgres.QueryContext db = None ->
  postgres.QueryRow_Scan db (postgres.head_query tenantID (postgres.transactions db))
    = Err sql_ErrNoRows
  /\ postgres.HeadSnapshot db tenantID = Ok {| postgres.Uint := 0 |}.
Proof.
  intros Hfresh Hsql Hquery.
  unfold postgres.HeadSnapshot, postgres.QueryRow_Scan.
  rewrite Hsql, Hquery, (head_query_empty _ _ Hfresh). split; reflexivity.
Qed.

Lemma HeadSnapshot_fresh_tenant_witness :
  postgres.HeadSnapshot sample.pg_db "t2" = Ok {| postgres.Uint := 0 |}.
Proof.
  apply (HeadSnapshot_fresh_tenant sample.pg_db "t2").
  - intros t Hin. simpl in Hin.
    destruct Hin as [<-|[<-|[<-|[]]]]; discriminate.
  - reflexivity.
  - reflexivity.
Defined.

(** C9. The relational reader hands driver errors to its caller as they
    are: with a failing [tx.Commit], and with a failing [rows.Scan],
    [QueryRelationships] returns the driver's own error, whose message is
    not a code of the enumeration. *)
Theorem QueryRelationships_returns_driver_error :
  let commit_err := errors_New "pq: could not serialize access due to concurrent update" in
  let scan_err :=
    errors_New "sql: Scan error on column index 0: converting NULL to uint64 is unsupported" in
  postgres.QueryRelationships sample.pg_snapshot_Decode sample.pg_filter
    sample.pg_SnapshotQuery sample.pg_db_commit_fails "t1" sample.any_filter "3"
    = Err commit_err
  /\ base.carries_code commit_err = false
  /\ postgres.QueryRelationships sample.pg_snapshot_Decode sample.pg_filter
       sample.pg_SnapshotQuery sample.pg_db_scan_fails "t1" sample.any_filter "3"
     = Err scan_err
  /\ base.carries_code scan_err = false.
Proof. repeat split; vm_compute; reflexivity. Qed.

(* ================================================================== *)
(** * Facts: malformed continuous tokens *)
(* ================================================================== *)

Lemma lower_bound_of_invalid `{Base64} (pagination : database.Pagination) (t : string) :
  database.Token pagination <> "" ->
  utils.EncodedContinuousToken_Decode (database.Token pagination) = Ok t ->
  is_Ok (strconv.ParseUint t) = false ->
  memory.lower_bound_of pagination
  = inr (None, Some utils.NewNoopContinuousToken_Encode,
         Some (base.code_error base.ERROR_CODE_INVALID_CONTINUOUS_TOKEN)).
Proof.
  intros Hne Hdec Hparse. unfold memory.lower_bound_of.
  destruct (String.eqb_spec (database.Token pagination) "") as [Heq|_]; [contradiction|].
  rewrite Hdec. destruct (strconv.ParseUint t); [discriminate|reflexivity].
Qed.

Lemma with_token_invalid `{Base64} (builder : postgres.SelectBuilder)
  (pagination : database.Pagination) (t : string) :
  database.Token pagination <> "" ->
  utils.EncodedContinuousToken_Decode (database.Token pagination) = Ok t ->
  is_Ok (strconv.ParseUint t) = false ->
  postgres.with_token builder pagination
  = inr (None, None, Some (base.code_error base.ERROR_CODE_INVALID_CONTINUOUS_TOKEN)).
Proof.
  intros Hne Hdec Hparse. unfold postgres.with_token.
  destruct (String.eqb_spec (database.Token pagination) "") as [Heq|_]; [contradiction|].
  rewrite Hdec. destruct (strconv.ParseUint t); [discriminate|reflexivity].
Qed.

(** C8, as stated, fails on the relational back end: the snapshot token is
    decoded before the pagination token is looked at, so a call whose
    snapshot token does not decode returns the decoder's error even though
    its pagination token decodes to a non-number. *)
Lemma ReadRelationships_snapshot_error_first :
  let pagination := {| database.PageSize := 10; database.Token := EncodeToString "abc" |} in
  database.Token pagination <> ""
  /\ utils.EncodedContinuousToken_Decode (database.Token pagination) = Ok "abc"
  /\ is_Ok (strconv.ParseUint "abc") = false
  /\ exists err,
      postgres.ReadRelationships sample.pg_snapshot_Decode sample.pg_filter
        sample.pg_SnapshotQuery sample.pg_db "t1" sample.any_filter "not-a-token" pagination
      = (None, None, Some err)
      /\ Error err <> base.ErrorCode_String base.ERROR_CODE_INVALID_CONTINUOUS_TOKEN.
Proof.
  repeat split; try (vm_compute; congruence).
  eexists. split; [vm_compute; reflexivity|]. vm_compute. discriminate.
Qed.

(** C8, amended. A non-empty pagination token that decodes to something
    other than a decimal uint64 makes [ReadRelationships] return the
    error [INVALID_CONTINUOUS_TOKEN] and no tuple collection: always on the
    in-memory back end, and on the relational back end once the snapshot
    token has decoded and the transaction has begun. *)
Theorem ReadRelationships_invalid_continuous_token `{Base64}
  (pagination : database.Pagination) (t : string) :
  database.Token pagination <> "" ->
  utils.EncodedContinuousToken_Decode (database.Token pagination) = Ok t ->
  is_Ok (strconv.ParseUint t) = false ->
  (forall index filterQuery lowerBound db tenantID filter snap,
      memory.ReadRelationships index filterQuery lowerBound db tenantID filter snap pagination
      = (None, Some utils.NewNoopContinuousToken_Encode,
         Some (base.code_error base.ERROR_CODE_INVALID_CONTINUOUS_TOKEN)))
  /\ (forall decode filterQuery snapshotQuery db tenantID filter snap st,
      decode snap = Ok st ->
      postgres.BeginTx db = None ->
      postgres.ReadRelationships decode filterQuery snapshotQuery db tenantID filter snap
        pagination
      = (None, None, Some (base.code_error base.ERROR_CODE_INVALID_CONTINUOUS_TOKEN)))
  /\ Error (base.code_error base.ERROR_CODE_INVALID_CONTINUOUS_TOKEN)
     = "ERROR_CODE_INVALID_CONTINUOUS_TOKEN".
Proof.
  intros Hne Hdec Hparse. split; [|split]; [| |reflexivity].
  - intros. unfold memory.ReadRelationships.
    now rewrite (lower_bound_of_invalid pagination t Hne Hdec Hparse).
  - intros decode fq sq db tenantID filter snap st Hsnap Hbegin.
    unfold postgres.ReadRelationships. rewrite Hsnap, Hbegin.
    now rewrite (with_token_invalid _ pagination t Hne Hdec Hparse).
Qed.

Lemma ReadRelationships_invalid_continuous_token_witness :
  memory.ReadRelationships sample.mem_index sample.mem_filter sample.mem_scan
    sample.mem_db "t1" sample.any_filter "3"
    {| database.PageSize := 10; database.Token := EncodeToString "abc" |}
  = (None, Some utils.NewNoopContinuousToken_Encode,
     Some (base.code_error base.ERROR_CODE_INVALID_CONTINUOUS_TOKEN))
  /\ postgres.ReadRelationships sample.pg_snapshot_Decode sample.pg_filter
       sample.pg_SnapshotQuery sample.pg_db "t1" sample.any_filter "3"
       {| database.PageSize := 10; database.Token := EncodeToString "abc" |}
     = (None, None, Some (base.code_error base.ERROR_CODE_INVALID_CONTINUOUS_TOKEN)).
Proof.
  pose proof (ReadRelationships_invalid_continuous_token
                {| database.PageSize := 10; database.Token := EncodeToString "abc" |}
                "abc") as W.
  destruct W as (Wm & Wp & _).
  - simpl. discriminate.
  - reflexivity.
  - reflexivity.
  - split.
    + apply Wm.
    + apply (Wp _ _ _ _ _ _ _ 3%N); reflexivity.
Defined.

(* ================================================================== *)
(** * Facts: snapshots and QueryRelationships *)
(* ================================================================== *)

Lemma query_loop_tuples (rows : list repositories.RelationTuple)
  (collection : database.TupleCollection) :
  memory.query_loop (map memory.RelationTupleObject rows) collection
  = Ok (collection ++ map repositories.ToTuple rows).
Proof.
  revert collection. induction rows as [|t rows IH]; intros collection; simpl.
  - now rewrite app_nil_r.
  - rewrite IH, <- app_assoc. reflexivity.
Qed.

Lemma scan_loop_healthy (db : postgres.Postgres) (rows : list repositories.RelationTuple)
  (i : nat) (collection : list base.Tuple) :
  (forall j, postgres.Scan db j = None) ->
  postgres.scan_loop db rows i collection
  = Ok (collection ++ map repositories.ToTuple rows).
Proof.
  intros Hscan. revert i collection.
  induction rows as [|t rows IH]; intros i collection; simpl.
  - now rewrite app_nil_r.
  - rewrite Hscan, IH, <- app_assoc. reflexivity.
Qed.

(** C2, as stated, fails on the in-memory back end: with one tuple
    committed at instant 1 and another at instant 10, a read under any
    snapshot string, so also one taken at instant 5, returns both. *)
Lemma memory_QueryRelationships_shows_later_commit :
  let first := sample.row 1 "doc" "1" "owner" "user" "2" in
  let later := sample.row 2 "doc" "2" "owner" "user" "1" in
  let h : memory.History :=
    [ (1%N, memory.RelationTupleObject first);
      (10%N, memory.RelationTupleObject later) ] in
  memory.committed_by 5 h = [memory.RelationTupleObject first]
  /\ forall snap,
      memory.QueryRelationships sample.mem_index sample.mem_filter sample.mem_scan
        (memory.MemDB_of h) "t1" sample.any_filter snap
      = Ok [repositories.ToTuple first; repositories.ToTuple later].
Proof. split; [reflexivity|]. intros snap. reflexivity. Qed.

(** C2, amended. On the relational back end, for every tenant, filter
    and snapshot token that decodes to the revision [S], with a driver
    that reports no fault, [QueryRelationships] returns exactly the tuples
    of the tenant's rows that match the filter and were committed at or
    before [S]: a matching row is returned if and only if the transaction
    that wrote it is not after [S], so that a tuple committed after [S] is
    never visible.  On the in-memory back end [QueryRelationships] ignores
    the snapshot: under every snapshot it returns the tuples of all stored
    objects the index scan yields and the filter keeps. *)
Theorem QueryRelationships_visibility :
  (forall decode filterQuery db tenantID filter snap S,
      decode snap = Ok S ->
      postgres.BeginTx db = None -> postgres.ToSql db = None ->
      postgres.QueryContext db = None -> (forall i, postgres.Scan db i = None) ->
      postgres.rows_Err db = None -> postgres.Commit db = None ->
      exists rows,
        postgres.QueryRelationships decode filterQuery postgres_utils.SnapshotQuery
          db tenantID filter snap
        = Ok (map repositories.ToTuple (map postgres.columns rows))
        /\ rows
           = List.filter
               (fun r => String.eqb (postgres.tenant_id r) tenantID
                         && filterQuery filter (postgres.columns r)
                         && (postgres.created_tx_id r <=? S)%N)
               (postgres.relation_tuples db)
        /\ (forall r, In r rows -> In r (postgres.relation_tuples db)
                                  /\ postgres.tenant_id r = tenantID
                                  /\ filterQuery filter (postgres.columns r) = true)
        /\ (forall r, In r (postgres.relation_tuples db) ->
                      postgres.tenant_id r = tenantID ->
                      filterQuery filter (postgres.columns r) = true ->
                      (In r rows <-> (postgres.created_tx_id r <= S)%N)))
  /\ (forall index filterQuery get db tenantID filter objs rows,
      get db (fst (index tenantID filter)) (snd (index tenantID filter)) = Ok objs ->
      memory.NewFilterIterator objs (filterQuery filter)
      = map memory.RelationTupleObject rows ->
      forall snap,
        memory.QueryRelationships index filterQuery get db tenantID filter snap
        = Ok (map repositories.ToTuple rows)).
Proof.
  split.
  - intros decode fq db tenantID filter snap S Hsnap Hb Hs Hq Hscan Hr Hc.
    eexists. split; [|split; [reflexivity|split]].
    + unfold postgres.QueryRelationships.
      rewrite Hsnap, Hb, Hs, Hq, (scan_loop_healthy _ _ _ _ Hscan), Hr, Hc.
      simpl. unfold database.CreateTupleIterator, postgres.run. simpl.
      do 3 f_equal. apply filter_ext. intros r.
      unfold postgres.satisfies, postgres_utils.SnapshotQuery. simpl.
      now rewrite andb_true_r, andb_assoc.
    + intros r Hin. apply filter_In in Hin. destruct Hin as [Hin Hcond].
      rewrite !andb_true_iff, String.eqb_eq in Hcond. tauto.
    + intros r Hin Htenant Hfilter.
      rewrite filter_In, !andb_true_iff, String.eqb_eq, N.leb_le. tauto.
  - intros index fq get db tenantID filter objs rows Hget Hkept snap.
    unfold memory.QueryRelationships.
    destruct (index tenantID filter) as [ix args]. simpl in Hget.
    rewrite Hget, Hkept. apply query_loop_tuples.
Qed.

Lemma QueryRelationships_visibility_witness :
  postgres.QueryRelationships sample.pg_snapshot_Decode sample.pg_filter
    postgres_utils.SnapshotQuery sample.pg_db "t1" sample.any_filter "2"
  = Ok [ repositories.ToTuple (sample.row 1 "doc" "1" "owner" "user" "2");
         repositories.ToTuple (sample.row 2 "doc" "2" "owner" "user" "1") ]
  /\ (forall snap,
      memory.QueryRelationships sample.mem_index sample.mem_filter sample.mem_scan
        sample.mem_db "t1" sample.any_filter snap
      = Ok (map repositories.ToTuple sample.rows)).
Proof.
  destruct QueryRelationships_visibility as [Wp Wm]. split.
  - destruct (Wp sample.pg_snapshot_Decode sample.pg_filter sample.pg_db "t1"
                sample.any_filter "2" 2%N eq_refl eq_refl eq_refl eq_refl
                (fun _ => eq_refl) eq_refl eq_refl) as (rows & Hrun & Hrows & _).
    rewrite Hrun, Hrows. vm_compute. reflexivity.
  - apply (Wm sample.mem_index sample.mem_filter sample.mem_scan sample.mem_db "t1"
              sample.any_filter (map memory.RelationTupleObject sample.rows));
      reflexivity.
Defined.

(* ================================================================== *)
(** * Facts: cache keys of check requests *)
(* ================================================================== *)

Lemma checkKey_same_fields ears sts (k1 k2 : base.PermissionCheckRequest) :
  keys.same_fields k1 k2 -> keys.checkKey ears sts k1 = keys.checkKey ears sts k2.
Proof.
  intros (Ht & Hv & Hs & He & Hp & Hsub). unfold keys.checkKey.
  now rewrite Ht, Hv, Hs, He, Hp, Hsub.
Qed.

(** [GetCheckKey] returns what the cache holds under the hashed key. *)
Lemma GetCheckKey_cache_Get {C : Type} `{Cache C}
  (ears : base.Entity -> string -> string) (sts : base.Subject -> string)
  (sum64 : string -> N) (k : base.PermissionCheckRequest) (c : C) :
  fst (keys.GetCheckKey ears sts sum64 k c)
  = match fst (cache_Get (keys.hashed ears sts sum64 k) c) with
    | Some resp => (Some resp, true)
    | None => (None, false)
    end.
Proof.
  unfold keys.GetCheckKey.
  now destruct (cache_Get (keys.hashed ears sts sum64 k) c) as [[resp|] c''].
Qed.

(** C5, as stated, fails: the cache decides whether a stored decision is
    found.  On a cache that buffers its writes, [SetCheckKey] for the
    check of document 1 succeeds and [GetCheckKey] for the very same
    request then finds nothing. *)
Lemma GetCheckKey_misses_accepted_entry :
  let c0 := {| applied := ∅; queued := [] |} in
  let set := keys.SetCheckKey sample.EntityAndRelationToString sample.SubjectToString
               sample.byte_sum (sample.check_doc1 20) sample.allowed c0 in
  fst set = true
  /\ fst (keys.GetCheckKey sample.EntityAndRelationToString sample.SubjectToString
            sample.byte_sum (sample.check_doc1 20) (snd set))
     = (None, false).
Proof. split; reflexivity. Qed.

(** C5, amended. The cache key is the hex rendering of the xxhash digest
    of [check_<tenant>_<schema version>:<snapshot token>:<entity and
    permission>@<subject>], so it is determined by those six fields: two
    check requests that agree on them have the same key, whatever their
    remaining fields (depth, exclusion) are.  [SetCheckKey] for one stores
    the decision in the cache under that key, and [GetCheckKey] for the
    other returns what the cache holds under it: the stored decision with
    [found = true] whenever the cache, after a successful [SetCheckKey],
    still holds the entry, and [found = false] when it holds none.  The
    cache is any implementation of the interface. *)
Theorem check_key_round_trip {C : Type} `{Cache C}
  (ears : base.Entity -> string -> string) (sts : base.Subject -> string)
  (sum64 : string -> N) (k1 k2 : base.PermissionCheckRequest)
  (v : base.PermissionCheckResponse) (c c' : C) :
  keys.same_fields k1 k2 ->
  let key :=
    keys.hex_EncodeToString_Sum
      (sum64 ("check_" +:+ base.Check_TenantId k1 +:+ "_"
              +:+ base.Check_GetSchemaVersion k1 +:+ ":"
              +:+ base.Check_GetSnapToken k1 +:+ ":"
              +:+ ears (base.Check_Entity k1) (base.Check_Permission k1)
              +:+ "@" +:+ sts (base.Check_Subject k1))) in
  keys.hashed ears sts sum64 k1 = key
  /\ keys.hashed ears sts sum64 k2 = key
  /\ (exists size, keys.SetCheckKey ears sts sum64 k1 v c = cache_Set key v size c)
  /\ fst (keys.GetCheckKey ears sts sum64 k2 c')
     = match fst (cache_Get key c') with
       | Some resp => (Some resp, true)
       | None => (None, false)
       end
  /\ (keys.SetCheckKey ears sts sum64 k1 v c = (true, c') ->
      fst (cache_Get key c') = Some v ->
      fst (keys.GetCheckKey ears sts sum64 k2 c') = (Some v, true)).
Proof.
  intros Hsame key.
  assert (Hk1 : keys.hashed ears sts sum64 k1 = key) by reflexivity.
  assert (Hk2 : keys.hashed ears sts sum64 k2 = key).
  { rewrite <- Hk1. unfold keys.hashed.
    now rewrite (checkKey_same_fields ears sts k1 k2 Hsame). }
  assert (Hget : fst (keys.GetCheckKey ears sts sum64 k2 c')
                 = match fst (cache_Get key c') with
                   | Some resp => (Some resp, true)
                   | None => (None, false)
                   end).
  { rewrite GetCheckKey_cache_Get. now rewrite Hk2. }
  split; [exact Hk1|]. split; [exact Hk2|]. split; [eexists; reflexivity|].
  split; [exact Hget|].
  intros _ Hheld. now rewrite Hget, Hheld.
Qed.

Lemma check_key_round_trip_witness :
  keys.hashed sample.EntityAndRelationToString sample.SubjectToString sample.byte_sum
    (sample.check_doc1 20)
  = keys.hashed sample.EntityAndRelationToString sample.SubjectToString sample.byte_sum
      (sample.check_doc1 7)
  /\ fst (keys.GetCheckKey sample.EntityAndRelationToString sample.SubjectToString
            sample.byte_sum (sample.check_doc1 7)
            (snd (keys.SetCheckKey sample.EntityAndRelationToString
                    sample.SubjectToString sample.byte_sum (sample.check_doc1 20)
                    sample.allowed (∅ : gmap string base.PermissionCheckResponse))))
     = (Some sample.allowed, true).
Proof.
  pose proof (check_key_round_trip sample.EntityAndRelationToString
                sample.SubjectToString sample.byte_sum
                (sample.check_doc1 20) (sample.check_doc1 7) sample.allowed
                (∅ : gmap string base.PermissionCheckResponse)
                (snd (keys.SetCheckKey sample.EntityAndRelationToString
                        sample.SubjectToString sample.byte_sum (sample.check_doc1 20)
                        sample.allowed (∅ : gmap string base.PermissionCheckResponse))))
    as W.
  destruct W as (Wk1 & Wk2 & _ & _ & Wr).
  - repeat split.
  - split; [now rewrite Wk1, Wk2|]. apply Wr; [reflexivity|].
    vm_compute. reflexivity.
Defined.

(** The no-op key manager accepts every entry and finds none. *)
Lemma Noop_keys_never_hit (k1 k2 : base.PermissionCheckRequest)
  (v : base.PermissionCheckResponse) :
  keys.Noop_SetCheckKey k1 v = true /\ keys.Noop_GetCheckKey k2 = (None, false).
Proof. split; reflexivity. Qed.

(* ================================================================== *)
(** * Facts: lowering of [a or (b and c)] *)
(* ================================================================== *)

Lemma declares_relation (e : compiler.EntityNames) (name : string) :
  is_Some (compiler.relations e !! name) -> compiler.declares e name = true.
Proof.
  intros Hrel. unfold compiler.declares.
  now rewrite (bool_decide_eq_true_2 _ Hrel).
Qed.

(** C6. The text [a or (b and c)] lexes to the seven tokens below, and for
    any relations [a], [b], [c] of the current entity that token sequence
    compiles to [Rewrite(UNION, [Leaf a, Rewrite(INTERSECTION, [Leaf b,
    Leaf c])])] with computed-userset leaves and no exclusion: the
    parenthesised [and] stays one child of the [or]. *)
Theorem compile_or_of_parenthesised_and (schema : gmap string compiler.EntityNames)
  (entity : compiler.EntityNames) (a b c : string) :
  is_Some (compiler.relations entity !! a) ->
  is_Some (compiler.relations entity !! b) ->
  is_Some (compiler.relations entity !! c) ->
  compiler.lex "a or (b and c)"
  = [ compiler.IDENT "a"; compiler.OR; compiler.LPAREN; compiler.IDENT "b";
      compiler.AND; compiler.IDENT "c"; compiler.RPAREN ]
  /\ compiler.compileAction schema entity
       [ compiler.IDENT a; compiler.OR; compiler.LPAREN; compiler.IDENT b;
         compiler.AND; compiler.IDENT c; compiler.RPAREN ]
     = Ok (compiler.Rewrite compiler.OPERATION_UNION
             [ compiler.Leaf false (compiler.ComputedUserSet a);
               compiler.Rewrite compiler.OPERATION_INTERSECTION
                 [ compiler.Leaf false (compiler.ComputedUserSet b);
                   compiler.Leaf false (compiler.ComputedUserSet c) ] ]).
Proof.
  intros Ha Hb Hc. split; [reflexivity|].
  unfold compiler.compileAction, compiler.parse. cbn.
  unfold compiler.compileLeaf.
  rewrite (declares_relation _ _ Ha), (declares_relation _ _ Hb),
    (declares_relation _ _ Hc).
  reflexivity.
Qed.

Lemma compile_or_of_parenthesised_and_witness :
  compiler.compileAction sample.schema sample.organization
    (compiler.lex "owner or (admin and owner)")
  = Ok (compiler.Rewrite compiler.OPERATION_UNION
          [ compiler.Leaf false (compiler.ComputedUserSet "owner");
            compiler.Rewrite compiler.OPERATION_INTERSECTION
              [ compiler.Leaf false (compiler.ComputedUserSet "admin");
                compiler.Leaf false (compiler.ComputedUserSet "owner") ] ]).
Proof.
  apply (compile_or_of_parenthesised_and sample.schema sample.organization
           "owner" "admin" "owner"); vm_compute; eauto.
Defined.

(** The lowering agrees with the expectations of the compiler's test
    suite on the action expressions of its cases 2, 4, 5, 6 and 7, and
    flattens a chain of one operator. *)
Lemma compiler_test_suite :
  compiler.compileAction sample.schema sample.organization
    (compiler.lex "owner or admin")
  = Ok (compiler.Rewrite compiler.OPERATION_UNION
          [ compiler.Leaf false (compiler.ComputedUserSet "owner");
            compiler.Leaf false (compiler.ComputedUserSet "admin") ])
  /\ compiler.compileAction sample.schema sample.organization (compiler.lex "owner")
     = Ok (compiler.Leaf false (compiler.ComputedUserSet "owner"))
  /\ compiler.compileAction sample.schema sample.organization
       (compiler.lex "maintainer or admin")
     = Err (base.code_error base.ERROR_CODE_UNDEFINED_RELATION_REFERENCE)
  /\ compiler.compileAction sample.schema sample.repository
       (compiler.lex "parent.parent.admin or admin")
     = Err (base.code_error base.ERROR_CODE_NOT_SUPPORTED_RELATION_WALK)
  /\ compiler.compileAction sample.schema sample.repository
       (compiler.lex "owner or (parent.update or not parent.owner)")
     = Ok (compiler.Rewrite compiler.OPERATION_UNION
             [ compiler.Leaf false (compiler.ComputedUserSet "owner");
               compiler.Rewrite compiler.OPERATION_UNION
                 [ compiler.Leaf false (compiler.TupleToUserSet "parent" "update");
                   compiler.Leaf true (compiler.TupleToUserSet "parent" "owner") ] ])
  /\ compiler.compileAction sample.schema sample.organization
       (compiler.lex "owner or admin or update")
     = Ok (compiler.Rewrite compiler.OPERATION_UNION
             [ compiler.Leaf false (compiler.ComputedUserSet "owner");
               compiler.Leaf false (compiler.ComputedUserSet "admin");
               compiler.Leaf false (compiler.ComputedUserSet "update") ]).
Proof. repeat split; vm_compute; reflexivity. Qed.

(* ================================================================== *)
(** * Facts: default snapshot and schema version of a lookup *)
(* ================================================================== *)

(** Without metadata the snapshot token reads as empty, and the assignment
    of the head snapshot dereferences the nil pointer. *)
Lemma resolve_without_metadata (command : commands.LookupEntityCommand)
  (request : base.PermissionLookupEntityRequest) (st : commands.SnapToken) :
  base.Lookup_Metadata request = None ->
  commands.relationshipReader_HeadSnapshot command (base.Lookup_TenantId request)
  = Ok st ->
  commands.resolve command request = commands.Panic.
Proof.
  intros Hnil Hhead.
  unfold commands.resolve, commands.default_SnapToken, base.Lookup_GetSnapToken,
    commands.set_SnapToken.
  now rewrite Hnil, Hhead.
Qed.

(** C7 fails for a request without metadata.  Its snapshot token and its
    schema version read as empty through the nil-safe getters, so both are
    to be replaced by the heads of the tenant; [Execute] and [Stream] read
    the head snapshot and then assign it through the nil [Metadata]
    pointer: once the head snapshot is read, neither replaces anything,
    neither evaluates the request, and both panic, whatever the
    schedule. *)
Theorem lookup_entity_without_metadata_panics (command : commands.LookupEntityCommand)
  (request : base.PermissionLookupEntityRequest) (st : commands.SnapToken) :
  base.Lookup_Metadata request = None ->
  commands.relationshipReader_HeadSnapshot command (base.Lookup_TenantId request)
  = Ok st ->
  base.Lookup_GetSnapToken request = ""
  /\ base.Lookup_GetSchemaVersion request = ""
  /\ commands.set_SnapToken request (commands.Encode_String st) = None
  /\ (forall schedule,
        commands.Execute command request schedule = Some commands.Panics)
  /\ (forall server schedule,
        commands.Stream command server request schedule = Some commands.Panics).
Proof.
  intros Hnil Hhead.
  pose proof (resolve_without_metadata command request st Hnil Hhead) as Hres.
  unfold base.Lookup_GetSnapToken, base.Lookup_GetSchemaVersion, commands.set_SnapToken,
    commands.Execute, commands.Stream.
  rewrite Hnil, Hres. repeat split.
Qed.

Lemma lookup_entity_without_metadata_panics_witness :
  commands.relationshipReader_HeadSnapshot sample.lookup_command "t1"
  = Ok {| commands.Encode_String := "3" |}
  /\ commands.Execute sample.lookup_command stores.lookup_request_without_metadata
       sample.lookup_schedule
     = Some commands.Panics
  /\ commands.Stream sample.lookup_command sample.server
       stores.lookup_request_without_metadata sample.lookup_schedule
     = Some commands.Panics.
Proof.
  split; [reflexivity|].
  destruct (lookup_entity_without_metadata_panics sample.lookup_command
              stores.lookup_request_without_metadata
              {| commands.Encode_String := "3" |} eq_refl eq_refl)
    as (_ & _ & _ & Hexecute & Hstream).
  split; [apply Hexecute|apply Hstream].
Defined.

Lemma set_SnapToken_fields (request request' : base.PermissionLookupEntityRequest)
  (v : string) :
  commands.set_SnapToken request v = Some request' ->
  base.Lookup_GetSnapToken request' = v
  /\ base.Lookup_GetSchemaVersion request' = base.Lookup_GetSchemaVersion request
  /\ base.Lookup_GetDepth request' = base.Lookup_GetDepth request
  /\ base.Lookup_TenantId request' = base.Lookup_TenantId request
  /\ base.Lookup_EntityType request' = base.Lookup_EntityType request
  /\ base.Lookup_Permission request' = base.Lookup_Permission request
  /\ base.Lookup_Subject request' = base.Lookup_Subject request
  /\ is_Some (base.Lookup_Metadata request').
Proof.
  unfold commands.set_SnapToken, base.Lookup_GetSnapToken,
    base.Lookup_GetSchemaVersion, base.Lookup_GetDepth.
  destruct (base.Lookup_Metadata request) as [m|]; [|discriminate].
  intros [= <-]. simpl. repeat split; eauto.
Qed.

Lemma set_SchemaVersion_fields (request request' : base.PermissionLookupEntityRequest)
  (v : string) :
  commands.set_SchemaVersion request v = Some request' ->
  base.Lookup_GetSchemaVersion request' = v
  /\ base.Lookup_GetSnapToken request' = base.Lookup_GetSnapToken request
  /\ base.Lookup_GetDepth request' = base.Lookup_GetDepth request
  /\ base.Lookup_TenantId request' = base.Lookup_TenantId request
  /\ base.Lookup_EntityType request' = base.Lookup_EntityType request
  /\ base.Lookup_Permission request' = base.Lookup_Permission request
  /\ base.Lookup_Subject request' = base.Lookup_Subject request.
Proof.
  unfold commands.set_SchemaVersion, base.Lookup_GetSnapToken,
    base.Lookup_GetSchemaVersion, base.Lookup_GetDepth.
  destruct (base.Lookup_Metadata request) as [m|]; [|discriminate].
  intros [= <-]. simpl. repeat split; eauto.
Qed.

(** X15. For a lookup-entity request that carries metadata, whose head
    reads succeed where they are needed: both [Execute] and [Stream] first
    resolve the request and then evaluate the resolved one.  An empty
    snapshot token is replaced by the encoded [HeadSnapshot] of the tenant
    and an empty schema version by its [HeadVersion]; a non-empty field is
    kept as supplied, and every other field is unchanged. *)
Theorem lookup_entity_defaults (command : commands.LookupEntityCommand)
  (request : base.PermissionLookupEntityRequest)
  (md : base.PermissionLookupEntityRequestMetadata) :
  base.Lookup_Metadata request = Some md ->
  (base.Lookup_SnapToken md = "" ->
   is_Ok (commands.relationshipReader_HeadSnapshot command
            (base.Lookup_TenantId request)) = true) ->
  (base.Lookup_SchemaVersion md = "" ->
   is_Ok (commands.schemaReader_HeadVersion command
            (base.Lookup_TenantId request)) = true) ->
  exists request',
    commands.resolve command request = commands.Proceed request'
    /\ (if String.eqb (base.Lookup_SnapToken md) ""
        then exists st,
            commands.relationshipReader_HeadSnapshot command
              (base.Lookup_TenantId request) = Ok st
            /\ base.Lookup_GetSnapToken request' = commands.Encode_String st
        else base.Lookup_GetSnapToken request' = base.Lookup_SnapToken md)
    /\ (if String.eqb (base.Lookup_SchemaVersion md) ""
        then commands.schemaReader_HeadVersion command (base.Lookup_TenantId request)
             = Ok (base.Lookup_GetSchemaVersion request')
        else base.Lookup_GetSchemaVersion request' = base.Lookup_SchemaVersion md)
    /\ (base.Lookup_SnapToken md <> "" -> base.Lookup_SchemaVersion md <> "" ->
        request' = request)
    /\ base.Lookup_GetDepth request' = base.Lookup_Depth md
    /\ base.Lookup_TenantId request' = base.Lookup_TenantId request
    /\ base.Lookup_EntityType request' = base.Lookup_EntityType request
    /\ base.Lookup_Permission request' = base.Lookup_Permission request
    /\ base.Lookup_Subject request' = base.Lookup_Subject request
    /\ (forall schedule,
          commands.Execute command request schedule
          = match commands.run (commands.Execute_step command request') schedule
                    (commands.start, commands.Collecting []) with
            | Some (_, commands.Returned ids) => Some (commands.Returns (Ok ids))
            | Some (_, commands.Collecting _) => Some commands.Running
            | None => None
            end)
    /\ (forall server schedule,
          commands.Stream command server request schedule
          = match commands.run (commands.Stream_step command server request') schedule
                    (commands.start, commands.Streaming []) with
            | Some (_, commands.StreamReturned sent err) =>
                Some (commands.Returns (sent, err))
            | Some (_, commands.Streaming _) => Some commands.Running
            | None => None
            end)
    /\ (forall id,
          base.Check_GetSnapToken (commands.check_request request' id)
          = base.Lookup_GetSnapToken request'
          /\ base.Check_GetSchemaVersion (commands.check_request request' id)
             = base.Lookup_GetSchemaVersion request').
Proof.
  intros Hmd Hsnap Hver.
  assert (Hstep1 : exists r1,
             commands.default_SnapToken command request = commands.Proceed r1
             /\ (if String.eqb (base.Lookup_SnapToken md) ""
                 then exists st,
                     commands.relationshipReader_HeadSnapshot command
                       (base.Lookup_TenantId request) = Ok st
                     /\ base.Lookup_GetSnapToken r1 = commands.Encode_String st
                 else r1 = request)
             /\ base.Lookup_GetSchemaVersion r1 = base.Lookup_SchemaVersion md
             /\ base.Lookup_GetDepth r1 = base.Lookup_Depth md
             /\ base.Lookup_TenantId r1 = base.Lookup_TenantId request
             /\ base.Lookup_EntityType r1 = base.Lookup_EntityType request
             /\ base.Lookup_Permission r1 = base.Lookup_Permission request
             /\ base.Lookup_Subject r1 = base.Lookup_Subject request
             /\ is_Some (base.Lookup_Metadata r1)).
  { unfold commands.default_SnapToken, base.Lookup_GetSnapToken at 1. rewrite Hmd.
    destruct (String.eqb_spec (base.Lookup_SnapToken md) "") as [Hempty|Hfull].
    - specialize (Hsnap Hempty).
      destruct (commands.relationshipReader_HeadSnapshot command
                  (base.Lookup_TenantId request)) as [st|]; [|discriminate].
      destruct (commands.set_SnapToken request (commands.Encode_String st))
        as [r1|] eqn:Hset.
      + destruct (set_SnapToken_fields _ _ _ Hset) as (? & Hv & Hd & ? & ? & ? & ? & ?).
        exists r1. unfold base.Lookup_GetSchemaVersion, base.Lookup_GetDepth in Hv, Hd.
        rewrite Hmd in Hv, Hd. repeat split; eauto.
      + unfold commands.set_SnapToken in Hset. rewrite Hmd in Hset. discriminate.
    - exists request.
      unfold base.Lookup_GetSchemaVersion, base.Lookup_GetDepth. rewrite Hmd.
      repeat split; eauto. }
  destruct Hstep1 as (r1 & Hr1 & Hs1 & Hv1 & Hd1 & Ht1 & He1 & Hp1 & Hsub1 & [m1 Hm1]).
  assert (Hstep2 : exists request',
             commands.default_SchemaVersion command r1 = commands.Proceed request'
             /\ (if String.eqb (base.Lookup_SchemaVersion md) ""
                 then commands.schemaReader_HeadVersion command
                        (base.Lookup_TenantId request)
                      = Ok (base.Lookup_GetSchemaVersion request')
                      /\ base.Lookup_GetSnapToken request' = base.Lookup_GetSnapToken r1
                 else request' = r1)
             /\ base.Lookup_GetDepth request' = base.Lookup_Depth md
             /\ base.Lookup_TenantId request' = base.Lookup_TenantId request
             /\ base.Lookup_EntityType request' = base.Lookup_EntityType request
             /\ base.Lookup_Permission request' = base.Lookup_Permission request
             /\ base.Lookup_Subject request' = base.Lookup_Subject request).
  { unfold commands.default_SchemaVersion. rewrite Hv1, Hm1, Ht1.
    destruct (String.eqb_spec (base.Lookup_SchemaVersion md) "") as [Hempty|Hfull].
    - specialize (Hver Hempty).
      destruct (commands.schemaReader_HeadVersion command
                  (base.Lookup_TenantId request)) as [v|]; [|discriminate].
      destruct (commands.set_SchemaVersion r1 v) as [r2|] eqn:Hset.
      + destruct (set_SchemaVersion_fields _ _ _ Hset)
          as (Hv2 & Hs2 & Hd2 & Ht2 & He2 & Hp2 & Hsub2).
        exists r2. rewrite Hv2, Hd2, Ht2, He2, Hp2, Hsub2. repeat split; eauto.
      + unfold commands.set_SchemaVersion in Hset. rewrite Hm1 in Hset. discriminate.
    - exists r1. repeat split; eauto. }
  destruct Hstep2 as (request' & Hr2 & Hs2 & Hd2 & Ht2 & He2 & Hp2 & Hsub2).
  assert (Hres : commands.resolve command request = commands.Proceed request').
  { unfold commands.resolve. now rewrite Hr1. }
  exists request'. split; [exact Hres|].
  split.
  { destruct (String.eqb (base.Lookup_SnapToken md) "") eqn:E1;
      destruct (String.eqb (base.Lookup_SchemaVersion md) "") eqn:E2.
    - destruct Hs1 as (st & Hst & Hg). destruct Hs2 as [_ Hk].
      exists st. split; [exact Hst|congruence].
    - destruct Hs1 as (st & Hst & Hg). subst request'. eauto.
    - destruct Hs2 as [_ Hk]. subst r1. rewrite Hk.
      unfold base.Lookup_GetSnapToken. now rewrite Hmd.
    - subst. unfold base.Lookup_GetSnapToken. now rewrite Hmd. }
  split.
  { destruct (String.eqb (base.Lookup_SchemaVersion md) "") eqn:E2.
    - apply Hs2.
    - subst request'. exact Hv1. }
  split.
  { intros Hn1 Hn2.
    apply String.eqb_neq in Hn1. apply String.eqb_neq in Hn2.
    rewrite Hn1 in Hs1. rewrite Hn2 in Hs2. congruence. }
  repeat (split; [assumption|]).
  split; [|split].
  - intros schedule. unfold commands.Execute. now rewrite Hres.
  - intros server schedule. unfold commands.Stream. now rewrite Hres.
  - intros id. split; reflexivity.
Qed.

Lemma lookup_entity_defaults_witness :
  commands.resolve sample.lookup_command (sample.lookup_request "" "v7")
  = commands.Proceed (sample.lookup_request "3" "v7").
Proof.
  destruct (lookup_entity_defaults sample.lookup_command (sample.lookup_request "" "v7")
              {| base.Lookup_SchemaVersion := "v7"; base.Lookup_SnapToken := "";
                 base.Lookup_Depth := 20 |})
    as (request' & Hres & _).
  - reflexivity.
  - intros _. reflexivity.
  - intros _. reflexivity.
  - rewrite Hres. vm_compute in Hres. injection Hres as <-. reflexivity.
Defined.


(* ================================================================== *)
(** * Facts: decimal row ids *)
(* ================================================================== *)

Lemma FormatUint_nonempty (v : N) : strconv.FormatUint v <> "".
Proof.
  unfold strconv.FormatUint.
  destruct (N.to_uint v) as [|d|d|d|d|d|d|d|d|d|d]; simpl; discriminate.
Qed.

Lemma N_to_uint_nonnil (v : N) : N.to_uint v <> Nil.
Proof.
  destruct v as [|p]; simpl; [discriminate|]. apply DecimalPos.Unsigned.to_uint_nonnil.
Qed.

Lemma ParseUint_FormatUint (v : N) :
  (v <= strconv.MaxUint64)%N -> strconv.ParseUint (strconv.FormatUint v) = Ok v.
Proof.
  intros Hv. unfold strconv.ParseUint, strconv.FormatUint.
  rewrite (NilZero.usu _ (N_to_uint_nonnil v)), DecimalN.Unsigned.of_to.
  apply N.leb_le in Hv. now rewrite Hv.
Qed.

(* ================================================================== *)
(** * Facts: rows by ascending id *)
(* ================================================================== *)

Lemma insert_by_ID_perm t l : Permutation (repositories.insert_by_ID t l) (t :: l).
Proof.
  induction l as [|x l IH]; simpl; [reflexivity|].
  destruct (repositories.ID t <? repositories.ID x)%N; [reflexivity|].
  rewrite IH. apply perm_swap.
Qed.

Lemma sort_by_ID_perm l : Permutation (repositories.sort_by_ID l) l.
Proof.
  induction l as [|x l IH]; simpl; [reflexivity|].
  rewrite insert_by_ID_perm. now constructor.
Qed.

Lemma insert_by_ID_sorted t l :
  StronglySorted repositories.ID_le l -> StronglySorted repositories.ID_le (repositories.insert_by_ID t l).
Proof.
  induction 1 as [|x l Hs IH Hx]; simpl.
  - repeat constructor.
  - destruct (repositories.ID t <? repositories.ID x)%N eqn:E.
    + apply N.ltb_lt in E. constructor; [now constructor|].
      constructor; [unfold repositories.ID_le; lia|].
      eapply List.Forall_impl; [|exact Hx]. unfold repositories.ID_le. intros a Ha. lia.
    + apply N.ltb_ge in E. constructor; [exact IH|].
      apply List.Forall_forall. intros y Hy.
      apply (Permutation_in _ (insert_by_ID_perm t l)) in Hy.
      destruct Hy as [<-|Hy]; [exact E|].
      rewrite List.Forall_forall in Hx. now apply Hx.
Qed.

Lemma sort_by_ID_sorted l : StronglySorted repositories.ID_le (repositories.sort_by_ID l).
Proof.
  induction l as [|x l IH]; simpl; [constructor|]. now apply insert_by_ID_sorted.
Qed.

Lemma insert_by_ID_head t l :
  Forall (repositories.ID_lt t) l -> repositories.insert_by_ID t l = t :: l.
Proof.
  destruct 1 as [|x l Hx _]; simpl; [reflexivity|].
  apply N.ltb_lt in Hx. now rewrite Hx.
Qed.

Lemma filter_insert_by_ID (f : repositories.RelationTuple -> bool) t l :
  StronglySorted repositories.ID_le l ->
  List.filter f (repositories.insert_by_ID t l)
  = if f t then repositories.insert_by_ID t (List.filter f l) else List.filter f l.
Proof.
  induction 1 as [|x l Hs IH Hx]; simpl.
  - now destruct (f t).
  - destruct (repositories.ID t <? repositories.ID x)%N eqn:E; simpl.
    + destruct (f t) eqn:Ft; [|reflexivity].
      symmetry. apply insert_by_ID_head.
      apply N.ltb_lt in E.
      assert (Hall : Forall (repositories.ID_lt t) (x :: l)).
      { constructor; [exact E|].
        eapply List.Forall_impl; [|exact Hx]. unfold repositories.ID_le, repositories.ID_lt. intros a Ha. lia. }
      change (Forall (repositories.ID_lt t) (List.filter f (x :: l))).
      apply List.Forall_forall. intros y Hy. apply filter_In in Hy.
      rewrite List.Forall_forall in Hall. now apply Hall.
    + rewrite IH. destruct (f x) eqn:Fx, (f t) eqn:Ft; simpl; try reflexivity.
      now rewrite E.
Qed.

Lemma filter_sort_by_ID (f : repositories.RelationTuple -> bool) l :
  List.filter f (repositories.sort_by_ID l) = repositories.sort_by_ID (List.filter f l).
Proof.
  induction l as [|x l IH]; simpl; [reflexivity|].
  rewrite filter_insert_by_ID by apply sort_by_ID_sorted.
  destruct (f x); simpl; now rewrite IH.
Qed.

Lemma filter_perm {A} (f : A -> bool) (l l' : list A) :
  Permutation l l' -> Permutation (List.filter f l) (List.filter f l').
Proof.
  induction 1 as [|x l l' _ IH|x y l|l l' l'' _ IH1 _ IH2]; simpl.
  - reflexivity.
  - destruct (f x); [now constructor|exact IH].
  - destruct (f x), (f y); try reflexivity. apply perm_swap.
  - now transitivity (List.filter f l').
Qed.

Lemma filter_sorted {A} (R : A -> A -> Prop) (f : A -> bool) (l : list A) :
  StronglySorted R l -> StronglySorted R (List.filter f l).
Proof.
  induction 1 as [|x l Hs IH Hx]; simpl; [constructor|].
  destruct (f x); [|exact IH]. constructor; [exact IH|].
  apply List.Forall_forall. intros y Hy. apply filter_In in Hy.
  rewrite List.Forall_forall in Hx. now apply Hx.
Qed.

Lemma filter_filter_implied {A} (f g : A -> bool) (l : list A) :
  (forall x, g x = true -> f x = true) ->
  List.filter g (List.filter f l) = List.filter g l.
Proof.
  intros Himp. induction l as [|x l IH]; simpl; [reflexivity|].
  destruct (f x) eqn:Fx; simpl; rewrite IH; [reflexivity|].
  destruct (g x) eqn:Gx; [|reflexivity]. rewrite (Himp x Gx) in Fx. discriminate.
Qed.

(** In a list strictly ascending by id, the rows at or above the id of the
    [n]-th row are the rows from position [n] on. *)
Lemma filter_from_nth (l : list repositories.RelationTuple) (n : nat)
  (next : repositories.RelationTuple) :
  StronglySorted repositories.ID_lt l -> nth_error l n = Some next ->
  List.filter (repositories.at_least (repositories.ID next)) l = skipn n l.
Proof.
  intros Hs. revert n. induction Hs as [|x l Hs IH Hx]; intros n Hn.
  - destruct n; discriminate.
  - destruct n as [|n]; simpl in Hn |- *.
    + injection Hn as ->. unfold repositories.at_least at 1. rewrite N.leb_refl. f_equal.
      apply forallb_filter_id. apply forallb_forall. intros y Hy.
      rewrite List.Forall_forall in Hx. specialize (Hx y Hy).
      unfold repositories.at_least, repositories.ID_lt in *. apply N.leb_le. lia.
    + assert (Hlt : repositories.ID_lt x next).
      { rewrite List.Forall_forall in Hx. apply Hx. eapply nth_error_In; eauto. }
      unfold repositories.at_least at 1. unfold repositories.ID_lt in Hlt.
      replace (repositories.ID next <=? repositories.ID x)%N with false
        by (symmetry; apply N.leb_gt; exact Hlt).
      now apply IH.
Qed.

Lemma sorted_le_nodup_lt (l : list repositories.RelationTuple) :
  StronglySorted repositories.ID_le l -> List.NoDup (map repositories.ID l) -> StronglySorted repositories.ID_lt l.
Proof.
  induction 1 as [|x l Hs IH Hx]; intros Hnd; [constructor|].
  simpl in Hnd. inversion Hnd as [|? ? Hnotin Hnd']; subst.
  constructor; [now apply IH|].
  apply List.Forall_forall. intros y Hy. rewrite List.Forall_forall in Hx.
  specialize (Hx y Hy). unfold repositories.ID_le, repositories.ID_lt in *.
  assert (repositories.ID x <> repositories.ID y).
  { intros Heq. apply Hnotin. rewrite Heq. now apply in_map. }
  lia.
Qed.


(* ================================================================== *)
(** * Facts: both readers compute the specification's page *)
(* ================================================================== *)

Lemma pageSize_ltb (pageSize : N) (k : nat) :
  (pageSize <? N.of_nat k)%N = (N.to_nat pageSize <? k).
Proof.
  destruct (N.ltb_spec pageSize (N.of_nat k)), (Nat.ltb_spec (N.to_nat pageSize) k);
    try reflexivity; lia.
Qed.

Lemma page_loop_page `{Base64} (pageSize bound : N)
  (tup acc : list repositories.RelationTuple) :
  length acc <= N.to_nat pageSize ->
  memory.page_loop pageSize bound tup (map repositories.ToTuple acc)
  = paging.page (N.to_nat pageSize)
      (acc ++ List.filter (repositories.at_least bound) tup).
Proof.
  revert acc. induction tup as [|t tup IH]; intros acc Hacc; simpl.
  - rewrite app_nil_r. unfold paging.page, paging.continuous_token.
    rewrite firstn_all2 by exact Hacc.
    replace (nth_error acc (N.to_nat pageSize)) with (@None repositories.RelationTuple)
      by (symmetry; now apply nth_error_None).
    reflexivity.
  - unfold repositories.at_least at 1.
    destruct (bound <=? repositories.ID t)%N; [|now apply IH].
    rewrite length_app, length_map, pageSize_ltb. simpl.
    destruct (Nat.ltb_spec (N.to_nat pageSize) (length acc + 1)) as [Hfull|Hroom].
    + assert (Hlen : length acc = N.to_nat pageSize) by lia.
      unfold paging.page, paging.continuous_token.
      rewrite !firstn_app, length_map, nth_error_app2 by lia.
      replace (N.to_nat pageSize - length acc) with 0 by lia.
      rewrite !firstn_O, !app_nil_r.
      rewrite !firstn_all2 by (rewrite ?length_map; lia).
      reflexivity.
    + replace (map repositories.ToTuple acc ++ [repositories.ToTuple t])
        with (map repositories.ToTuple (acc ++ [t])) by now rewrite map_app.
      rewrite IH by (rewrite length_app; simpl; lia).
      now rewrite <- app_assoc.
Qed.

Lemma read_loop_rows (rows acc : list repositories.RelationTuple) :
  memory.read_loop (map memory.RelationTupleObject rows) acc = Some (acc ++ rows).
Proof.
  revert acc. induction rows as [|t rows IH]; intros acc; simpl.
  - now rewrite app_nil_r.
  - rewrite IH, <- app_assoc. reflexivity.
Qed.

Lemma lower_bound_of_decoded `{Base64} (pagination : database.Pagination) (bound : N) :
  utils.decoded_bound pagination = Ok bound ->
  memory.lower_bound_of pagination = inl bound.
Proof.
  unfold utils.decoded_bound, memory.lower_bound_of.
  destruct (String.eqb (database.Token pagination) ""); [now intros [= <-]|].
  destruct (utils.EncodedContinuousToken_Decode (database.Token pagination));
    [|discriminate].
  intros ->. reflexivity.
Qed.

Lemma memory_ReadRelationships_page `{Base64} index filterQuery lowerBound db tenantID
  filter snap pagination bound objs matching :
  utils.decoded_bound pagination = Ok bound ->
  lowerBound db (fst (index tenantID filter)) (snd (index tenantID filter)) = Ok objs ->
  memory.NewFilterIterator objs (filterQuery filter)
  = map memory.RelationTupleObject matching ->
  memory.ReadRelationships index filterQuery lowerBound db tenantID filter snap pagination
  = paging.page (N.to_nat (database.PageSize pagination))
      (paging.eligible bound matching).
Proof.
  intros Hbound Hscan Hkept. unfold memory.ReadRelationships.
  rewrite (lower_bound_of_decoded _ _ Hbound).
  destruct (index tenantID filter) as [ix args]. simpl in Hscan.
  rewrite Hscan, Hkept, read_loop_rows. simpl.
  apply (page_loop_page _ _ _ []). simpl. lia.
Qed.

Lemma last_cons {A} (l : list A) (x d : A) : List.last (x :: l) d = List.last l x.
Proof.
  revert x d. induction l as [|y l IH]; intros x d; [reflexivity|].
  change (List.last (x :: y :: l) d) with (List.last (y :: l) d).
  now rewrite !IH.
Qed.

Lemma read_scan_loop_healthy (db : postgres.Postgres)
  (rows : list repositories.RelationTuple) (i : nat) (lastID : N)
  (tuples : list base.Tuple) :
  (forall j, postgres.Scan db j = None) ->
  postgres.read_scan_loop db rows i lastID tuples
  = Ok (List.last (map repositories.ID rows) lastID,
        tuples ++ map repositories.ToTuple rows).
Proof.
  intros Hscan. revert i lastID tuples.
  induction rows as [|t rows IH]; intros i lastID tuples.
  - simpl. now rewrite app_nil_r.
  - cbn [postgres.read_scan_loop]. rewrite Hscan, IH, <- app_assoc.
    f_equal. f_equal. cbn [map]. now rewrite last_cons.
Qed.

Lemma last_firstn_S {A} (l : list A) (n : nat) (x d : A) :
  nth_error l n = Some x -> List.last (firstn (S n) l) d = x.
Proof.
  revert n. induction l as [|y l IH]; intros n Hn; [destruct n; discriminate|].
  destruct n as [|n]; simpl in Hn.
  - now injection Hn as ->.
  - specialize (IH n Hn). cbn [firstn]. 
    destruct l as [|z l]; [destruct n; discriminate|].
    cbn [firstn] in IH |- *. exact IH.
Qed.

Lemma filter_at_least_0 (l : list repositories.RelationTuple) :
  List.filter (repositories.at_least 0) l = l.
Proof.
  apply forallb_filter_id, forallb_forall. intros x _. apply N.leb_le. lia.
Qed.

Lemma filter_map_columns (f : repositories.RelationTuple -> bool)
  (table : list postgres.Row) :
  List.filter f (map postgres.columns table)
  = map postgres.columns (List.filter (fun r => f (postgres.columns r)) table).
Proof.
  induction table as [|r table IH]; simpl; [reflexivity|].
  destruct (f (postgres.columns r)); simpl; now rewrite IH.
Qed.

Lemma filter_andb {A} (f g : A -> bool) (l : list A) :
  List.filter (fun x => f x && g x) l = List.filter g (List.filter f l).
Proof.
  induction l as [|x l IH]; simpl; [reflexivity|].
  destruct (f x); simpl; [destruct (g x)|]; now rewrite IH.
Qed.

Lemma page_of_limited `{Base64} (n : nat) (el : list repositories.RelationTuple) :
  let rows := firstn (S n) el in
  (if n <? length (map repositories.ToTuple rows)
   then (Some (firstn n (map repositories.ToTuple rows)),
         Some (utils.NewContinuousToken_Encode
                 (strconv.FormatUint (List.last (map repositories.ID rows) 0%N))),
         None)
   else (Some (map repositories.ToTuple rows),
         Some utils.NewNoopContinuousToken_Encode, None))
  = paging.page n el.
Proof.
  intros rows. unfold paging.page, paging.continuous_token.
  rewrite length_map. subst rows. rewrite length_firstn.
  destruct (Nat.ltb_spec n (Nat.min (S n) (length el))) as [Hmore|Hall].
  - assert (Hlen : n < length el) by lia.
    destruct (nth_error el n) as [next|] eqn:Hnth;
      [|apply nth_error_None in Hnth; lia].
    rewrite firstn_map, firstn_firstn, Nat.min_l by lia.
    rewrite <- (firstn_map repositories.ID),
      (last_firstn_S _ _ (repositories.ID next)); [reflexivity|].
    now rewrite nth_error_map, Hnth.
  - assert (Hlen : length el <= n) by lia.
    rewrite !firstn_all2 by lia.
    replace (nth_error el n) with (@None repositories.RelationTuple)
      by (symmetry; now apply nth_error_None).
    reflexivity.
Qed.

Lemma postgres_ReadRelationships_page `{Base64} decode filterQuery snapshotQuery db
  tenantID filter snap pagination st bound :
  decode snap = Ok st ->
  utils.decoded_bound pagination = Ok bound ->
  (database.PageSize pagination + 1 < 2 ^ 32)%N ->
  postgres.BeginTx db = None -> postgres.ToSql db = None ->
  postgres.QueryContext db = None -> (forall i, postgres.Scan db i = None) ->
  postgres.rows_Err db = None -> postgres.Commit db = None ->
  postgres.ReadRelationships decode filterQuery snapshotQuery db tenantID filter snap
    pagination
  = paging.page (N.to_nat (database.PageSize pagination))
      (paging.eligible bound
         (map postgres.columns
            (List.filter
               (fun r => String.eqb (postgres.tenant_id r) tenantID
                         && filterQuery filter (postgres.columns r)
                         && snapshotQuery st r)
               (postgres.relation_tuples db)))).
Proof.
  intros Hsnap Hbound Hsize Hb Hs Hq Hscan Hr Hc.
  unfold postgres.ReadRelationships. rewrite Hsnap, Hb.
  set (conds := fun r => String.eqb (postgres.tenant_id r) tenantID
                         && filterQuery filter (postgres.columns r)
                         && snapshotQuery st r).
  assert (Hlimit : N.to_nat (postgres.limit_of pagination)
                   = S (N.to_nat (database.PageSize pagination))).
  { unfold postgres.limit_of. rewrite N.mod_small by exact Hsize. lia. }
  assert (Hbase : forall r,
             postgres.satisfies (postgres.base_builder filterQuery snapshotQuery
                                   tenantID filter st) r = conds r).
  { intros r. unfold postgres.satisfies, conds. simpl.
    now rewrite andb_true_r, andb_assoc. }
  assert (Hrows : exists builder,
             postgres.with_token
               (postgres.base_builder filterQuery snapshotQuery tenantID filter st)
               pagination = inl builder
             /\ postgres.run
                  (postgres.set_Limit (postgres.set_OrderBy_id builder)
                     (postgres.limit_of pagination))
                  (postgres.relation_tuples db)
                = firstn (S (N.to_nat (database.PageSize pagination)))
                    (paging.eligible bound
                       (map postgres.columns
                          (List.filter conds (postgres.relation_tuples db))))).
  { unfold postgres.with_token, utils.decoded_bound in *.
    unfold paging.eligible. rewrite filter_sort_by_ID.
    destruct (String.eqb (database.Token pagination) "").
    - injection Hbound as <-. eexists. split; [reflexivity|].
      unfold postgres.run. cbn [postgres.Limit postgres.OrderBy_id postgres.set_Limit
                                  postgres.set_OrderBy_id].
      rewrite Hlimit, filter_at_least_0. do 3 f_equal.
      apply filter_ext. exact Hbase.
    - destruct (utils.EncodedContinuousToken_Decode (database.Token pagination))
        as [t|]; [|discriminate].
      rewrite Hbound. eexists. split; [reflexivity|].
      unfold postgres.run. cbn [postgres.Limit postgres.OrderBy_id postgres.set_Limit
                                  postgres.set_OrderBy_id].
      rewrite Hlimit, filter_map_columns, <- filter_andb. do 3 f_equal.
      apply filter_ext. intros r.
      unfold postgres.satisfies, conds, repositories.at_least. simpl.
      destruct (String.eqb (postgres.tenant_id r) tenantID),
        (filterQuery filter (postgres.columns r)), (snapshotQuery st r);
        simpl; try reflexivity.
      now rewrite andb_true_r. }
  destruct Hrows as (builder & -> & ->).
  rewrite Hs, Hq, (read_scan_loop_healthy _ _ _ _ _ Hscan), Hr, Hc.
  rewrite app_nil_l, pageSize_ltb.
  apply page_of_limited.
Qed.




Lemma eligible_perm (bound : N) (matching : list repositories.RelationTuple) :
  Permutation (paging.eligible bound matching)
    (List.filter (repositories.at_least bound) matching).
Proof. apply filter_perm, sort_by_ID_perm. Qed.

Lemma eligible_sorted (bound : N) (matching : list repositories.RelationTuple) :
  StronglySorted repositories.ID_le (paging.eligible bound matching).
Proof. apply filter_sorted, sort_by_ID_sorted. Qed.

Lemma continuous_token_present `{Base64} (n : nat)
  (rows : list repositories.RelationTuple) :
  paging.continuous_token n rows <> utils.NewNoopContinuousToken_Encode
  <-> n < length rows.
Proof.
  unfold paging.continuous_token.
  destruct (nth_error rows n) as [next|] eqn:Hnth.
  - split; [intros _; apply nth_error_Some; congruence|].
    intros _ Heq. injection Heq.
    apply EncodeToString_nonempty, FormatUint_nonempty.
  - apply nth_error_None in Hnth. split; [congruence|lia].
Qed.

Lemma decoded_bound_of_token `{Base64} (pageSize v : N) :
  (v <= strconv.MaxUint64)%N ->
  utils.decoded_bound
    {| database.PageSize := pageSize;
       database.Token :=
         database.Value (utils.NewContinuousToken_Encode (strconv.FormatUint v)) |}
  = Ok v.
Proof.
  intros Hv. unfold utils.decoded_bound, utils.EncodedContinuousToken_Decode. simpl.
  destruct (String.eqb_spec (EncodeToString (strconv.FormatUint v)) "") as [Hempty|_].
  - exfalso. revert Hempty. apply EncodeToString_nonempty, FormatUint_nonempty.
  - rewrite DecodeString_EncodeToString. now apply ParseUint_FormatUint.
Qed.

(** Resuming at the id of the first unreturned row skips exactly the rows
    already returned, when row ids are distinct. *)
Lemma eligible_resumed (bound : N) (matching : list repositories.RelationTuple)
  (n : nat) (next : repositories.RelationTuple) :
  List.NoDup (map repositories.ID matching) ->
  nth_error (paging.eligible bound matching) n = Some next ->
  paging.eligible (repositories.ID next) matching
  = skipn n (paging.eligible bound matching).
Proof.
  intros Hnodup Hnth.
  assert (Hstrict : StronglySorted repositories.ID_lt (paging.eligible bound matching)).
  { apply filter_sorted, sorted_le_nodup_lt; [apply sort_by_ID_sorted|].
    eapply Permutation_NoDup; [|exact Hnodup].
    apply Permutation_map. symmetry. apply sort_by_ID_perm. }
  rewrite <- (filter_from_nth _ _ _ Hstrict Hnth).
  unfold paging.eligible. symmetry. apply filter_filter_implied.
  intros r Hr.
  assert (Hb : repositories.at_least bound next = true).
  { apply nth_error_In in Hnth. unfold paging.eligible in Hnth.
    now apply filter_In in Hnth. }
  unfold repositories.at_least in *.
  apply N.leb_le in Hr, Hb. apply N.leb_le. lia.
Qed.

(** A reader that computes the specification's page for every token
    paging.paginates as the claim says. *)
Lemma page_paginates `{Base64} (read : database.Pagination -> database.ReadResult)
  (matching : list repositories.RelationTuple) (pagination : database.Pagination)
  (bound : N) :
  (forall p b,
      database.PageSize p = database.PageSize pagination ->
      utils.decoded_bound p = Ok b ->
      read p = paging.page (N.to_nat (database.PageSize pagination))
                 (paging.eligible b matching)) ->
  utils.decoded_bound pagination = Ok bound ->
  paging.paginates read matching pagination bound.
Proof.
  intros Hread Hbound. unfold paging.paginates.
  split; [now apply Hread|].
  split; [apply firstn_le_length|].
  split; [apply eligible_sorted|].
  split; [apply eligible_perm|].
  split.
  { rewrite continuous_token_present.
    now rewrite (Permutation_length (eligible_perm bound matching)). }
  intros next Hnth.
  assert (Hct : paging.continuous_token (N.to_nat (database.PageSize pagination))
                  (paging.eligible bound matching)
                = utils.NewContinuousToken_Encode
                    (strconv.FormatUint (repositories.ID next))).
  { unfold paging.continuous_token. now rewrite Hnth. }
  split; [exact Hct|]. intros Hmax. rewrite Hct.
  split; [now apply decoded_bound_of_token|].
  intros Hnodup. eexists.
  rewrite (Hread {| database.PageSize := database.PageSize pagination;
                    database.Token :=
                      database.Value
                        (utils.NewContinuousToken_Encode
                           (strconv.FormatUint (repositories.ID next))) |}
             (repositories.ID next) eq_refl (decoded_bound_of_token _ _ Hmax)).
  rewrite (eligible_resumed _ _ _ _ Hnodup Hnth). reflexivity.
Qed.

(** X14. For a pagination token that stands for [bound] (0 for the empty
    token) and page size [n], [ReadRelationships] of either back end
    returns the first [n] matching rows at or above the bound by ascending
    id, hence at most [n] tuples; its continuous token differs from the
    no-op token exactly when more than [n] matching rows are at or above
    the bound, and then encodes the id of the first row not returned, from
    which the same query resumed with that token continues.  In memory
    this needs the index scan to succeed and to yield relation tuples; on
    the relational back end a decodable snapshot, a driver without faults
    and a page size whose successor fits its uint32. *)
Theorem ReadRelationships_pagination `{Base64} (pagination : database.Pagination)
  (bound : N) :
  utils.decoded_bound pagination = Ok bound ->
  (forall index filterQuery lowerBound db tenantID filter snap objs matching,
      lowerBound db (fst (index tenantID filter)) (snd (index tenantID filter)) = Ok objs ->
      memory.NewFilterIterator objs (filterQuery filter)
      = map memory.RelationTupleObject matching ->
      paging.paginates
        (memory.ReadRelationships index filterQuery lowerBound db tenantID filter snap)
        matching pagination bound)
  /\ (forall decode filterQuery snapshotQuery db tenantID filter snap st,
      decode snap = Ok st ->
      (database.PageSize pagination + 1 < 2 ^ 32)%N ->
      postgres.BeginTx db = None -> postgres.ToSql db = None ->
      postgres.QueryContext db = None -> (forall i, postgres.Scan db i = None) ->
      postgres.rows_Err db = None -> postgres.Commit db = None ->
      paging.paginates
        (postgres.ReadRelationships decode filterQuery snapshotQuery db tenantID
           filter snap)
        (map postgres.columns
           (List.filter
              (fun r => String.eqb (postgres.tenant_id r) tenantID
                        && filterQuery filter (postgres.columns r)
                        && snapshotQuery st r)
              (postgres.relation_tuples db)))
        pagination bound).
Proof.
  intros Hbound. split.
  - intros index fq lowerBound db tenantID filter snap objs matching Hscan Hkept.
    apply page_paginates; [|exact Hbound].
    intros p b Hsize Hb. rewrite <- Hsize.
    now apply (memory_ReadRelationships_page _ _ _ _ _ _ _ _ _ objs).
  - intros decode fq sq db tenantID filter snap st Hsnap Hsize Hb Hs Hq Hscan Hr Hc.
    apply page_paginates; [|exact Hbound].
    intros p b Hp Hpb. rewrite <- Hp.
    apply postgres_ReadRelationships_page; try assumption. now rewrite Hp.
Qed.

Lemma ReadRelationships_pagination_witness :
  memory.ReadRelationships sample.mem_index sample.mem_filter sample.mem_scan
    sample.mem_db "t1" sample.any_filter "3"
    {| database.PageSize := 2; database.Token := "" |}
  = (Some [ repositories.ToTuple (sample.row 1 "doc" "1" "owner" "user" "2");
            repositories.ToTuple (sample.row 2 "doc" "2" "owner" "user" "1") ],
     Some (utils.NewContinuousToken_Encode "3"), None)
  /\ postgres.ReadRelationships sample.pg_snapshot_Decode sample.pg_filter
       sample.pg_SnapshotQuery sample.pg_db "t1" sample.any_filter "3"
       {| database.PageSize := 2;
          database.Token := database.Value (utils.NewContinuousToken_Encode "3") |}
     = (Some [ repositories.ToTuple (sample.row 3 "doc" "3" "owner" "user" "1") ],
        Some utils.NewNoopContinuousToken_Encode, None).
Proof.
  split.
  - refine (proj1 (proj1 (ReadRelationships_pagination
                            {| database.PageSize := 2; database.Token := "" |} 0%N _)
                     sample.mem_index sample.mem_filter sample.mem_scan sample.mem_db
                     "t1" sample.any_filter "3"
                     (map memory.RelationTupleObject sample.rows) sample.rows _ _));
      vm_compute; reflexivity.
  - refine (proj1 (proj2 (ReadRelationships_pagination
                            {| database.PageSize := 2;
                               database.Token :=
                                 database.Value (utils.NewContinuousToken_Encode "3") |}
                            3%N _)
                     sample.pg_snapshot_Decode sample.pg_filter sample.pg_SnapshotQuery
                     sample.pg_db "t1" sample.any_filter "3" 3%N _ _ _ _ _ _ _ _));
      try (intros; vm_compute; reflexivity).
Defined.


(** C4 fails on the relational back end at the greatest page size.  The
    limit of the query is [uint64(pagination.PageSize() + 1)] with the sum
    taken in [uint32], which is 0 for the page size 4294967295: with a
    decodable snapshot and a driver without faults the reader then returns
    an empty page and the no-op continuous token, whatever rows match.  On
    the sample store three rows match and none is returned, while the
    in-memory reader returns the three with the no-op token. *)
Theorem ReadRelationships_greatest_page_size_returns_nothing :
  let pagination := {| database.PageSize := 4294967295; database.Token := "" |} in
  postgres.limit_of pagination = 0%N
  /\ (forall (codec : Base64) decode filterQuery snapshotQuery db tenantID filter snap st,
        decode snap = Ok st ->
        postgres.BeginTx db = None -> postgres.ToSql db = None ->
        postgres.QueryContext db = None ->
        postgres.rows_Err db = None -> postgres.Commit db = None ->
        postgres.ReadRelationships decode filterQuery snapshotQuery db tenantID filter
          snap pagination
        = (Some [], Some utils.NewNoopContinuousToken_Encode, None))
  /\ postgres.QueryRelationships sample.pg_snapshot_Decode sample.pg_filter
       sample.pg_SnapshotQuery sample.pg_db "t1" sample.any_filter "3"
     = Ok (map repositories.ToTuple sample.rows)
  /\ postgres.ReadRelationships sample.pg_snapshot_Decode sample.pg_filter
       sample.pg_SnapshotQuery sample.pg_db "t1" sample.any_filter "3" pagination
     = (Some [], Some utils.NewNoopContinuousToken_Encode, None)
  /\ memory.ReadRelationships sample.mem_index sample.mem_filter sample.mem_scan
       sample.mem_db "t1" sample.any_filter "3" pagination
     = (Some (map repositories.ToTuple (repositories.sort_by_ID sample.rows)),
        Some utils.NewNoopContinuousToken_Encode, None).
Proof.
  intros pagination.
  assert (Hlimit : postgres.limit_of pagination = 0%N) by reflexivity.
  assert (Hgeneral : forall (codec : Base64) decode filterQuery snapshotQuery db
                            tenantID filter snap st,
             decode snap = Ok st ->
             postgres.BeginTx db = None -> postgres.ToSql db = None ->
             postgres.QueryContext db = None ->
             postgres.rows_Err db = None -> postgres.Commit db = None ->
             postgres.ReadRelationships decode filterQuery snapshotQuery db tenantID
               filter snap pagination
             = (Some [], Some utils.NewNoopContinuousToken_Encode, None)).
  { intros codec decode fq sq db tenantID filter snap st Hsnap Hb Hs Hq Hr Hc.
    unfold postgres.ReadRelationships. rewrite Hsnap, Hb.
    unfold postgres.with_token. cbn [database.Token pagination String.eqb].
    rewrite Hs, Hq.
    unfold postgres.run.
    cbn [postgres.Limit postgres.set_Limit postgres.OrderBy_id postgres.set_OrderBy_id].
    rewrite Hlimit. cbn [N.to_nat firstn postgres.read_scan_loop].
    now rewrite Hr, Hc. }
  split; [exact Hlimit|]. split; [exact Hgeneral|].
  split; [vm_compute; reflexivity|]. split.
  - now apply Hgeneral with (st := 3%N).
  - vm_compute. reflexivity.
Qed.


(* ================================================================== *)
(** * Facts: the goroutines of a lookup *)
(* ================================================================== *)

Lemma calling_app (ws1 ws2 : list commands.worker) :
  commands.calling (ws1 ++ ws2) = commands.calling ws1 ++ commands.calling ws2.
Proof. apply flat_map_app. Qed.

Lemma sending_app (ws1 ws2 : list commands.worker) :
  commands.sending (ws1 ++ ws2) = commands.sending ws1 ++ commands.sending ws2.
Proof. apply flat_map_app. Qed.

Lemma calling_Calling (id : string) (ws : list commands.worker) :
  commands.calling (commands.Calling id :: ws) = id :: commands.calling ws.
Proof. reflexivity. Qed.

Lemma calling_Sending (id : string) (ws : list commands.worker) :
  commands.calling (commands.Sending id :: ws) = commands.calling ws.
Proof. reflexivity. Qed.

Lemma sending_Calling (id : string) (ws : list commands.worker) :
  commands.sending (commands.Calling id :: ws) = commands.sending ws.
Proof. reflexivity. Qed.

Lemma sending_Sending (id : string) (ws : list commands.worker) :
  commands.sending (commands.Sending id :: ws) = id :: commands.sending ws.
Proof. reflexivity. Qed.

Lemma calling_nil : commands.calling [] = [].
Proof. reflexivity. Qed.

Lemma sending_nil : commands.sending [] = [].
Proof. reflexivity. Qed.

Create Rewrite HintDb workers.
#[global] Hint Rewrite calling_app sending_app calling_Calling calling_Sending
  sending_Calling sending_Sending calling_nil sending_nil
  @length_app @length_cons @length_nil : workers.

Ltac fields :=
  cbn [commands.chk commands.workers commands.g_err commands.resultChan
       commands.todo commands.phase fst snd] in *.

(** A worker at position [i] splits the list of workers around it. *)
Lemma worker_at (ws : list commands.worker) (i : nat) (w : commands.worker) :
  ws !! i = Some w ->
  exists before after,
    ws = before ++ w :: after
    /\ delete i ws = before ++ after
    /\ forall w', <[i := w']> ws = before ++ w' :: after.
Proof.
  intros Hi. exists (take i ws), (drop (S i) ws). split; [|split].
  - symmetry. now apply take_drop_middle.
  - apply delete_take_drop.
  - intros w'. apply insert_take_drop. eapply lookup_lt_Some; eauto.
Qed.

Ltac split_workers H :=
  let before := fresh "before" in
  let after := fresh "after" in
  let Hws := fresh "Hws" in
  let Hdel := fresh "Hdel" in
  let Hins := fresh "Hins" in
  destruct (worker_at _ _ _ H) as (before & after & Hws & Hdel & Hins);
  rewrite ?Hdel, ?Hins; clear Hdel Hins H;
  match type of Hws with ?ws = _ => subst ws end.

Lemma step_checker_weight command request (r r' : commands.routines) :
  commands.step_checker command request r = Some r' ->
  commands.weight command request r' < commands.weight command request r.
Proof.
  unfold commands.step_checker, commands.weight.
  destruct r as [c ws ge ch]; fields.
  destruct c as [|err ids|ids| | |]; try discriminate; fields.
  - destruct (commands.relationshipReader_GetUniqueEntityIDsByEntityType _ _ _ _);
      intros [= <-]; fields; autorewrite with workers; lia.
  - destruct ids as [|id ids].
    + intros [= <-]. fields. autorewrite with workers. lia.
    + destruct (length ws <? commands.errgroup_limit); [|discriminate].
      intros [= <-]. fields. autorewrite with workers. lia.
  - destruct ws; [|discriminate].
    destruct ge; intros [= <-]; fields; autorewrite with workers; lia.
Qed.

Lemma step_worker_weight command request (i : nat) (r r' : commands.routines) :
  commands.step_worker command request i r = Some r' ->
  commands.weight command request r' < commands.weight command request r.
Proof.
  unfold commands.step_worker, commands.weight.
  destruct r as [c ws ge ch]; fields.
  destruct (ws !! i) as [[id|id]|] eqn:Hi; [| |discriminate].
  - split_workers Hi.
    destruct (commands.checkCommand_Execute command _) as [res|err].
    + destruct (commands.is_allowed res); intros [= <-]; fields;
        autorewrite with workers; lia.
    + intros [= <-]. fields. autorewrite with workers. lia.
  - split_workers Hi.
    destruct (length ch <? commands.resultChan_capacity); [|discriminate].
    intros [= <-]. fields. autorewrite with workers. lia.
Qed.

Lemma Execute_step_weight command request (a : commands.action)
  (s s' : commands.routines * commands.execute_main) :
  commands.Execute_step command request a s = Some s' ->
  commands.Execute_weight command request s' < commands.Execute_weight command request s.
Proof.
  destruct s as [r m]. unfold commands.Execute_step, commands.Execute_weight.
  destruct a as [|i| |]; fields.
  - destruct (commands.step_checker command request r) as [r'|] eqn:Hstep;
      [|discriminate].
    intros [= <-]. apply step_checker_weight in Hstep. fields. lia.
  - destruct (commands.step_worker command request i r) as [r'|] eqn:Hstep;
      [|discriminate].
    intros [= <-]. apply step_worker_weight in Hstep. fields. lia.
  - destruct m as [ids|ids]; [|discriminate].
    destruct r as [c ws ge ch]. fields.
    destruct ch as [|x ch].
    + destruct (commands.closed _); [|discriminate].
      intros [= <-]. fields. lia.
    + intros [= <-]. unfold commands.weight. fields. autorewrite with workers. lia.
  - discriminate.
Qed.

Lemma Stream_step_weight command server request (a : commands.action)
  (s s' : commands.routines * commands.stream_main) :
  commands.Stream_step command server request a s = Some s' ->
  commands.Stream_weight command request s' < commands.Stream_weight command request s.
Proof.
  destruct s as [r m]. unfold commands.Stream_step, commands.Stream_weight.
  destruct a as [|i| |]; fields.
  - destruct (commands.step_checker command request r) as [r'|] eqn:Hstep;
      [|discriminate].
    intros [= <-]. apply step_checker_weight in Hstep. fields. lia.
  - destruct (commands.step_worker command request i r) as [r'|] eqn:Hstep;
      [|discriminate].
    intros [= <-]. apply step_worker_weight in Hstep. fields. lia.
  - destruct m as [sent|sent err]; [|discriminate].
    destruct r as [c ws ge ch]. fields.
    destruct ch as [|x ch].
    + destruct (commands.closed _); [|discriminate].
      intros [= <-]. fields. lia.
    + destruct (commands.Send server sent x); intros [= <-];
        unfold commands.weight; fields; autorewrite with workers; lia.
  - destruct m as [sent|sent err]; [|discriminate].
    destruct r as [c ws ge ch]. fields.
    destruct c; try discriminate; intros [= <-]; unfold commands.weight; fields;
      autorewrite with workers; lia.
Qed.

(** Every schedule is shorter than the weight of the state it starts in. *)
Lemma run_length {S : Type} (step : commands.action -> S -> option S)
  (weight : S -> nat) :
  (forall a s s', step a s = Some s' -> weight s' < weight s) ->
  forall schedule s s',
    commands.run step schedule s = Some s' -> weight s' + length schedule <= weight s.
Proof.
  intros Hdec. induction schedule as [|a schedule IH]; intros s s' Hrun; simpl in *.
  - injection Hrun as <-. lia.
  - destruct (step a s) as [s1|] eqn:Hstep; [|discriminate].
    specialize (IH _ _ Hrun). specialize (Hdec _ _ _ Hstep). lia.
Qed.

Lemma run_app {S : Type} (step : commands.action -> S -> option S)
  (schedule1 schedule2 : list commands.action) (s : S) :
  commands.run step (schedule1 ++ schedule2) s
  = match commands.run step schedule1 s with
    | Some s' => commands.run step schedule2 s'
    | None => None
    end.
Proof.
  revert s. induction schedule1 as [|a schedule1 IH]; intros s; simpl; [reflexivity|].
  destruct (step a s); [apply IH|reflexivity].
Qed.

(** [Stream] makes at most as many moves as the initial weight. *)
Lemma Stream_schedules_bounded command server request schedule s :
  commands.run (commands.Stream_step command server request) schedule
    (commands.start, commands.Streaming []) = Some s ->
  length schedule
  <= commands.Stream_weight command request (commands.start, commands.Streaming []).
Proof.
  intros Hrun.
  pose proof (run_length _ (commands.Stream_weight command request)
                (Stream_step_weight command server request) _ _ _ Hrun).
  lia.
Qed.

(** An invariant of the moves holds after every schedule. *)
Lemma run_invariant {S : Type} (step : commands.action -> S -> option S)
  (inv : S -> Prop) :
  (forall a s s', inv s -> step a s = Some s' -> inv s') ->
  forall schedule s s', inv s -> commands.run step schedule s = Some s' -> inv s'.
Proof.
  intros Hpres. induction schedule as [|a schedule IH]; intros s s' Hinv Hrun;
    simpl in Hrun.
  - now injection Hrun as <-.
  - destruct (step a s) as [s1|] eqn:Hstep; [|discriminate]. eauto.
Qed.


Section execute_succeeds.
Variable command : commands.LookupEntityCommand.
Variable request : base.PermissionLookupEntityRequest.
Variable ids : list string.

Hypothesis Hids :
  commands.relationshipReader_GetUniqueEntityIDsByEntityType command
    (base.Lookup_TenantId request) (base.Lookup_EntityType request)
    (base.Lookup_GetSnapToken request) = Ok ids.

Hypothesis Hchecks : forall id, In id ids ->
  is_Ok (commands.checkCommand_Execute command (commands.check_request request id)) = true.

Lemma Execute_invariant_start :
  commands.Execute_invariant command request ids
    (commands.start, commands.Collecting []).
Proof using Hids.
  unfold commands.Execute_invariant, commands.start. fields.
  rewrite Hids. autorewrite with workers. simpl.
  repeat split; try reflexivity.
  apply List.Forall_forall. auto.
Qed.

Lemma Execute_invariant_step (a : commands.action)
  (s s' : commands.routines * commands.execute_main) :
  commands.Execute_invariant command request ids s ->
  commands.Execute_step command request a s = Some s' ->
  commands.Execute_invariant command request ids s'.
Proof using Hids Hchecks.
  destruct s as [[c ws ge ch] m]. unfold commands.Execute_invariant. fields.
  intros (Hge & Hchk & Hperm & Hin & Hmain).
  unfold commands.Execute_step.
  destruct a as [|i| |]; [| | |discriminate].
  - (* parallelChecker *)
    unfold commands.step_checker. fields.
    destruct c as [|err todo|todo| | |]; try discriminate; fields.
    + rewrite Hids in *. intros [= <-]. fields.
      repeat split; auto. destruct m; [exact I|now destruct Hmain].
    + destruct todo as [|id todo].
      * intros [= <-]. fields.
        repeat split; auto. destruct m; [exact I|now destruct Hmain].
      * destruct (length ws <? commands.errgroup_limit); [|discriminate].
        intros [= <-]. fields. autorewrite with workers.
        rewrite <- !app_assoc. simpl.
        repeat split; auto. destruct m; [exact I|now destruct Hmain].
    + destruct ws; [|discriminate]. rewrite Hge. intros [= <-]. fields.
      repeat split; auto. destruct m; [exact I|now destruct Hmain].
  - (* a worker *)
    unfold commands.step_worker. fields.
    destruct (ws !! i) as [[id|id]|] eqn:Hi; [| |discriminate].
    + split_workers Hi. autorewrite with workers in *.
      assert (Hid : In id ids).
      { rewrite List.Forall_forall in Hin. apply Hin.
        rewrite <- !app_assoc. apply in_or_app. right. now left. }
      specialize (Hchecks id Hid).
      assert (Hallow : commands.check_allows command request id
                       = match commands.checkCommand_Execute command
                                 (commands.check_request request id) with
                         | Ok res => commands.is_allowed res
                         | Err _ => false
                         end) by reflexivity.
      destruct (commands.checkCommand_Execute command _) as [res|err];
        [|discriminate].
      assert (Hin' : List.Forall (fun id => In id ids)
                       ((commands.calling before ++ commands.calling after)
                        ++ commands.todo command request c)).
      { rewrite List.Forall_forall in *. intros x Hx. apply Hin.
        rewrite !in_app_iff in *. simpl. tauto. }
      rewrite <- !app_assoc in Hperm. rewrite !List.filter_app in Hperm.
      simpl in Hperm. rewrite Hallow in Hperm.
      destruct (commands.is_allowed res); intros [= <-]; fields;
        autorewrite with workers; (split; [exact Hge|]);
        (split; [destruct c; auto; destruct before; discriminate|]);
        (split; [|split; [exact Hin'|exact Hmain]]);
        rewrite <- !app_assoc, !List.filter_app;
        (etransitivity; [exact Hperm|]); solve_Permutation.
    + split_workers Hi. autorewrite with workers in *.
      destruct (length ch <? commands.resultChan_capacity); [|discriminate].
      intros [= <-]. fields. autorewrite with workers.
      split; [exact Hge|].
      split; [destruct c; auto; destruct before; discriminate|].
      split; [|split; [exact Hin|]].
      * etransitivity; [exact Hperm|]. solve_Permutation.
      * destruct m; [exact I|]. destruct Hmain as [-> _].
        destruct before; discriminate.
  - (* the caller receives *)
    destruct m as [got|got]; [|discriminate]. fields.
    destruct ch as [|x ch].
    + destruct (commands.closed _) eqn:Hclosed; [|discriminate].
      intros [= <-]. fields. repeat split; auto.
      unfold commands.closed in Hclosed. fields. now destruct c.
    + intros [= <-]. fields. repeat split; auto.
      etransitivity; [exact Hperm|]. simpl. solve_Permutation.
Qed.

(** Under the invariant, the ids [Execute] has returned are the allowed
    ones. *)
Lemma Execute_invariant_returned (r : commands.routines) (EntityIds : list string) :
  commands.Execute_invariant command request ids (r, commands.Returned EntityIds) ->
  Permutation EntityIds (List.filter (commands.check_allows command request) ids).
Proof.
  destruct r as [c ws ge ch]. unfold commands.Execute_invariant. fields.
  intros (_ & Hchk & Hperm & _ & -> & ->). subst ws. simpl in Hperm.
  rewrite app_nil_r in Hperm. now symmetry.
Qed.

(** Under the invariant, while [Execute] has not returned some goroutine
    can move. *)
Lemma Execute_invariant_progress (r : commands.routines) (got : list string) :
  commands.Execute_invariant command request ids (r, commands.Collecting got) ->
  exists a s', commands.Execute_step command request a (r, commands.Collecting got)
               = Some s'.
Proof.
  destruct r as [c ws ge ch]. unfold commands.Execute_invariant. fields.
  intros (Hge & Hchk & _).
  destruct ch as [|x ch]; [|exists commands.Receive; simpl; eauto].
  assert (Hworker : ws <> [] ->
            exists s', commands.Execute_step command request (commands.Worker 0)
                         ({| commands.chk := c; commands.workers := ws;
                             commands.g_err := ge; commands.resultChan := [] |},
                          commands.Collecting got) = Some s').
  { destruct ws as [|[id|id] ws]; [congruence| |]; intros _;
      unfold commands.Execute_step, commands.step_worker; simpl.
    - destruct (commands.checkCommand_Execute command _) as [res|err];
        [destruct (commands.is_allowed res)|]; simpl; eauto.
    - eauto. }
  destruct c as [|err todo|todo| | |]; try contradiction.
  - exists commands.Checker. unfold commands.Execute_step, commands.step_checker.
    fields. rewrite Hids. simpl. eauto.
  - destruct todo as [|id todo].
    + exists commands.Checker. simpl. eauto.
    + destruct (length ws <? commands.errgroup_limit) eqn:Hroom.
      * exists commands.Checker. unfold commands.Execute_step, commands.step_checker.
        fields. rewrite Hroom. simpl. eauto.
      * exists (commands.Worker 0). apply Hworker.
        intros ->. discriminate.
  - destruct ws as [|w ws].
    + exists commands.Checker. unfold commands.Execute_step, commands.step_checker.
      fields. rewrite Hge. simpl. eauto.
    + exists (commands.Worker 0). now apply Hworker.
  - exists commands.Receive. simpl. eauto.
Qed.

End execute_succeeds.


Lemma Execute_resolved command request request' schedule :
  commands.resolve command request = commands.Proceed request' ->
  commands.Execute command request schedule
  = match commands.run (commands.Execute_step command request') schedule
            (commands.start, commands.Collecting []) with
    | Some (_, commands.Returned EntityIds) => Some (commands.Returns (Ok EntityIds))
    | Some (_, commands.Collecting _) => Some commands.Running
    | None => None
    end.
Proof. intros Hres. unfold commands.Execute. now rewrite Hres. Qed.

(** From every state a schedule reaches while the reads succeed, some
    continuation makes [Execute] return. *)
Lemma Execute_completes command request ids :
  commands.relationshipReader_GetUniqueEntityIDsByEntityType command
    (base.Lookup_TenantId request) (base.Lookup_EntityType request)
    (base.Lookup_GetSnapToken request) = Ok ids ->
  (forall id, In id ids ->
     is_Ok (commands.checkCommand_Execute command (commands.check_request request id))
     = true) ->
  forall k s,
    commands.Execute_invariant command request ids s ->
    commands.Execute_weight command request s <= k ->
    exists rest r EntityIds,
      commands.run (commands.Execute_step command request) rest s
      = Some (r, commands.Returned EntityIds).
Proof.
  intros Hids Hchecks. induction k as [|k IH]; intros [r m] Hinv Hweight.
  - destruct m as [got|got].
    + unfold commands.Execute_weight in Hweight. simpl in Hweight. lia.
    + exists [], r, got. reflexivity.
  - destruct m as [got|got]; [|exists [], r, got; reflexivity].
    destruct (Execute_invariant_progress command request ids Hids r got Hinv)
      as (a & s' & Hstep).
    destruct (IH s') as (rest & r' & EntityIds & Hrun).
    + eapply Execute_invariant_step; eauto.
    + apply Execute_step_weight in Hstep. lia.
    + exists (a :: rest), r', EntityIds. cbn [commands.run]. now rewrite Hstep.
Qed.

(** Resolving the defaults changes the snapshot token and the schema
    version only. *)
Lemma resolve_fields command (request request' : base.PermissionLookupEntityRequest) :
  commands.resolve command request = commands.Proceed request' ->
  base.Lookup_TenantId request' = base.Lookup_TenantId request
  /\ base.Lookup_EntityType request' = base.Lookup_EntityType request
  /\ base.Lookup_Permission request' = base.Lookup_Permission request
  /\ base.Lookup_Subject request' = base.Lookup_Subject request
  /\ base.Lookup_GetDepth request' = base.Lookup_GetDepth request.
Proof.
  unfold commands.resolve.
  destruct (commands.default_SnapToken command request) as [r1| |] eqn:H1;
    try discriminate.
  intros H2.
  assert (Hr1 : base.Lookup_TenantId r1 = base.Lookup_TenantId request
                /\ base.Lookup_EntityType r1 = base.Lookup_EntityType request
                /\ base.Lookup_Permission r1 = base.Lookup_Permission request
                /\ base.Lookup_Subject r1 = base.Lookup_Subject request
                /\ base.Lookup_GetDepth r1 = base.Lookup_GetDepth request).
  { unfold commands.default_SnapToken in H1.
    destruct (String.eqb _ ""); [|injection H1 as <-; tauto].
    destruct (commands.relationshipReader_HeadSnapshot command _) as [st|];
      [|discriminate].
    destruct (commands.set_SnapToken request _) as [r|] eqn:Hset; [|discriminate].
    injection H1 as <-. apply set_SnapToken_fields in Hset. tauto. }
  destruct Hr1 as (Ht & He & Hp & Hsub & Hd).
  rewrite <- Ht, <- He, <- Hp, <- Hsub, <- Hd.
  unfold commands.default_SchemaVersion in H2.
  destruct (String.eqb _ ""); [|injection H2 as <-; tauto].
  destruct (base.Lookup_Metadata r1); [|discriminate].
  destruct (commands.schemaReader_HeadVersion command _) as [v|]; [|discriminate].
  destruct (commands.set_SchemaVersion r1 v) as [r|] eqn:Hset; [|discriminate].
  injection H2 as <-. apply set_SchemaVersion_fields in Hset. tauto.
Qed.

(** C1. For a lookup-entity request whose defaults resolve, whose id query
    (for the tenant and the entity type of the request, under the resolved
    snapshot) returns [ids] and whose checks of those ids all answer:
    whatever the interleaving of the goroutines, a response returned by
    the batched [Execute] lists exactly the ids of [ids] for which the
    check command, called with the tenant, the permission and the subject
    of the request, the entity of the requested type with that id, the
    resolved snapshot token and schema version, the depth of the request
    and no exclusion, answers [RESULT_ALLOWED]; an id whose check answers
    [RESULT_DENIED] is absent; every id is listed as often as the id query
    reports it, so once when the ids are unique, in an order that depends
    on the interleaving.  Every schedule is finite, a schedule after which
    [Execute] is still running can be extended, and some schedule makes
    [Execute] return. *)
Theorem Execute_returns_allowed_ids (command : commands.LookupEntityCommand)
  (request request' : base.PermissionLookupEntityRequest) (ids : list string) :
  let Check id :=
    commands.checkCommand_Execute command
      {| base.Check_TenantId := base.Lookup_TenantId request;
         base.Check_Metadata :=
           Some {| base.Check_SchemaVersion := base.Lookup_GetSchemaVersion request';
                   base.Check_SnapToken := base.Lookup_GetSnapToken request';
                   base.Check_Depth := base.Lookup_GetDepth request;
                   base.Check_Exclusion := false |};
         base.Check_Entity :=
           {| base.Entity_Type := base.Lookup_EntityType request;
              base.Entity_Id := id |};
         base.Check_Permission := base.Lookup_Permission request;
         base.Check_Subject := base.Lookup_Subject request |} in
  let allowed id :=
    match Check id with
    | Ok response =>
        match base.Can response with base.RESULT_ALLOWED => true | _ => false end
    | Err _ => false
    end in
  commands.resolve command request = commands.Proceed request' ->
  commands.relationshipReader_GetUniqueEntityIDsByEntityType command
    (base.Lookup_TenantId request) (base.Lookup_EntityType request)
    (base.Lookup_GetSnapToken request') = Ok ids ->
  (forall id, In id ids -> is_Ok (Check id) = true) ->
  (forall schedule out,
      commands.Execute command request schedule = Some (commands.Returns out) ->
      exists EntityIds,
        out = Ok EntityIds
        /\ (forall id,
               In id EntityIds
               <-> In id ids
                   /\ exists response,
                        Check id = Ok response
                        /\ base.Can response = base.RESULT_ALLOWED)
        /\ (forall id response,
               Check id = Ok response ->
               base.Can response = base.RESULT_DENIED -> ~ In id EntityIds)
        /\ Permutation EntityIds (List.filter allowed ids)
        /\ (List.NoDup ids -> List.NoDup EntityIds))
  /\ (forall schedule o,
      commands.Execute command request schedule = Some o ->
      length schedule <= 5 * length ids + 6)
  /\ (forall schedule,
      commands.Execute command request schedule = Some commands.Running ->
      exists a o, commands.Execute command request (schedule ++ [a]) = Some o)
  /\ (exists schedule EntityIds,
      commands.Execute command request schedule
      = Some (commands.Returns (Ok EntityIds))).
Proof.
  intros Check allowed Hres Hids0 Hchecks0.
  destruct (resolve_fields _ _ _ Hres) as (Ht & He & Hp & Hsub & Hd).
  assert (Hcall : forall id,
             commands.checkCommand_Execute command (commands.check_request request' id)
             = Check id).
  { intros id. unfold Check, commands.check_request. now rewrite Ht, He, Hp, Hsub, Hd. }
  assert (Hids : commands.relationshipReader_GetUniqueEntityIDsByEntityType command
                   (base.Lookup_TenantId request') (base.Lookup_EntityType request')
                   (base.Lookup_GetSnapToken request') = Ok ids)
    by now rewrite Ht, He.
  assert (Hchecks : forall id, In id ids ->
             is_Ok (commands.checkCommand_Execute command
                      (commands.check_request request' id)) = true).
  { intros id Hin. rewrite Hcall. now apply Hchecks0. }
  assert (Hallow : forall id, commands.check_allows command request' id = allowed id).
  { intros id. unfold commands.check_allows, commands.is_allowed, allowed.
    now rewrite Hcall. }
  assert (Hspec : forall id,
             allowed id = true
             <-> exists response,
                 Check id = Ok response /\ base.Can response = base.RESULT_ALLOWED).
  { intros id. unfold allowed. destruct (Check id) as [response|err].
    - destruct (base.Can response) eqn:Hcan; split;
        try discriminate; try (intros (r & [= <-] & Hr); congruence).
      intros _. eauto.
    - split; [discriminate|]. intros (r & Hr & _). discriminate. }
  pose proof (Execute_invariant_start command request' ids Hids) as Hstart.
  pose proof (run_invariant (commands.Execute_step command request')
                (commands.Execute_invariant command request' ids)
                (fun a s s' => Execute_invariant_step command request' ids Hids
                                 Hchecks a s s')) as Hinv.
  split; [|split; [|split]].
  - intros schedule out. rewrite (Execute_resolved _ _ _ _ Hres).
    destruct (commands.run _ schedule _) as [[r [got|EntityIds]]|] eqn:Hrun;
      try discriminate.
    intros [= <-]. exists EntityIds. split; [reflexivity|].
    assert (Hperm : Permutation EntityIds (List.filter allowed ids)).
    { rewrite <- (filter_ext _ _ Hallow).
      eapply Execute_invariant_returned, Hinv; eauto. }
    assert (Hin : forall id, In id EntityIds <-> In id ids /\ allowed id = true).
    { intros id. rewrite <- filter_In. split.
      - apply Permutation_in. exact Hperm.
      - apply Permutation_in. now symmetry. }
    split; [|split; [|split; [exact Hperm|]]].
    + intros id. rewrite Hin, Hspec. reflexivity.
    + intros id response Hcheck Hdenied Hid. apply Hin in Hid.
      destruct Hid as [_ Hid]. unfold allowed in Hid.
      rewrite Hcheck, Hdenied in Hid. discriminate.
    + intros Hnodup. eapply Permutation_NoDup; [symmetry; exact Hperm|].
      now apply List.NoDup_filter.
  - intros schedule o. rewrite (Execute_resolved _ _ _ _ Hres).
    destruct (commands.run _ schedule _) as [s|] eqn:Hrun; [|discriminate].
    intros _.
    pose proof (run_length _ (commands.Execute_weight command request')
                  (Execute_step_weight command request') _ _ _ Hrun) as Hlen.
    assert (Hw : commands.Execute_weight command request'
                   (commands.start, commands.Collecting [])
                 = 5 * length ids + 6).
    { unfold commands.Execute_weight, commands.weight, commands.start. fields.
      rewrite Hids. simpl. lia. }
    lia.
  - intros schedule. rewrite (Execute_resolved _ _ _ _ Hres).
    destruct (commands.run _ schedule _) as [[r [got|EntityIds]]|] eqn:Hrun;
      try discriminate.
    intros _.
    destruct (Execute_invariant_progress command request' ids Hids r got)
      as (a & [r' m'] & Hstep); [eapply Hinv; eauto|].
    exists a. rewrite (Execute_resolved _ _ _ _ Hres), run_app, Hrun.
    cbn [commands.run]. rewrite Hstep. destruct m'; eauto.
  - destruct (Execute_completes command request' ids Hids Hchecks _ _ Hstart
                (le_n _)) as (schedule & r & EntityIds & Hrun).
    exists schedule, EntityIds. now rewrite (Execute_resolved _ _ _ _ Hres), Hrun.
Qed.

Lemma Execute_returns_allowed_ids_witness :
  commands.Execute sample.lookup_command (sample.lookup_request "" "")
    sample.lookup_schedule
  = Some (commands.Returns (Ok ["2"; "1"]))
  /\ (In "1" ["2"; "1"]
      <-> In "1" ["1"; "2"; "3"]
          /\ exists response,
               commands.checkCommand_Execute sample.lookup_command
                 {| base.Check_TenantId := "t1";
                    base.Check_Metadata :=
                      Some {| base.Check_SchemaVersion := "v1";
                              base.Check_SnapToken := "3";
                              base.Check_Depth := 20;
                              base.Check_Exclusion := false |};
                    base.Check_Entity :=
                      {| base.Entity_Type := "doc"; base.Entity_Id := "1" |};
                    base.Check_Permission := "read";
                    base.Check_Subject :=
                      {| base.Subject_Type := "user"; base.Subject_Id := "1";
                         base.Subject_Relation := "" |} |}
               = Ok response
               /\ base.Can response = base.RESULT_ALLOWED)
  /\ ~ In "3" ["2"; "1"]
  /\ List.NoDup ["2"; "1"].
Proof.
  assert (Hrun : commands.Execute sample.lookup_command (sample.lookup_request "" "")
                   sample.lookup_schedule
                 = Some (commands.Returns (Ok ["2"; "1"]))) by reflexivity.
  split; [exact Hrun|].
  destruct (Execute_returns_allowed_ids sample.lookup_command
              (sample.lookup_request "" "") (sample.lookup_request "3" "v1")
              ["1"; "2"; "3"]) as (Hsafe & _).
  - reflexivity.
  - reflexivity.
  - intros id Hin. simpl in Hin.
    destruct Hin as [<-|[<-|[<-|[]]]]; reflexivity.
  - destruct (Hsafe _ _ Hrun) as (EntityIds & Hout & Hin & Hdenied & _ & Hnodup).
    injection Hout as <-. split; [apply (Hin "1")|]. split.
    + apply (Hdenied "3" sample.denied); reflexivity.
    + apply Hnodup. repeat constructor; simpl; intuition discriminate.
Defined.




(* ================================================================== *)
(** * Facts: a failing storage read inside a lookup *)
(* ================================================================== *)

Lemma Execute_blocked_step command request (a : commands.action)
  (s s' : commands.routines * commands.execute_main) :
  commands.Execute_blocked command request s ->
  commands.Execute_step command request a s = Some s' ->
  commands.Execute_blocked command request s'.
Proof.
  destruct s as [[c ws ge ch] m]. unfold commands.Execute_blocked. fields.
  intros ([got ->] & Hbad). unfold commands.Execute_step.
  destruct a as [|i| |]; [| | |discriminate].
  - unfold commands.step_checker. fields.
    destruct c as [|err todo|todo| | |]; try discriminate; fields.
    + destruct (commands.relationshipReader_GetUniqueEntityIDsByEntityType _ _ _ _);
        intros [= <-]; fields; eauto.
    + destruct todo as [|id todo].
      * intros [= <-]. fields. eauto.
      * destruct (length ws <? commands.errgroup_limit); [|discriminate].
        intros [= <-]. fields. autorewrite with workers.
        rewrite <- app_assoc. eauto.
    + destruct ws; [|discriminate].
      destruct ge as [err|]; intros [= <-]; fields; [eauto|].
      destruct Hbad as [Hbad|Hbad]; [congruence|inversion Hbad].
  - unfold commands.step_worker. fields.
    destruct (ws !! i) as [[id|id]|] eqn:Hi; [| |discriminate].
    + split_workers Hi. autorewrite with workers in *.
      destruct (commands.checkCommand_Execute command
                  (commands.check_request request id)) as [res|err] eqn:Hcheck.
      * assert (Hrest : match c with
                        | commands.Finished => False
                        | commands.Reporting _ _ | commands.ReportingWait _ => True
                        | _ =>
                            ge <> None
                            \/ List.Exists (commands.check_fails command request)
                                 ((commands.calling before ++ commands.calling after)
                                  ++ commands.todo command request c)
                        end).
        { destruct c; auto; (destruct Hbad as [Hbad|Hbad]; [now left|right]);
            rewrite !Exists_app in *; rewrite Exists_cons in Hbad;
            unfold commands.check_fails at 2 in Hbad; rewrite Hcheck in Hbad;
            simpl in Hbad; intuition discriminate. }
        destruct (commands.is_allowed res); intros [= <-]; fields;
          autorewrite with workers; eauto.
      * intros [= <-]. fields. split; [eauto|].
        destruct c; auto; left; destruct ge; discriminate.
    + split_workers Hi. autorewrite with workers in *.
      destruct (length ch <? commands.resultChan_capacity); [|discriminate].
      intros [= <-]. fields. autorewrite with workers. eauto.
  - fields. destruct ch as [|x ch].
    + unfold commands.closed. fields. destruct c; try discriminate. contradiction.
    + intros [= <-]. fields. eauto.
Qed.

(** Once a storage read of the lookup fails, no schedule makes [Execute]
    return. *)
Lemma Execute_blocked_forever command request schedule s :
  commands.Execute_blocked command request (commands.start, commands.Collecting []) ->
  commands.run (commands.Execute_step command request) schedule
    (commands.start, commands.Collecting []) = Some s ->
  exists got, snd s = commands.Collecting got.
Proof.
  intros Hstart Hrun.
  pose proof (run_invariant _ _ (Execute_blocked_step command request)
                _ _ _ Hstart Hrun) as Hinv.
  destruct s as [r m]. now destruct Hinv as [Hm _].
Qed.

Lemma Execute_blocked_ids_error command request err :
  commands.relationshipReader_GetUniqueEntityIDsByEntityType command
    (base.Lookup_TenantId request) (base.Lookup_EntityType request)
    (base.Lookup_GetSnapToken request) = Err err ->
  forall schedule s,
    commands.run (commands.Execute_step command request) schedule
      (commands.start, commands.Collecting []) = Some s ->
    s = (commands.start, commands.Collecting [])
    \/ (s = ({| commands.chk := commands.Reporting err [];
                commands.workers := [];
                commands.g_err := None;
                commands.resultChan := [] |}, commands.Collecting [])
        /\ commands.stuck (commands.Execute_step command request) s).
Proof.
  intros Hids schedule s Hrun.
  set (reporting := ({| commands.chk := commands.Reporting err [];
                        commands.workers := [];
                        commands.g_err := None;
                        commands.resultChan := [] |}, commands.Collecting [])).
  assert (Hstuck : commands.stuck (commands.Execute_step command request) reporting).
  { intros [|i| |]; reflexivity. }
  refine (run_invariant (commands.Execute_step command request)
            (fun s => s = (commands.start, commands.Collecting [])
                      \/ (s = reporting /\ commands.stuck _ s))
            _ schedule _ _ (or_introl eq_refl) Hrun).
  clear schedule s Hrun. intros a s s' [->|[-> _]] Hstep.
  - destruct a as [|i| |]; try discriminate.
    + unfold commands.Execute_step, commands.step_checker, commands.start in Hstep.
      fields. rewrite Hids in Hstep. injection Hstep as <-. right. now split.
  - now rewrite Hstuck in Hstep.
Qed.

(** With a failing id query, [Stream] can only return that error, having
    sent nothing, and a two-move schedule makes it do so. *)
Lemma Stream_returns_ids_error command server request err :
  commands.relationshipReader_GetUniqueEntityIDsByEntityType command
    (base.Lookup_TenantId request) (base.Lookup_EntityType request)
    (base.Lookup_GetSnapToken request) = Err err ->
  commands.run (commands.Stream_step command server request)
    [commands.Checker; commands.ReceiveErr] (commands.start, commands.Streaming [])
  = Some ({| commands.chk := commands.Spawning [];
             commands.workers := [];
             commands.g_err := None;
             commands.resultChan := [] |},
          commands.StreamReturned [] (Some err))
  /\ forall schedule r sent e,
      commands.run (commands.Stream_step command server request) schedule
        (commands.start, commands.Streaming []) = Some (r, commands.StreamReturned sent e) ->
      sent = [] /\ e = Some err.
Proof.
  intros Hids. split.
  { cbn [commands.run]. unfold commands.Stream_step at 1, commands.step_checker,
      commands.start. fields. rewrite Hids. reflexivity. }
  intros schedule r sent e Hrun.
  pose proof (run_invariant (commands.Stream_step command server request)
                (fun s => match snd s with
                          | commands.Streaming sent =>
                              sent = []
                              /\ commands.workers (fst s) = []
                              /\ commands.resultChan (fst s) = []
                              /\ (commands.chk (fst s) = commands.Fetching
                                  \/ commands.chk (fst s) = commands.Reporting err [])
                          | commands.StreamReturned sent e =>
                              sent = [] /\ e = Some err
                          end)) as Hinv.
  refine (Hinv _ schedule _ _ _ Hrun).
  - clear Hrun Hinv. intros a [[c ws ge ch] m] [r' m']. fields.
    intros Hm Hstep. unfold commands.Stream_step in Hstep.
    destruct m as [sent0|sent0 e0].
    + destruct Hm as (-> & -> & -> & Hc).
      destruct a as [|i| |]; fields.
      * unfold commands.step_checker in Hstep. fields.
        destruct Hc as [-> | ->]; [|discriminate].
        rewrite Hids in Hstep. injection Hstep as <- <-. fields. auto.
      * discriminate.
      * unfold commands.closed in Hstep. fields.
        destruct Hc as [-> | ->]; discriminate.
      * destruct Hc as [-> | ->]; [discriminate|].
        injection Hstep as <- <-. fields. auto.
    + destruct a as [|i| |]; try discriminate.
      * destruct (commands.step_checker _ _ _); [|discriminate].
        injection Hstep as <- <-. exact Hm.
      * destruct (commands.step_worker _ _ _ _); [|discriminate].
        injection Hstep as <- <-. exact Hm.
  - unfold commands.start. fields. auto.
Qed.

(** C3. With a relationship reader whose id query fails, and with a check
    command that fails on one id, the batched [Execute] never returns,
    whatever the schedule: [parallelChecker] blocks in [errChan <- err],
    which [Execute] never receives from, so [resultChan] is never closed.
    After the failed id query no goroutine can move at all.  [Stream], on
    the same failing reader, returns the error. *)
Theorem Execute_blocks_on_storage_error :
  let request := sample.lookup_request "3" "v1" in
  let err := base.code_error base.ERROR_CODE_EXECUTION in
  commands.relationshipReader_GetUniqueEntityIDsByEntityType sample.failing_command
    "t1" "doc" "3" = Err err
  /\ (forall schedule o,
       commands.Execute sample.failing_command request schedule = Some o ->
       o = commands.Running)
  /\ commands.Execute sample.failing_command request [commands.Checker]
     = Some commands.Running
  /\ (forall a,
       commands.Execute sample.failing_command request [commands.Checker; a] = None)
  /\ commands.Stream sample.failing_command sample.server request
       [commands.Checker; commands.ReceiveErr]
     = Some (commands.Returns ([], Some err))
  /\ commands.checkCommand_Execute sample.failing_check_command
       (commands.check_request request "2") = Err err
  /\ (forall schedule o,
       commands.Execute sample.failing_check_command request schedule = Some o ->
       o = commands.Running).
Proof.
  intros request err.
  assert (Hres1 : commands.resolve sample.failing_command request
                  = commands.Proceed request) by reflexivity.
  assert (Hres2 : commands.resolve sample.failing_check_command request
                  = commands.Proceed request) by reflexivity.
  split; [reflexivity|]. split; [|split; [reflexivity|split; [|split; [reflexivity|split; [reflexivity|]]]]].
  - intros schedule o. rewrite (Execute_resolved _ _ _ _ Hres1).
    destruct (commands.run _ schedule _) as [s|] eqn:Hrun; [|discriminate].
    destruct (Execute_blocked_ids_error sample.failing_command request err eq_refl
                _ _ Hrun) as [->|[-> _]]; now intros [= <-].
  - intros a. destruct a; reflexivity.
  - intros schedule o. rewrite (Execute_resolved _ _ _ _ Hres2).
    destruct (commands.run _ schedule _) as [[r m]|] eqn:Hrun; [|discriminate].
    destruct (Execute_blocked_forever sample.failing_check_command request
                schedule (r, m)) as [got Hm]; [|exact Hrun|].
    + split; [now exists []|]. right.
      apply List.Exists_exists. exists "2". split; [|reflexivity].
      simpl. auto.
    + simpl in Hm. subst m. now intros [= <-].
Qed.


(* ================================================================== *)
(** * Facts: duplicates and unique entity ids *)
(* ================================================================== *)

Lemma existsb_eqb_In (item : string) (keys : list string) :
  existsb (String.eqb item) keys = true <-> In item keys.
Proof.
  rewrite existsb_exists. split.
  - intros (x & Hx & Heq). apply String.eqb_eq in Heq. now subst.
  - intros Hin. exists item. split; [exact Hin|apply String.eqb_refl].
Qed.

Lemma removeDuplicate_loop_spec (sliceList allKeys list_ : list string) :
  (forall x, In x allKeys <-> In x list_) ->
  List.NoDup list_ ->
  List.NoDup (memory.removeDuplicate_loop sliceList allKeys list_)
  /\ (forall x, In x (memory.removeDuplicate_loop sliceList allKeys list_)
                <-> In x list_ \/ In x sliceList).
Proof.
  revert allKeys list_.
  induction sliceList as [|item rest IH]; intros allKeys list_ Hkeys Hnodup; simpl.
  - split; [exact Hnodup|]. intros x. tauto.
  - destruct (existsb (String.eqb item) allKeys) eqn:Hseen.
    + apply existsb_eqb_In in Hseen.
      destruct (IH allKeys list_ Hkeys Hnodup) as [Hnd Hin].
      split; [exact Hnd|]. intros x. rewrite Hin.
      split; [tauto|]. intros [Hx|[<-|Hx]]; auto. left. now apply Hkeys.
    + assert (Hfresh : ~ In item list_).
      { intros Hin. apply Hkeys, existsb_eqb_In in Hin. congruence. }
      destruct (IH (item :: allKeys) (list_ ++ [item])) as [Hnd Hin].
      * intros x. simpl. rewrite in_app_iff, Hkeys. simpl. tauto.
      * apply List.NoDup_app; auto.
        -- constructor; [simpl; tauto|constructor].
        -- intros x Hx [<-|[]]. contradiction.
      * split; [exact Hnd|]. intros x. rewrite Hin, in_app_iff. simpl. tauto.
Qed.

Lemma removeDuplicate_loop_distinct (sliceList allKeys list_ : list string) :
  (forall x, In x allKeys <-> In x list_) ->
  List.NoDup (list_ ++ sliceList) ->
  memory.removeDuplicate_loop sliceList allKeys list_ = list_ ++ sliceList.
Proof.
  revert allKeys list_.
  induction sliceList as [|item rest IH]; intros allKeys list_ Hkeys Hnodup; simpl.
  - now rewrite app_nil_r.
  - assert (Hfresh : ~ In item list_).
    { apply List.NoDup_remove_2 in Hnodup. rewrite in_app_iff in Hnodup. tauto. }
    destruct (existsb (String.eqb item) allKeys) eqn:Hseen.
    + apply existsb_eqb_In, Hkeys in Hseen. contradiction.
    + rewrite IH.
      * now rewrite <- app_assoc.
      * intros x. simpl. rewrite in_app_iff, Hkeys. simpl. tauto.
      * now rewrite <- app_assoc.
Qed.

(** [removeDuplicate] keeps the members of its argument, once each. *)
Lemma removeDuplicate_members (sliceList : list string) :
  List.NoDup (memory.removeDuplicate sliceList)
  /\ forall x, In x (memory.removeDuplicate sliceList) <-> In x sliceList.
Proof.
  destruct (removeDuplicate_loop_spec sliceList [] []) as [Hnd Hin].
  - intros x. tauto.
  - constructor.
  - split; [exact Hnd|]. intros x. rewrite (Hin x). simpl. tauto.
Qed.

(** X1. [removeDuplicate] keeps exactly the members of its argument, once
    each; a slice without duplicates is returned as it is, so removing
    duplicates twice is the same as once. *)
Theorem removeDuplicate_distinct_members (sliceList : list string) :
  List.NoDup (memory.removeDuplicate sliceList)
  /\ (forall x, In x (memory.removeDuplicate sliceList) <-> In x sliceList)
  /\ (List.NoDup sliceList -> memory.removeDuplicate sliceList = sliceList)
  /\ memory.removeDuplicate (memory.removeDuplicate sliceList)
     = memory.removeDuplicate sliceList.
Proof.
  assert (Hid : forall l, List.NoDup l -> memory.removeDuplicate l = l).
  { intros l Hl. apply (removeDuplicate_loop_distinct l [] []); [|exact Hl].
    intros x. tauto. }
  destruct (removeDuplicate_members sliceList) as [Hnd Hin].
  repeat split; try apply Hin; auto.
Qed.

Lemma removeDuplicate_distinct_members_witness :
  memory.removeDuplicate ["3"; "1"; "3"; "2"; "1"] = ["3"; "1"; "2"]
  /\ memory.removeDuplicate ["3"; "1"; "2"] = ["3"; "1"; "2"].
Proof.
  split; [reflexivity|].
  apply (proj1 (proj2 (proj2 (removeDuplicate_distinct_members ["3"; "1"; "2"])))).
  repeat constructor; simpl; intuition discriminate.
Defined.

Lemma ids_loop_rows (rows : list repositories.RelationTuple) (acc : list string) :
  memory.ids_loop (map memory.RelationTupleObject rows) acc
  = Ok (memory.removeDuplicate (acc ++ map repositories.EntityID rows)).
Proof.
  revert acc. induction rows as [|t rows IH]; intros acc; simpl.
  - now rewrite app_nil_r.
  - rewrite IH, <- app_assoc. reflexivity.
Qed.

(** X2. When the scan of the entity-type index yields the relation tuples
    [rows], the in-memory [GetUniqueEntityIDsByEntityType] returns, under
    every snapshot argument, the entity ids of those rows without
    duplicates. *)
Theorem memory_unique_entity_ids (get : memory.MemDB -> string -> list string ->
                                        result (list memory.Object))
  (db : memory.MemDB) (tenantID typ snap : string)
  (rows : list repositories.RelationTuple) :
  get db "entity-type-index" [tenantID; typ] = Ok (map memory.RelationTupleObject rows) ->
  exists ids,
    memory.GetUniqueEntityIDsByEntityType get db tenantID typ snap = Ok ids
    /\ List.NoDup ids
    /\ forall id, In id ids <-> exists r, In r rows /\ repositories.EntityID r = id.
Proof.
  intros Hget. unfold memory.GetUniqueEntityIDsByEntityType.
  rewrite Hget, ids_loop_rows. simpl.
  destruct (removeDuplicate_members (map repositories.EntityID rows))
    as (Hnd & Hin).
  eexists. split; [reflexivity|]. split; [exact Hnd|].
  intros id. rewrite Hin, in_map_iff. split; intros (r & H1 & H2); eauto.
Qed.

Lemma memory_unique_entity_ids_witness :
  memory.GetUniqueEntityIDsByEntityType sample.mem_scan stores.mem_db_twice "t1" "doc" "3"
  = Ok ["3"; "1"; "2"].
Proof.
  destruct (memory_unique_entity_ids sample.mem_scan stores.mem_db_twice "t1" "doc" "3"
              (sample.rows ++ sample.rows) eq_refl) as (ids & Hids & _).
  rewrite Hids. vm_compute in Hids. injection Hids as <-. reflexivity.
Defined.


(* ================================================================== *)
(** * Facts: the errors of the in-memory reader *)
(* ================================================================== *)

Lemma query_loop_error (fit : list memory.Object) (collection : database.TupleCollection)
  (e : error) :
  memory.query_loop fit collection = Err e ->
  e = base.code_error base.ERROR_CODE_TYPE_CONVERSATION.
Proof.
  revert collection. induction fit as [|[t|] fit IH]; intros collection; simpl.
  - discriminate.
  - apply IH.
  - now intros [= <-].
Qed.

Lemma ids_loop_error (it : list memory.Object) (acc : list string) (e : error) :
  memory.ids_loop it acc = Err e ->
  e = base.code_error base.ERROR_CODE_TYPE_CONVERSATION.
Proof.
  revert acc. induction it as [|[t|] it IH]; intros acc; simpl.
  - discriminate.
  - apply IH.
  - now intros [= <-].
Qed.

Lemma page_loop_succeeds `{Base64} (pageSize bound : N)
  (tup : list repositories.RelationTuple) (tuples : list base.Tuple) :
  exists page ct, memory.page_loop pageSize bound tup tuples = (Some page, Some ct, None).
Proof.
  revert tuples. induction tup as [|t tup IH]; intros tuples; simpl; [eauto|].
  destruct (bound <=? repositories.ID t)%N; [|apply IH].
  destruct (pageSize <? _)%N; [eauto|apply IH].
Qed.

(** X3. The errors of the in-memory reader.
    [QueryRelationships] and [GetUniqueEntityIDsByEntityType] fail only
    with [EXECUTION] (the index scan) or [TYPE_CONVERSATION] (a foreign
    object); [ReadRelationships] fails with one of these, with
    [INVALID_CONTINUOUS_TOKEN], or with the error of the token decoder,
    and then returns no collection together with the no-op token. *)
Theorem memory_reader_errors `{Base64}
  (index : string -> base.TupleFilter -> string * list string)
  (filterQuery : base.TupleFilter -> memory.Object -> bool)
  (get lowerBound : memory.MemDB -> string -> list string -> result (list memory.Object))
  (db : memory.MemDB) (tenantID typ snap : string) (filter : base.TupleFilter)
  (pagination : database.Pagination) :
  let execution := base.code_error base.ERROR_CODE_EXECUTION in
  let conversion := base.code_error base.ERROR_CODE_TYPE_CONVERSATION in
  let token := base.code_error base.ERROR_CODE_INVALID_CONTINUOUS_TOKEN in
  (forall e,
      memory.QueryRelationships index filterQuery get db tenantID filter snap = Err e ->
      e = execution \/ e = conversion)
  /\ (forall e,
      memory.GetUniqueEntityIDsByEntityType get db tenantID typ snap = Err e ->
      e = execution \/ e = conversion)
  /\ (forall collection ct e,
      memory.ReadRelationships index filterQuery lowerBound db tenantID filter snap
        pagination = (collection, ct, Some e) ->
      collection = None
      /\ ct = Some utils.NewNoopContinuousToken_Encode
      /\ (e = execution \/ e = conversion \/ e = token
          \/ utils.EncodedContinuousToken_Decode (database.Token pagination) = Err e))
  /\ base.carries_code execution = true
  /\ base.carries_code conversion = true
  /\ base.carries_code token = true.
Proof.
  intros execution conversion token.
  split; [|split; [|split; [|repeat split]]].
  - intros e. unfold memory.QueryRelationships.
    destruct (index tenantID filter) as [ix args].
    destruct (get db ix args) as [objs|e0].
    + intros He. right. eapply query_loop_error; eauto.
    + intros [= <-]. now left.
  - intros e. unfold memory.GetUniqueEntityIDsByEntityType.
    destruct (get db _ _) as [objs|e0].
    + intros He. right. eapply ids_loop_error; eauto.
    + intros [= <-]. now left.
  - intros collection ct e. unfold memory.ReadRelationships, memory.lower_bound_of.
    destruct (String.eqb (database.Token pagination) "").
    + destruct (index tenantID filter) as [ix args].
      destruct (lowerBound db ix args) as [objs|e0]; [|intros [= <- <- <-]; auto].
      destruct (memory.read_loop _ _) as [tup|]; [|intros [= <- <- <-]; auto 6].
      destruct (page_loop_succeeds (database.PageSize pagination) 0
                  (memory.sort_Slice_by_ID tup) []) as (page & ct' & ->).
      discriminate.
    + destruct (utils.EncodedContinuousToken_Decode _) as [t|e0];
        [|intros [= <- <- <-]; auto 6].
      destruct (strconv.ParseUint t) as [bound|e0]; [|intros [= <- <- <-]; auto 6].
      destruct (index tenantID filter) as [ix args].
      destruct (lowerBound db ix args) as [objs|e0]; [|intros [= <- <- <-]; auto].
      destruct (memory.read_loop _ _) as [tup|]; [|intros [= <- <- <-]; auto 6].
      destruct (page_loop_succeeds (database.PageSize pagination) bound
                  (memory.sort_Slice_by_ID tup) []) as (page & ct' & ->).
      discriminate.
Qed.

Lemma memory_reader_errors_witness :
  let get := fun (_ : memory.MemDB) (_ : string) (_ : list string) =>
               @Err (list memory.Object) (errors_New "index not found") in
  let execution := base.code_error base.ERROR_CODE_EXECUTION in
  memory.QueryRelationships sample.mem_index sample.mem_filter get sample.mem_db
    "t1" sample.any_filter "3" = Err execution
  /\ (execution = execution
      \/ execution = base.code_error base.ERROR_CODE_TYPE_CONVERSATION).
Proof.
  intros get execution. split; [reflexivity|].
  apply (proj1 (memory_reader_errors sample.mem_index sample.mem_filter get get
                  sample.mem_db "t1" "doc" "3" sample.any_filter
                  {| database.PageSize := 2; database.Token := "" |})).
  reflexivity.
Defined.

(* ================================================================== *)
(** * Facts: the head snapshot of a tenant with transactions *)
(* ================================================================== *)

Lemma fold_left_max_spec (xs : list N) (x : N) :
  In (fold_left N.max xs x) (x :: xs)
  /\ forall y, In y (x :: xs) -> (y <= fold_left N.max xs x)%N.
Proof.
  revert x. induction xs as [|z xs IH]; intros x; simpl.
  - split; [now left|]. intros y [<-|[]]. lia.
  - destruct (IH (N.max x z)) as [Hin Hmax]. split.
    + destruct Hin as [Heq|Hin]; [|auto].
      rewrite <- Heq. destruct (N.max_spec x z) as [[_ ->]|[_ ->]]; auto.
    + intros y Hy.
      assert (Hxz : (x <= N.max x z /\ z <= N.max x z)%N) by lia.
      destruct Hy as [<-|[<-|Hy]].
      * specialize (Hmax (N.max x z) (or_introl eq_refl)). lia.
      * specialize (Hmax (N.max x z) (or_introl eq_refl)). lia.
      * apply Hmax. now right.
Qed.

(** X4. With a statement that builds and a driver that runs it, the
    relational [HeadSnapshot] of a tenant that has transactions returns
    the greatest transaction id of that tenant; transactions of other
    tenants play no part. *)
Theorem HeadSnapshot_greatest_transaction (db : postgres.Postgres) (tenantID : string)
  (t0 : postgres.Transaction) :
  postgres.ToSql db = None ->
  postgres.QueryContext db = None ->
  In t0 (postgres.transactions db) ->
  postgres.tx_tenant_id t0 = tenantID ->
  exists head,
    postgres.HeadSnapshot db tenantID = Ok {| postgres.Uint := head |}
    /\ (exists t, In t (postgres.transactions db)
                  /\ postgres.tx_tenant_id t = tenantID /\ postgres.tx_id t = head)
    /\ forall t, In t (postgres.transactions db) ->
                 postgres.tx_tenant_id t = tenantID ->
                 (postgres.tx_id t <= head)%N.
Proof.
  intros Hsql Hquery Hin0 Htenant0.
  unfold postgres.HeadSnapshot, postgres.QueryRow_Scan, postgres.head_query.
  rewrite Hsql, Hquery.
  set (mine := List.filter (fun t => String.eqb (postgres.tx_tenant_id t) tenantID)
                 (postgres.transactions db)).
  assert (Hmine : forall t, In t mine
                            <-> In t (postgres.transactions db)
                                /\ postgres.tx_tenant_id t = tenantID).
  { intros t. unfold mine. rewrite filter_In, String.eqb_eq. reflexivity. }
  destruct (map postgres.tx_id mine) as [|x xs] eqn:Hids.
  - exfalso. assert (Hin : In t0 mine) by (apply Hmine; auto).
    destruct mine; [contradiction|discriminate].
  - simpl. destruct (fold_left_max_spec xs x) as [Hin Hmax].
    exists (fold_left N.max xs x). split; [reflexivity|]. split.
    + rewrite <- Hids in Hin. apply in_map_iff in Hin.
      destruct Hin as (t & Hid & Ht). apply Hmine in Ht. exists t. tauto.
    + intros t Ht Htenant. apply Hmax. rewrite <- Hids.
      apply in_map. apply Hmine. auto.
Qed.

Lemma HeadSnapshot_greatest_transaction_witness :
  postgres.HeadSnapshot stores.pg_db_two_tenants "t1" = Ok {| postgres.Uint := 3 |}.
Proof.
  destruct (HeadSnapshot_greatest_transaction stores.pg_db_two_tenants "t1"
              {| postgres.tx_id := 2; postgres.tx_tenant_id := "t1" |})
    as (head & Hhead & _).
  - reflexivity.
  - reflexivity.
  - simpl. auto.
  - reflexivity.
  - rewrite Hhead. vm_compute in Hhead. injection Hhead as <-. reflexivity.
Defined.


(* ================================================================== *)
(** * Facts: what the relational reader returns when it succeeds *)
(* ================================================================== *)

Lemma scan_loop_Ok (db : postgres.Postgres) (rows : list repositories.RelationTuple)
  (i : nat) (collection c : list base.Tuple) :
  postgres.scan_loop db rows i collection = Ok c ->
  c = collection ++ map repositories.ToTuple rows.
Proof.
  revert i collection. induction rows as [|rt rows IH]; intros i collection; simpl.
  - intros [= <-]. now rewrite app_nil_r.
  - destruct (postgres.Scan db i); [discriminate|].
    intros Hloop. rewrite (IH _ _ Hloop), <- app_assoc. reflexivity.
Qed.

Lemma read_scan_loop_Ok (db : postgres.Postgres) (rows : list repositories.RelationTuple)
  (i : nat) (lastID last : N) (tuples c : list base.Tuple) :
  postgres.read_scan_loop db rows i lastID tuples = Ok (last, c) ->
  c = tuples ++ map repositories.ToTuple rows.
Proof.
  revert i lastID tuples. induction rows as [|rt rows IH]; intros i lastID tuples; simpl.
  - intros [= _ <-]. now rewrite app_nil_r.
  - destruct (postgres.Scan db i); [discriminate|].
    intros Hloop. rewrite (IH _ _ _ Hloop), <- app_assoc. reflexivity.
Qed.

Lemma ids_scan_loop_Ok (db : postgres.Postgres) (rows : list string) (i : nat)
  (acc ids : list string) :
  postgres.ids_scan_loop db rows i acc = Ok ids -> ids = acc ++ rows.
Proof.
  revert i acc. induction rows as [|id rows IH]; intros i acc; simpl.
  - intros [= <-]. now rewrite app_nil_r.
  - destruct (postgres.Scan db i); [discriminate|].
    intros Hloop. rewrite (IH _ _ Hloop), <- app_assoc. reflexivity.
Qed.

Lemma ids_scan_loop_healthy (db : postgres.Postgres) (rows : list string) (i : nat)
  (acc : list string) :
  (forall j, postgres.Scan db j = None) ->
  postgres.ids_scan_loop db rows i acc = Ok (acc ++ rows).
Proof.
  intros Hscan. revert i acc. induction rows as [|id rows IH]; intros i acc; simpl.
  - now rewrite app_nil_r.
  - rewrite Hscan, IH, <- app_assoc. reflexivity.
Qed.

Lemma In_firstn_In {A} (n : nat) (l : list A) (x : A) : In x (firstn n l) -> In x l.
Proof.
  revert n. induction l as [|y l IH]; intros [|n]; simpl; try tauto.
  intros [->|Hx]; eauto.
Qed.

(** A row the query returns is the scanned part of a table row that
    satisfies every condition of the builder. *)
Lemma run_In (b : postgres.SelectBuilder) (table : list postgres.Row)
  (rt : repositories.RelationTuple) :
  In rt (postgres.run b table) ->
  exists r, In r table /\ postgres.satisfies b r = true /\ postgres.columns r = rt.
Proof.
  unfold postgres.run. intros Hin.
  assert (Hsel : In rt (map postgres.columns
                          (List.filter (postgres.satisfies b) table))).
  { destruct (postgres.Limit b); [apply In_firstn_In in Hin|];
      (destruct (postgres.OrderBy_id b);
       [eapply Permutation_in; [apply sort_by_ID_perm|exact Hin]|exact Hin]). }
  apply in_map_iff in Hsel. destruct Hsel as (r & Hcol & Hr).
  apply filter_In in Hr. exists r. tauto.
Qed.

Lemma base_builder_satisfies filterQuery snapshotQuery tenantID filter st
  (r : postgres.Row) :
  postgres.satisfies (postgres.base_builder filterQuery snapshotQuery tenantID filter st) r
  = true ->
  postgres.tenant_id r = tenantID
  /\ filterQuery filter (postgres.columns r) = true
  /\ snapshotQuery st r = true.
Proof.
  unfold postgres.satisfies. simpl. rewrite !andb_true_iff, String.eqb_eq. tauto.
Qed.

(** X5. Whatever the driver does, a relational read that succeeds returns
    only what stems from rows of the requested tenant that satisfy the
    filter and the snapshot condition of the decoded snapshot:
    [QueryRelationships] returns exactly the tuples of those rows, and
    every tuple of a page of [ReadRelationships] is the tuple of such a
    row; a page is never returned together with an error. *)
Theorem postgres_reads_stay_in_tenant `{Base64}
  (decode : string -> result N)
  (filterQuery : base.TupleFilter -> repositories.RelationTuple -> bool)
  (snapshotQuery : N -> postgres.Row -> bool)
  (db : postgres.Postgres) (tenantID snap : string) (filter : base.TupleFilter)
  (pagination : database.Pagination) :
  let visible st r :=
    String.eqb (postgres.tenant_id r) tenantID
    && filterQuery filter (postgres.columns r) && snapshotQuery st r in
  (forall it,
      postgres.QueryRelationships decode filterQuery snapshotQuery db tenantID filter snap
      = Ok it ->
      exists st,
        decode snap = Ok st
        /\ it = map repositories.ToTuple
                  (map postgres.columns
                     (List.filter (visible st) (postgres.relation_tuples db))))
  /\ (forall page ct err,
      postgres.ReadRelationships decode filterQuery snapshotQuery db tenantID filter snap
        pagination = (Some page, ct, err) ->
      err = None
      /\ exists st,
          decode snap = Ok st
          /\ forall t, In t page ->
               exists r, In r (postgres.relation_tuples db)
                         /\ visible st r = true
                         /\ t = repositories.ToTuple (postgres.columns r)).
Proof.
  intros visible. split.
  - intros it. unfold postgres.QueryRelationships.
    destruct (decode snap) as [st|]; [|discriminate].
    destruct (postgres.BeginTx db); [discriminate|].
    destruct (postgres.ToSql db); [discriminate|].
    destruct (postgres.QueryContext db); [discriminate|].
    destruct (postgres.scan_loop _ _ _ _) as [c|] eqn:Hloop; [|discriminate].
    destruct (postgres.rows_Err db); [discriminate|].
    destruct (postgres.Commit db); [discriminate|].
    intros [= <-]. exists st. split; [reflexivity|].
    rewrite (scan_loop_Ok _ _ _ _ _ Hloop). simpl.
    unfold database.CreateTupleIterator, postgres.run. simpl.
    do 2 f_equal. apply filter_ext. intros r.
    unfold postgres.satisfies, visible. simpl.
    now rewrite andb_true_r, andb_assoc.
  - intros page ct err. unfold postgres.ReadRelationships.
    destruct (decode snap) as [st|]; [|discriminate].
    destruct (postgres.BeginTx db); [discriminate|].
    destruct (postgres.with_token _ pagination) as [builder|early] eqn:Htoken.
    2:{ unfold postgres.with_token in Htoken.
        destruct (String.eqb _ ""); [discriminate|].
        destruct (utils.EncodedContinuousToken_Decode _); [|injection Htoken as <-;
                                                             discriminate].
        destruct (strconv.ParseUint _); [discriminate|].
        injection Htoken as <-. discriminate. }
    destruct (postgres.ToSql db); [discriminate|].
    destruct (postgres.QueryContext db); [discriminate|].
    destruct (postgres.read_scan_loop _ _ _ _ _) as [[lastID tuples]|] eqn:Hloop;
      [|discriminate].
    destruct (postgres.rows_Err db); [discriminate|].
    destruct (postgres.Commit db); [discriminate|].
    apply read_scan_loop_Ok in Hloop. simpl in Hloop.
    assert (Hrows : forall t, In t tuples ->
               exists r, In r (postgres.relation_tuples db)
                         /\ visible st r = true
                         /\ t = repositories.ToTuple (postgres.columns r)).
    { intros t Ht. rewrite Hloop in Ht. apply in_map_iff in Ht.
      destruct Ht as (rt & <- & Hrt). apply run_In in Hrt.
      destruct Hrt as (r & Hr & Hsat & <-). exists r. split; [exact Hr|].
      split; [|reflexivity].
      assert (Hbase : postgres.satisfies
                        (postgres.base_builder filterQuery snapshotQuery tenantID
                           filter st) r = true).
      { unfold postgres.with_token in Htoken.
        destruct (String.eqb _ "").
        - injection Htoken as <-. exact Hsat.
        - destruct (utils.EncodedContinuousToken_Decode _); [|discriminate].
          destruct (strconv.ParseUint _); [|discriminate].
          injection Htoken as <-.
          unfold postgres.satisfies in Hsat |- *. simpl in Hsat |- *.
          rewrite !andb_true_iff in *. tauto. }
      apply base_builder_satisfies in Hbase. destruct Hbase as (Ht & Hf & Hs).
      unfold visible. rewrite Hf, Hs. apply String.eqb_eq in Ht. now rewrite Ht. }
    destruct (database.PageSize pagination <? _)%N; intros [= <- <- <-];
      (split; [reflexivity|]); exists st; (split; [reflexivity|]); auto.
    intros t Ht. apply Hrows. eapply In_firstn_In; eauto.
Qed.

Lemma postgres_reads_stay_in_tenant_witness :
  exists st,
    sample.pg_snapshot_Decode "3" = Ok st
    /\ [ repositories.ToTuple (sample.row 3 "doc" "3" "owner" "user" "1");
         repositories.ToTuple (sample.row 1 "doc" "1" "owner" "user" "2");
         repositories.ToTuple (sample.row 2 "doc" "2" "owner" "user" "1") ]
       = map repositories.ToTuple
           (map postgres.columns
              (List.filter
                 (fun r => String.eqb (postgres.tenant_id r) "t1"
                           && sample.pg_filter sample.any_filter (postgres.columns r)
                           && sample.pg_SnapshotQuery st r)
                 (postgres.relation_tuples stores.pg_db_two_tenants))).
Proof.
  apply (proj1 (postgres_reads_stay_in_tenant sample.pg_snapshot_Decode sample.pg_filter
                  sample.pg_SnapshotQuery stores.pg_db_two_tenants "t1" "3"
                  sample.any_filter
                  {| database.PageSize := 2; database.Token := "" |})).
  vm_compute. reflexivity.
Defined.

(** X6. The relational [GetUniqueEntityIDsByEntityType], whenever it
    succeeds, returns without duplicates exactly the entity ids of the
    rows of the requested tenant and entity type that the snapshot
    condition admits; it succeeds once the snapshot decodes and the driver
    reports no fault. *)
Theorem postgres_unique_entity_ids (decode : string -> result N)
  (snapshotQuery : N -> postgres.Row -> bool)
  (db : postgres.Postgres) (tenantID typ snap : string) :
  (forall ids,
      postgres.GetUniqueEntityIDsByEntityType decode snapshotQuery db tenantID typ snap
      = Ok ids ->
      exists st,
        decode snap = Ok st
        /\ List.NoDup ids
        /\ forall id, In id ids
             <-> exists r, In r (postgres.relation_tuples db)
                           /\ postgres.tenant_id r = tenantID
                           /\ repositories.EntityType (postgres.columns r) = typ
                           /\ snapshotQuery st r = true
                           /\ repositories.EntityID (postgres.columns r) = id)
  /\ (is_Ok (decode snap) = true ->
      postgres.BeginTx db = None -> postgres.ToSql db = None ->
      postgres.QueryContext db = None -> (forall i, postgres.Scan db i = None) ->
      postgres.rows_Err db = None -> postgres.Commit db = None ->
      is_Ok (postgres.GetUniqueEntityIDsByEntityType decode snapshotQuery db tenantID
               typ snap) = true).
Proof.
  split.
  - intros ids. unfold postgres.GetUniqueEntityIDsByEntityType.
    destruct (decode snap) as [st|]; [|discriminate].
    destruct (postgres.BeginTx db); [discriminate|].
    destruct (postgres.ToSql db); [discriminate|].
    destruct (postgres.QueryContext db); [discriminate|].
    destruct (postgres.ids_scan_loop _ _ _ _) as [got|] eqn:Hloop; [|discriminate].
    destruct (postgres.rows_Err db); [discriminate|].
    destruct (postgres.Commit db); [discriminate|].
    intros [= <-]. apply ids_scan_loop_Ok in Hloop. simpl in Hloop. subst got.
    exists st. split; [reflexivity|]. unfold postgres.Distinct.
    match goal with
    | |- context [memory.removeDuplicate ?l] =>
        destruct (removeDuplicate_members l) as (Hnd & Hin)
    end.
    split; [exact Hnd|]. intros id. rewrite Hin, in_map_iff. split.
    + intros (rt & <- & Hrt). unfold postgres.run in Hrt. simpl in Hrt.
      apply in_map_iff in Hrt. destruct Hrt as (r & <- & Hr).
      apply filter_In in Hr. destruct Hr as [Hr Hsat].
      unfold postgres.satisfies in Hsat. simpl in Hsat.
      rewrite !andb_true_iff, !String.eqb_eq in Hsat. exists r. tauto.
    + intros (r & Hr & Ht & Hty & Hs & <-). exists (postgres.columns r).
      split; [reflexivity|]. unfold postgres.run. simpl.
      apply in_map. apply filter_In. split; [exact Hr|].
      unfold postgres.satisfies. simpl.
      rewrite !andb_true_iff, !String.eqb_eq. tauto.
  - intros Hdec Hb Hs Hq Hscan Hr Hc.
    unfold postgres.GetUniqueEntityIDsByEntityType.
    destruct (decode snap) as [st|]; [|discriminate].
    now rewrite Hb, Hs, Hq, (ids_scan_loop_healthy _ _ _ _ Hscan), Hr, Hc.
Qed.

Lemma postgres_unique_entity_ids_witness :
  postgres.GetUniqueEntityIDsByEntityType sample.pg_snapshot_Decode
    sample.pg_SnapshotQuery stores.pg_db_two_tenants "t1" "doc" "3"
  = Ok ["3"; "1"; "2"]
  /\ List.NoDup ["3"; "1"; "2"]
  /\ ~ In "9" ["3"; "1"; "2"].
Proof.
  assert (Hrun : postgres.GetUniqueEntityIDsByEntityType sample.pg_snapshot_Decode
                   sample.pg_SnapshotQuery stores.pg_db_two_tenants "t1" "doc" "3"
                 = Ok ["3"; "1"; "2"]) by (vm_compute; reflexivity).
  split; [exact Hrun|].
  destruct (proj1 (postgres_unique_entity_ids sample.pg_snapshot_Decode
                     sample.pg_SnapshotQuery stores.pg_db_two_tenants "t1" "doc" "3")
              _ Hrun) as (st & _ & Hnodup & Hin).
  split; [exact Hnodup|].
  intros H9. apply Hin in H9. destruct H9 as (r & Hr & Htenant & _ & _ & Hid).
  simpl in Hr. destruct Hr as [<-|[<-|[<-|[<-|[]]]]]; discriminate.
Defined.


(* ================================================================== *)
(** * Facts: [Stream] under any check command and any server *)
(* ================================================================== *)

(** While [Stream] is in its loop some goroutine can move, in every
    state: the caller receives from both channels. *)
Lemma Stream_progress command server request (r : commands.routines)
  (sent : list string) :
  exists a s', commands.Stream_step command server request a (r, commands.Streaming sent)
               = Some s'.
Proof.
  destruct r as [c ws ge ch].
  destruct ch as [|x ch].
  2:{ exists commands.Receive. simpl. destruct (commands.Send server sent x); eauto. }
  assert (Hworker : ws <> [] ->
            exists s', commands.Stream_step command server request (commands.Worker 0)
                         ({| commands.chk := c; commands.workers := ws;
                             commands.g_err := ge; commands.resultChan := [] |},
                          commands.Streaming sent) = Some s').
  { destruct ws as [|[id|id] ws]; [congruence| |]; intros _;
      unfold commands.Stream_step, commands.step_worker; simpl.
    - destruct (commands.checkCommand_Execute command _) as [res|err];
        [destruct (commands.is_allowed res)|]; simpl; eauto.
    - eauto. }
  destruct c as [|err todo|todo| |err|].
  - exists commands.Checker. unfold commands.Stream_step, commands.step_checker.
    fields.
    destruct (commands.relationshipReader_GetUniqueEntityIDsByEntityType _ _ _ _);
      simpl; eauto.
  - exists commands.ReceiveErr. simpl. eauto.
  - destruct todo as [|id todo].
    + exists commands.Checker. simpl. eauto.
    + destruct (length ws <? commands.errgroup_limit) eqn:Hroom.
      * exists commands.Checker. unfold commands.Stream_step, commands.step_checker.
        fields. rewrite Hroom. simpl. eauto.
      * exists (commands.Worker 0). apply Hworker.
        intros ->. discriminate.
  - destruct ws as [|w ws].
    + exists commands.Checker. unfold commands.Stream_step, commands.step_checker.
      fields. destruct ge; simpl; eauto.
    + exists (commands.Worker 0). now apply Hworker.
  - exists commands.ReceiveErr. simpl. eauto.
  - exists commands.Receive. simpl. eauto.
Qed.

Lemma Stream_resolved command server request request' schedule :
  commands.resolve command request = commands.Proceed request' ->
  commands.Stream command server request schedule
  = match commands.run (commands.Stream_step command server request') schedule
            (commands.start, commands.Streaming []) with
    | Some (_, commands.StreamReturned sent err) => Some (commands.Returns (sent, err))
    | Some (_, commands.Streaming _) => Some commands.Running
    | None => None
    end.
Proof. intros Hres. unfold commands.Stream. now rewrite Hres. Qed.

(** From every state, some continuation makes [Stream] return. *)
Lemma Stream_completes command server request :
  forall k s,
    commands.Stream_weight command request s <= k ->
    exists rest r sent err,
      commands.run (commands.Stream_step command server request) rest s
      = Some (r, commands.StreamReturned sent err).
Proof.
  induction k as [|k IH]; intros [r m] Hweight.
  - destruct m as [sent|sent err].
    + unfold commands.Stream_weight in Hweight. simpl in Hweight. lia.
    + exists [], r, sent, err. reflexivity.
  - destruct m as [sent|sent err]; [|exists [], r, sent, err; reflexivity].
    destruct (Stream_progress command server request r sent) as (a & s' & Hstep).
    destruct (IH s') as (rest & r' & sent' & err' & Hrun).
    + apply Stream_step_weight in Hstep. lia.
    + exists (a :: rest), r', sent', err'. cbn [commands.run]. now rewrite Hstep.
Qed.

Lemma start_weight command request :
  commands.weight command request commands.start
  = 5 * length (commands.todo command request commands.Fetching) + 5.
Proof. unfold commands.weight, commands.start. fields. simpl. lia. Qed.

(** X7. [Stream] cannot deadlock and always comes to return, whatever the
    readers, the check command and the server answer: once the defaults
    have resolved, every schedule has at most [5 * n + 6] moves for [n]
    ids of the id query, after every schedule that leaves [Stream] running
    some goroutine can move, and every such schedule has a continuation
    after which [Stream] has returned. *)
Theorem Stream_always_returns (command : commands.LookupEntityCommand)
  (server : commands.StreamServer)
  (request request' : base.PermissionLookupEntityRequest) :
  commands.resolve command request = commands.Proceed request' ->
  (forall schedule o,
      commands.Stream command server request schedule = Some o ->
      length schedule
      <= 5 * length (commands.todo command request' commands.Fetching) + 6)
  /\ (forall schedule,
      commands.Stream command server request schedule = Some commands.Running ->
      (exists a o, commands.Stream command server request (schedule ++ [a]) = Some o)
      /\ exists rest sent err,
          commands.Stream command server request (schedule ++ rest)
          = Some (commands.Returns (sent, err))).
Proof.
  intros Hres. split.
  - intros schedule o. rewrite (Stream_resolved _ _ _ _ _ Hres).
    destruct (commands.run _ schedule _) as [s|] eqn:Hrun; [|discriminate].
    intros _. apply Stream_schedules_bounded in Hrun.
    unfold commands.Stream_weight in Hrun. cbn [fst snd] in Hrun.
    rewrite start_weight in Hrun. lia.
  - intros schedule. rewrite (Stream_resolved _ _ _ _ _ Hres).
    destruct (commands.run _ schedule _) as [[r [sent|sent err]]|] eqn:Hrun;
      try discriminate.
    intros _. split.
    + destruct (Stream_progress command server request' r sent)
        as (a & [r' m'] & Hstep).
      exists a. rewrite (Stream_resolved _ _ _ _ _ Hres), run_app, Hrun.
      cbn [commands.run]. rewrite Hstep. destruct m'; eauto.
    + destruct (Stream_completes command server request' _
                  (r, commands.Streaming sent) (le_n _))
        as (rest & r' & sent' & err' & Hrest).
      exists rest, sent', err'.
      now rewrite (Stream_resolved _ _ _ _ _ Hres), run_app, Hrun, Hrest.
Qed.

Lemma Stream_always_returns_witness :
  commands.Stream sample.failing_check_command sample.server
    (sample.lookup_request "" "") [commands.Checker]
  = Some commands.Running
  /\ exists rest sent err,
      commands.Stream sample.failing_check_command sample.server
        (sample.lookup_request "" "") ([commands.Checker] ++ rest)
      = Some (commands.Returns (sent, err)).
Proof.
  split; [reflexivity|].
  apply (Stream_always_returns sample.failing_check_command sample.server
           (sample.lookup_request "" "") (sample.lookup_request "3" "v1")).
  - reflexivity.
  - reflexivity.
Defined.

Section stream_safety.
Variable command : commands.LookupEntityCommand.
Variable server : commands.StreamServer.
Variable request : base.PermissionLookupEntityRequest.
Variable ids : list string.

Hypothesis Hids :
  commands.relationshipReader_GetUniqueEntityIDsByEntityType command
    (base.Lookup_TenantId request) (base.Lookup_EntityType request)
    (base.Lookup_GetSnapToken request) = Ok ids.

Lemma Stream_invariant_start :
  lookup.Stream_invariant command server request ids
    (commands.start, commands.Streaming []).
Proof using Hids.
  unfold lookup.Stream_invariant, commands.start. fields.
  rewrite Hids. autorewrite with workers. simpl.
  repeat split; try reflexivity.
  - apply List.Forall_forall. auto.
  - discriminate.
  - auto.
Qed.

Lemma check_allows_failing (id : string) (err : error) :
  commands.checkCommand_Execute command (commands.check_request request id) = Err err ->
  commands.check_allows command request id = false.
Proof. intros Hcheck. unfold commands.check_allows. now rewrite Hcheck. Qed.

Lemma Stream_invariant_step (a : commands.action)
  (s s' : commands.routines * commands.stream_main) :
  lookup.Stream_invariant command server request ids s ->
  commands.Stream_step command server request a s = Some s' ->
  lookup.Stream_invariant command server request ids s'.
Proof using Hids.
  destruct s as [[c ws ge ch] [sent|sent e]].
  2:{ (* [Stream] has returned: the other goroutines go on *)
      unfold lookup.Stream_invariant, commands.Stream_step. intros Hinv.
      destruct a as [|i| |]; try discriminate.
      - destruct (commands.step_checker _ _ _); [|discriminate].
        now intros [= <-].
      - destruct (commands.step_worker _ _ _ _); [|discriminate].
        now intros [= <-]. }
  unfold lookup.Stream_invariant at 1. fields.
  intros (Hchk & Hperm & Hin & Hge & Hfail).
  unfold commands.Stream_step.
  destruct a as [|i| |].
  - (* parallelChecker *)
    unfold commands.step_checker. fields.
    destruct c as [|err todo|todo| | |]; try discriminate; fields.
    + rewrite Hids in *. intros [= <-]. unfold lookup.Stream_invariant. fields.
      repeat split; auto.
    + destruct todo as [|id todo].
      * intros [= <-]. unfold lookup.Stream_invariant. fields. repeat split; auto.
      * destruct (length ws <? commands.errgroup_limit); [|discriminate].
        intros [= <-]. unfold lookup.Stream_invariant. fields.
        autorewrite with workers. rewrite <- !app_assoc. simpl.
        repeat split; auto.
    + destruct ws; [|discriminate].
      destruct ge as [err|]; intros [= <-]; unfold lookup.Stream_invariant; fields;
        repeat split; auto.
  - (* a worker *)
    unfold commands.step_worker. fields.
    destruct (ws !! i) as [[id|id]|] eqn:Hi; [| |discriminate].
    + split_workers Hi. autorewrite with workers in *.
      assert (Hid : In id ids).
      { rewrite List.Forall_forall in Hin. apply Hin.
        rewrite <- !app_assoc. apply in_or_app. right. now left. }
      assert (Hallow : commands.check_allows command request id
                       = match commands.checkCommand_Execute command
                                 (commands.check_request request id) with
                         | Ok res => commands.is_allowed res
                         | Err _ => false
                         end) by reflexivity.
      assert (Hfails : commands.check_fails command request id
                       <-> is_Ok (commands.checkCommand_Execute command
                                    (commands.check_request request id)) = false)
        by reflexivity.
      assert (Hin' : List.Forall (fun id => In id ids)
                       ((commands.calling before ++ commands.calling after)
                        ++ commands.todo command request c)).
      { rewrite List.Forall_forall in *. intros x Hx. apply Hin.
        rewrite !in_app_iff in *. simpl. tauto. }
      assert (Hc : match c with
                   | commands.Reporting _ _ | commands.ReportingWait _
                   | commands.Finished => False
                   | _ => True
                   end).
      { destruct c; auto; destruct Hchk as [Hws _]; destruct before; discriminate. }
      rewrite <- !app_assoc in Hperm. rewrite !List.filter_app in Hperm.
      simpl in Hperm. rewrite Hallow in Hperm.
      destruct (commands.checkCommand_Execute command _) as [res|err] eqn:Hcheck.
      * assert (Hfail' : ge = None -> forall x, In x ids ->
                   commands.check_fails command request x ->
                   In x ((commands.calling before ++ commands.calling after)
                         ++ commands.todo command request c)).
        { intros Hnone x Hx Hbad. specialize (Hfail Hnone x Hx Hbad).
          rewrite !in_app_iff in *. simpl in Hfail.
          destruct Hfail as [[Hb|[->|Ha]]|Ht]; auto.
          unfold commands.check_fails in Hbad. rewrite Hcheck in Hbad.
          discriminate. }
        destruct (commands.is_allowed res); intros [= <-];
          unfold lookup.Stream_invariant; fields; autorewrite with workers;
          (split; [destruct c; auto; contradiction|]);
          (split; [|split; [exact Hin'|split; [exact Hge|exact Hfail']]]);
          rewrite <- !app_assoc, !List.filter_app;
          (etransitivity; [exact Hperm|]); solve_Permutation.
      * intros [= <-]. unfold lookup.Stream_invariant. fields.
        autorewrite with workers.
        split; [destruct c; auto; contradiction|].
        split; [|split; [exact Hin'|split]].
        -- rewrite <- !app_assoc, !List.filter_app.
           etransitivity; [exact Hperm|]. solve_Permutation.
        -- intros err'. destruct ge as [e0|]; simpl.
           ++ apply Hge.
           ++ intros [= <-]. exists id. auto.
        -- destruct ge; discriminate.
    + split_workers Hi. autorewrite with workers in *.
      destruct (length ch <? commands.resultChan_capacity); [|discriminate].
      intros [= <-]. unfold lookup.Stream_invariant. fields.
      autorewrite with workers.
      split; [destruct c; auto; destruct Hchk as [Hws _]; destruct before;
              discriminate|].
      split; [|split; [exact Hin|split; [exact Hge|exact Hfail]]].
      etransitivity; [exact Hperm|]. solve_Permutation.
  - (* the caller receives an id, or finds the channel closed *)
    destruct ch as [|x ch].
    + destruct (commands.closed _) eqn:Hclosed; [|discriminate].
      intros [= <-]. unfold commands.closed in Hclosed. fields.
      destruct c; try discriminate. destruct Hchk as [-> ->].
      unfold lookup.Stream_invariant. fields. simpl in Hperm, Hfail.
      rewrite app_nil_r in Hperm. split; [now symmetry|].
      intros id Hid.
      destruct (is_Ok (commands.checkCommand_Execute command
                         (commands.check_request request id))) eqn:Hok;
        [reflexivity|].
      destruct (Hfail eq_refl id Hid Hok).
    + cbv zeta. fields.
      destruct (commands.Send server sent x) as [err|] eqn:Hsend; intros [= <-];
        unfold lookup.Stream_invariant; fields.
      * split; [eexists; rewrite Hperm; reflexivity|]. right.
        exists x. split; [|exact Hsend].
        eapply Permutation_in; [symmetry; exact Hperm|].
        rewrite in_app_iff. right. now left.
      * split; [exact Hchk|]. split; [|auto].
        etransitivity; [exact Hperm|]. rewrite <- app_assoc. reflexivity.
  - (* the caller receives an error *)
    destruct c; try discriminate; [contradiction|].
    destruct Hchk as [-> Hg]. intros [= <-].
    unfold lookup.Stream_invariant. fields.
    split; [eexists; rewrite Hperm; reflexivity|]. left. now apply Hge.
Qed.

End stream_safety.

(** X8. What [Stream] has done when it returns, whatever the
    interleaving, the check command and the server: with a failing id
    query it has sent nothing and returns that query's error; otherwise
    the ids it has sent are, each once, among the ids of the query that
    the check command allows, a [nil] return means that all of them were
    sent and that no check failed, and a returned error is the error of a
    check of one of the ids or of [server.Send] for an allowed id. *)
Theorem Stream_sends_allowed_ids (command : commands.LookupEntityCommand)
  (server : commands.StreamServer)
  (request request' : base.PermissionLookupEntityRequest)
  (schedule : list commands.action) (sent : list string) (e : option error) :
  commands.resolve command request = commands.Proceed request' ->
  commands.Stream command server request schedule
  = Some (commands.Returns (sent, e)) ->
  match commands.relationshipReader_GetUniqueEntityIDsByEntityType command
          (base.Lookup_TenantId request') (base.Lookup_EntityType request')
          (base.Lookup_GetSnapToken request') with
  | Err err => sent = [] /\ e = Some err
  | Ok ids =>
      (exists rest,
          Permutation (List.filter (commands.check_allows command request') ids)
            (sent ++ rest))
      /\ (e = None ->
          Permutation sent (List.filter (commands.check_allows command request') ids)
          /\ forall id, In id ids ->
               is_Ok (commands.checkCommand_Execute command
                        (commands.check_request request' id)) = true)
      /\ (forall err, e = Some err ->
          lookup.check_error command request' ids err
          \/ lookup.send_error command server request' ids sent err)
  end.
Proof.
  intros Hres. rewrite (Stream_resolved _ _ _ _ _ Hres).
  destruct (commands.run _ schedule _) as [[r [sent0|sent0 e0]]|] eqn:Hrun;
    try discriminate.
  intros [= -> ->].
  destruct (commands.relationshipReader_GetUniqueEntityIDsByEntityType _ _ _ _)
    as [ids|err] eqn:Hids.
  - pose proof (run_invariant (commands.Stream_step command server request')
                  (lookup.Stream_invariant command server request' ids)
                  (fun a s s' => Stream_invariant_step command server request' ids
                                   Hids a s s')
                  _ _ _ (Stream_invariant_start command server request' ids Hids)
                  Hrun) as Hinv.
    unfold lookup.Stream_invariant in Hinv. destruct e as [err|].
    + destruct Hinv as [Hsome Herr]. split; [exact Hsome|].
      split; [discriminate|]. now intros err' [= <-].
    + destruct Hinv as [Hperm Hok]. split; [|split; [auto|discriminate]].
      exists []. rewrite app_nil_r. now symmetry.
  - now apply (Stream_returns_ids_error command server request' err Hids)
      in Hrun.
Qed.

Lemma Stream_sends_allowed_ids_witness :
  let schedule :=
    [ commands.Checker; commands.Checker; commands.Checker; commands.Checker;
      commands.Worker 1; commands.Worker 0; commands.Worker 0; commands.Worker 0;
      commands.Checker; commands.Receive; commands.Worker 0; commands.Checker;
      commands.ReceiveErr ] in
  let err := base.code_error base.ERROR_CODE_EXECUTION in
  commands.Stream sample.failing_check_command sample.server
    (sample.lookup_request "" "") schedule
  = Some (commands.Returns (["1"], Some err))
  /\ (exists rest, Permutation ["1"; "3"] (["1"] ++ rest))
  /\ (lookup.check_error sample.failing_check_command
        (sample.lookup_request "3" "v1") ["1"; "2"; "3"] err
      \/ lookup.send_error sample.failing_check_command sample.server
           (sample.lookup_request "3" "v1") ["1"; "2"; "3"] ["1"] err).
Proof.
  intros schedule err.
  assert (Hrun : commands.Stream sample.failing_check_command sample.server
                   (sample.lookup_request "" "") schedule
                 = Some (commands.Returns (["1"], Some err))) by reflexivity.
  split; [exact Hrun|].
  pose proof (Stream_sends_allowed_ids sample.failing_check_command sample.server
                (sample.lookup_request "" "") (sample.lookup_request "3" "v1")
                schedule ["1"] (Some err) eq_refl Hrun) as (Hsome & _ & Herr).
  split; [exact Hsome|]. now apply Herr.
Defined.


(* ================================================================== *)
(** * Facts: [Execute] under any check command *)
(* ================================================================== *)

Lemma checks_answer_or_fail command request (ids : list string) :
  (forall id, In id ids ->
     is_Ok (commands.checkCommand_Execute command (commands.check_request request id))
     = true)
  \/ List.Exists (commands.check_fails command request) ids.
Proof.
  induction ids as [|id ids [IH|IH]].
  - left. intros id [].
  - destruct (is_Ok (commands.checkCommand_Execute command
                       (commands.check_request request id))) eqn:Hok.
    + left. intros x [<-|Hx]; auto.
    + right. now constructor.
  - right. now constructor 2.
Qed.

(** X9. [Execute] returns either everything or nothing, whatever the
    readers and the check command answer: once the defaults have resolved,
    a response is only ever returned when the id query has succeeded and
    the check of every id has answered, it then lists exactly the allowed
    ids, and never an error; and some schedule makes [Execute] return if
    and only if the id query succeeds and every check answers. *)
Theorem Execute_returns_all_or_nothing (command : commands.LookupEntityCommand)
  (request request' : base.PermissionLookupEntityRequest) :
  commands.resolve command request = commands.Proceed request' ->
  let answers ids :=
    commands.relationshipReader_GetUniqueEntityIDsByEntityType command
      (base.Lookup_TenantId request') (base.Lookup_EntityType request')
      (base.Lookup_GetSnapToken request') = Ok ids
    /\ forall id, In id ids ->
         is_Ok (commands.checkCommand_Execute command
                  (commands.check_request request' id)) = true in
  (forall schedule out,
      commands.Execute command request schedule = Some (commands.Returns out) ->
      exists ids EntityIds,
        answers ids
        /\ out = Ok EntityIds
        /\ Permutation EntityIds
             (List.filter (commands.check_allows command request') ids))
  /\ ((exists schedule out,
          commands.Execute command request schedule = Some (commands.Returns out))
      <-> exists ids, answers ids).
Proof.
  intros Hres answers.
  assert (Hsafe : forall schedule out,
             commands.Execute command request schedule = Some (commands.Returns out) ->
             exists ids EntityIds,
               answers ids
               /\ out = Ok EntityIds
               /\ Permutation EntityIds
                    (List.filter (commands.check_allows command request') ids)).
  { intros schedule out. rewrite (Execute_resolved _ _ _ _ Hres).
    destruct (commands.run _ schedule _) as [[r [got|EntityIds]]|] eqn:Hrun;
      try discriminate.
    intros [= <-].
    destruct (commands.relationshipReader_GetUniqueEntityIDsByEntityType command
                (base.Lookup_TenantId request') (base.Lookup_EntityType request')
                (base.Lookup_GetSnapToken request')) as [ids|err] eqn:Hids.
    - destruct (checks_answer_or_fail command request' ids) as [Hchecks|Hbad].
      + exists ids, EntityIds. split; [split; [reflexivity|exact Hchecks]|].
        split; [reflexivity|].
        eapply Execute_invariant_returned.
        eapply (run_invariant (commands.Execute_step command request')
                  (commands.Execute_invariant command request' ids)
                  (fun a s s' => Execute_invariant_step command request' ids Hids
                                   Hchecks a s s')); [|exact Hrun].
        now apply Execute_invariant_start.
      + destruct (Execute_blocked_forever command request' schedule
                    (r, commands.Returned EntityIds)) as [got Hgot];
          [|exact Hrun|discriminate].
        split; [now exists []|]. right. unfold commands.start. fields.
        now rewrite Hids.
    - destruct (Execute_blocked_ids_error command request' err Hids _ _ Hrun)
        as [Hs|[Hs _]]; discriminate. }
  split; [exact Hsafe|]. split.
  - intros (schedule & out & Hrun).
    destruct (Hsafe _ _ Hrun) as (ids & _ & Hans & _). now exists ids.
  - intros (ids & Hids & Hchecks).
    destruct (Execute_completes command request' ids Hids Hchecks _ _
                (Execute_invariant_start command request' ids Hids) (le_n _))
      as (schedule & r & EntityIds & Hrun).
    exists schedule, (Ok EntityIds).
    now rewrite (Execute_resolved _ _ _ _ Hres), Hrun.
Qed.

Lemma Execute_returns_all_or_nothing_witness :
  (exists schedule out,
      commands.Execute sample.lookup_command (sample.lookup_request "" "") schedule
      = Some (commands.Returns out))
  /\ ~ (exists schedule out,
          commands.Execute sample.failing_check_command (sample.lookup_request "" "")
            schedule
          = Some (commands.Returns out)).
Proof.
  split.
  - apply (Execute_returns_all_or_nothing sample.lookup_command
             (sample.lookup_request "" "") (sample.lookup_request "3" "v1") eq_refl).
    exists ["1"; "2"; "3"]. split; [reflexivity|].
    intros id [<-|[<-|[<-|[]]]]; reflexivity.
  - intros Hrun.
    apply (Execute_returns_all_or_nothing sample.failing_check_command
             (sample.lookup_request "" "") (sample.lookup_request "3" "v1") eq_refl)
      in Hrun.
    destruct Hrun as (ids & [= <-] & Hchecks).
    specialize (Hchecks "2" (or_intror (or_introl eq_refl))). discriminate.
Defined.


(* ================================================================== *)
(** * Facts: the bounds of the group and of the channel *)
(* ================================================================== *)

Lemma step_checker_bounded command request (r r' : commands.routines) :
  lookup.fan_out_bounded r ->
  commands.step_checker command request r = Some r' ->
  lookup.fan_out_bounded r'.
Proof.
  unfold commands.step_checker, lookup.fan_out_bounded.
  destruct r as [c ws ge ch]; fields. intros [Hws Hch].
  destruct c as [|err ids|ids| | |]; try discriminate; fields.
  - destruct (commands.relationshipReader_GetUniqueEntityIDsByEntityType _ _ _ _);
      intros [= <-]; fields; auto.
  - destruct ids as [|id ids].
    + intros [= <-]. fields. auto.
    + destruct (Nat.ltb_spec (length ws) commands.errgroup_limit); [|discriminate].
      intros [= <-]. fields. autorewrite with workers. split; [lia|exact Hch].
  - destruct ws; [|discriminate].
    destruct ge; intros [= <-]; fields; auto.
Qed.

Lemma step_worker_bounded command request (i : nat) (r r' : commands.routines) :
  lookup.fan_out_bounded r ->
  commands.step_worker command request i r = Some r' ->
  lookup.fan_out_bounded r'.
Proof.
  unfold commands.step_worker, lookup.fan_out_bounded.
  destruct r as [c ws ge ch]; fields. intros [Hws Hch].
  destruct (ws !! i) as [[id|id]|] eqn:Hi; [| |discriminate].
  - split_workers Hi. autorewrite with workers in *.
    destruct (commands.checkCommand_Execute command _) as [res|err].
    + destruct (commands.is_allowed res); intros [= <-]; fields;
        autorewrite with workers; split; lia.
    + intros [= <-]. fields. autorewrite with workers. split; lia.
  - split_workers Hi. autorewrite with workers in *.
    destruct (Nat.ltb_spec (length ch) commands.resultChan_capacity); [|discriminate].
    intros [= <-]. fields. autorewrite with workers. split; lia.
Qed.

(** X10. The fan-out of a lookup is bounded in every reachable state of
    [Execute] and of [Stream], whatever the number of ids and the
    interleaving: at most 100 goroutines of the group are running and at
    most 100 ids wait in the result channel. *)
Theorem fan_out_stays_bounded (command : commands.LookupEntityCommand)
  (server : commands.StreamServer) (request : base.PermissionLookupEntityRequest)
  (schedule : list commands.action) (r : commands.routines) :
  ((exists m, commands.run (commands.Execute_step command request) schedule
                (commands.start, commands.Collecting []) = Some (r, m))
   \/ (exists m, commands.run (commands.Stream_step command server request) schedule
                   (commands.start, commands.Streaming []) = Some (r, m))) ->
  length (commands.workers r) <= 100 /\ length (commands.resultChan r) <= 100.
Proof.
  assert (Hstart : lookup.fan_out_bounded commands.start).
  { unfold lookup.fan_out_bounded, commands.start. simpl. split; lia. }
  assert (Hexecute : forall a s s',
             lookup.fan_out_bounded (fst s) ->
             commands.Execute_step command request a s = Some s' ->
             lookup.fan_out_bounded (fst s')).
  { intros a [[c ws ge ch] m] s' Hinv. unfold commands.Execute_step.
    destruct a as [|i| |]; [| | |discriminate].
    - destruct (commands.step_checker _ _ _) as [r'|] eqn:Hstep; [|discriminate].
      intros [= <-]. eapply step_checker_bounded; eauto.
    - destruct (commands.step_worker _ _ _ _) as [r'|] eqn:Hstep; [|discriminate].
      intros [= <-]. eapply step_worker_bounded; eauto.
    - destruct m; [|discriminate]. fields. destruct ch as [|x ch].
      + destruct (commands.closed _); [|discriminate]. now intros [= <-].
      + intros [= <-]. destruct Hinv as [Hws Hch]. split; [exact Hws|].
        fields. simpl in Hch. lia. }
  assert (Hstream : forall a s s',
             lookup.fan_out_bounded (fst s) ->
             commands.Stream_step command server request a s = Some s' ->
             lookup.fan_out_bounded (fst s')).
  { intros a [[c ws ge ch] m] s' Hinv. unfold commands.Stream_step.
    destruct a as [|i| |].
    - destruct (commands.step_checker _ _ _) as [r'|] eqn:Hstep; [|discriminate].
      intros [= <-]. eapply step_checker_bounded; eauto.
    - destruct (commands.step_worker _ _ _ _) as [r'|] eqn:Hstep; [|discriminate].
      intros [= <-]. eapply step_worker_bounded; eauto.
    - destruct m as [sent|]; [|discriminate]. fields. destruct ch as [|x ch].
      + destruct (commands.closed _); [|discriminate]. now intros [= <-].
      + cbv zeta. destruct Hinv as [Hws Hch].
        destruct (commands.Send server sent x); intros [= <-];
          (split; [exact Hws|]); fields; simpl in Hch; lia.
    - destruct m as [sent|]; [|discriminate]. fields. destruct Hinv as [Hws Hch].
      destruct c; try discriminate; intros [= <-]; split; assumption. }
  intros [[m Hrun]|[m Hrun]].
  - exact (run_invariant _ (fun s => lookup.fan_out_bounded (fst s)) Hexecute
             schedule (commands.start, commands.Collecting []) (r, m) Hstart Hrun).
  - exact (run_invariant _ (fun s => lookup.fan_out_bounded (fst s)) Hstream
             schedule (commands.start, commands.Streaming []) (r, m) Hstart Hrun).
Qed.

Lemma fan_out_stays_bounded_witness :
  exists r,
    commands.run (commands.Execute_step sample.lookup_command
                    (sample.lookup_request "3" "v1"))
      [commands.Checker; commands.Checker; commands.Checker; commands.Checker]
      (commands.start, commands.Collecting []) = Some (r, commands.Collecting [])
    /\ length (commands.workers r) = 3
    /\ length (commands.workers r) <= 100 /\ length (commands.resultChan r) <= 100.
Proof.
  eexists. split; [reflexivity|]. split; [reflexivity|].
  eapply (fan_out_stays_bounded sample.lookup_command sample.server
            (sample.lookup_request "3" "v1")
            [commands.Checker; commands.Checker; commands.Checker; commands.Checker]).
  left. eexists. reflexivity.
Defined.


(* ================================================================== *)
(** * Facts: paging through a query to its end *)
(* ================================================================== *)

(** A reader that computes the specification's page for every token hands
    a caller that follows the tokens all rows at or above the bound
    it starts from, page by page. *)
Lemma follow_pages `{Base64} (read : database.Pagination -> database.ReadResult)
  (matching : list repositories.RelationTuple) (pageSize : N) :
  (0 < pageSize)%N ->
  List.NoDup (map repositories.ID matching) ->
  (forall r, In r matching -> (repositories.ID r <= strconv.MaxUint64)%N) ->
  (forall p b,
      database.PageSize p = pageSize ->
      utils.decoded_bound p = Ok b ->
      read p = paging.page (N.to_nat pageSize) (paging.eligible b matching)) ->
  forall calls p b,
    database.PageSize p = pageSize ->
    utils.decoded_bound p = Ok b ->
    length (paging.eligible b matching) < calls * N.to_nat pageSize ->
    exists pages,
      client.follow read calls p = (pages, true)
      /\ concat pages = map repositories.ToTuple (paging.eligible b matching)
      /\ List.Forall (fun page => length page <= N.to_nat pageSize) pages.
Proof.
  intros Hpos Hnodup Hmax Hread.
  induction calls as [|calls IH]; intros p b Hsize Hbound Hlen; [simpl in Hlen; lia|].
  cbn [client.follow]. rewrite (Hread p b Hsize Hbound).
  unfold paging.page, paging.continuous_token.
  set (n := N.to_nat pageSize) in *.
  set (rows := paging.eligible b matching) in *.
  assert (Hpage : length (map repositories.ToTuple (firstn n rows)) <= n).
  { rewrite length_map. apply firstn_le_length. }
  destruct (nth_error rows n) as [next|] eqn:Hnth.
  - assert (Hnext : In next matching).
    { apply nth_error_In in Hnth. unfold rows, paging.eligible in Hnth.
      apply filter_In in Hnth. destruct Hnth as [Hnth _].
      eapply Permutation_in; [apply sort_by_ID_perm|exact Hnth]. }
    assert (Hmore : n < length rows) by (apply nth_error_Some; congruence).
    cbn [utils.NewContinuousToken_Encode database.Value].
    destruct (String.eqb_spec (EncodeToString (strconv.FormatUint (repositories.ID next)))
                "") as [Hempty|_].
    { exfalso. revert Hempty. apply EncodeToString_nonempty, FormatUint_nonempty. }
    destruct (IH {| database.PageSize := database.PageSize p;
                    database.Token :=
                      EncodeToString (strconv.FormatUint (repositories.ID next)) |}
                (repositories.ID next)) as (pages & Hfollow & Hconcat & Hsizes).
    + exact Hsize.
    + apply (decoded_bound_of_token (database.PageSize p) (repositories.ID next)).
      now apply Hmax.
    + rewrite (eligible_resumed b matching n next Hnodup Hnth), length_skipn.
      fold rows. lia.
    + rewrite Hfollow. eexists. split; [reflexivity|]. split.
      * cbn [concat]. rewrite Hconcat,
          (eligible_resumed b matching n next Hnodup Hnth), <- map_app.
        fold rows. now rewrite firstn_skipn.
      * constructor; assumption.
  - apply nth_error_None in Hnth.
    cbn [utils.NewNoopContinuousToken_Encode database.Value String.eqb].
    eexists. split; [reflexivity|]. split.
    + cbn [concat]. rewrite app_nil_r, firstn_all2 by exact Hnth. reflexivity.
    + repeat constructor. exact Hpage.
Qed.

(** X11. Paging through a query reaches its end and loses nothing: with a
    page size above zero and distinct row ids that fit a [uint64], a
    caller that starts [ReadRelationships] with the empty token and calls
    again with each continuous token it is handed receives the no-op token
    after at most one call per matching row plus one, and the pages it has
    received are, in this order and each of at most the page size, the
    tuples of all matching rows by ascending id.  This holds for the
    in-memory reader when the index scan succeeds and yields relation
    tuples, and for the relational reader with a decodable snapshot, a
    driver without faults and a page size whose successor fits a
    [uint32]. *)
Theorem ReadRelationships_walk `{Base64} (pageSize : N) :
  (0 < pageSize)%N ->
  (forall index filterQuery lowerBound db tenantID filter snap objs matching,
      lowerBound db (fst (index tenantID filter)) (snd (index tenantID filter)) = Ok objs ->
      memory.NewFilterIterator objs (filterQuery filter)
      = map memory.RelationTupleObject matching ->
      List.NoDup (map repositories.ID matching) ->
      (forall r, In r matching -> (repositories.ID r <= strconv.MaxUint64)%N) ->
      exists pages,
        client.follow
          (memory.ReadRelationships index filterQuery lowerBound db tenantID filter snap)
          (S (length matching))
          {| database.PageSize := pageSize; database.Token := "" |}
        = (pages, true)
        /\ concat pages = map repositories.ToTuple (repositories.sort_by_ID matching)
        /\ List.Forall (fun page => length page <= N.to_nat pageSize) pages)
  /\ (forall decode filterQuery snapshotQuery db tenantID filter snap st,
      let matching :=
        map postgres.columns
          (List.filter
             (fun r => String.eqb (postgres.tenant_id r) tenantID
                       && filterQuery filter (postgres.columns r)
                       && snapshotQuery st r)
             (postgres.relation_tuples db)) in
      decode snap = Ok st ->
      (pageSize + 1 < 2 ^ 32)%N ->
      postgres.BeginTx db = None -> postgres.ToSql db = None ->
      postgres.QueryContext db = None -> (forall i, postgres.Scan db i = None) ->
      postgres.rows_Err db = None -> postgres.Commit db = None ->
      List.NoDup (map repositories.ID matching) ->
      (forall r, In r matching -> (repositories.ID r <= strconv.MaxUint64)%N) ->
      exists pages,
        client.follow
          (postgres.ReadRelationships decode filterQuery snapshotQuery db tenantID
             filter snap)
          (S (length matching))
          {| database.PageSize := pageSize; database.Token := "" |}
        = (pages, true)
        /\ concat pages = map repositories.ToTuple (repositories.sort_by_ID matching)
        /\ List.Forall (fun page => length page <= N.to_nat pageSize) pages).
Proof.
  intros Hpos.
  assert (Hall : forall matching,
             paging.eligible 0 matching = repositories.sort_by_ID matching).
  { intros matching. apply filter_at_least_0. }
  assert (Hcalls : forall matching : list repositories.RelationTuple,
             length (paging.eligible 0 matching)
             < S (length matching) * N.to_nat pageSize).
  { intros matching. rewrite Hall, (Permutation_length (sort_by_ID_perm matching)).
    nia. }
  split.
  - intros index fq lowerBound db tenantID filter snap objs matching Hscan Hkept
      Hnodup Hmax.
    rewrite <- Hall.
    apply (follow_pages _ matching pageSize Hpos Hnodup Hmax); auto.
    intros p b Hsize Hb. rewrite <- Hsize.
    now apply (memory_ReadRelationships_page _ _ _ _ _ _ _ _ _ objs).
  - intros decode fq sq db tenantID filter snap st matching Hsnap Hsize Hb Hs Hq
      Hscan Hr Hc Hnodup Hmax.
    rewrite <- Hall.
    apply (follow_pages _ matching pageSize Hpos Hnodup Hmax); auto.
    intros p b Hp Hpb. rewrite <- Hp.
    apply postgres_ReadRelationships_page; try assumption. now rewrite Hp.
Qed.

Lemma ReadRelationships_walk_witness :
  client.follow
    (memory.ReadRelationships sample.mem_index sample.mem_filter sample.mem_scan
       sample.mem_db "t1" sample.any_filter "3")
    4 {| database.PageSize := 2; database.Token := "" |}
  = ([ [ repositories.ToTuple (sample.row 1 "doc" "1" "owner" "user" "2");
         repositories.ToTuple (sample.row 2 "doc" "2" "owner" "user" "1") ];
       [ repositories.ToTuple (sample.row 3 "doc" "3" "owner" "user" "1") ] ], true)
  /\ exists pages,
      client.follow
        (memory.ReadRelationships sample.mem_index sample.mem_filter sample.mem_scan
           sample.mem_db "t1" sample.any_filter "3")
        (S (length sample.rows)) {| database.PageSize := 2; database.Token := "" |}
      = (pages, true)
      /\ concat pages = map repositories.ToTuple (repositories.sort_by_ID sample.rows)
      /\ List.Forall (fun page => length page <= 2) pages.
Proof.
  split; [vm_compute; reflexivity|].
  refine (proj1 (ReadRelationships_walk 2%N _)
            sample.mem_index sample.mem_filter sample.mem_scan sample.mem_db
            "t1" sample.any_filter "3"
            (map memory.RelationTupleObject sample.rows) sample.rows _ _ _ _).
  - reflexivity.
  - vm_compute. reflexivity.
  - vm_compute. reflexivity.
  - vm_compute. repeat constructor; simpl; intuition discriminate.
  - intros r Hr. simpl in Hr.
    destruct Hr as [<-|[<-|[<-|[]]]]; vm_compute; discriminate.
Defined.


(* ================================================================== *)
(** * Facts: what the cache key does not tell apart *)
(* ================================================================== *)

Lemma append_joined (a b c : string) : a +:+ b +:+ c = (a +:+ b) +:+ c.
Proof.
  induction a as [|x a IH]; [reflexivity|].
  change (String x (a +:+ b +:+ c) = String x ((a +:+ b) +:+ c)). now rewrite IH.
Qed.

(** X12. The cache key joins the tenant id and the schema version with an
    underscore and nothing else, so that it does not tell apart two
    requests whose tenant and schema version differ but spell the same
    when joined (tenant [a_b] with version [c], tenant [a] with version
    [b_c]): with the same snapshot token, entity, permission and subject
    they have the same key, on every cache.  [GetCheckKey] for one then
    returns what the cache holds under the key of the other: whenever the
    cache still holds the decision that a successful [SetCheckKey] stored
    for one, it is found for the other, across tenants. *)
Theorem check_key_joins_tenant_and_version {C : Type} `{Cache C}
  (ears : base.Entity -> string -> string) (sts : base.Subject -> string)
  (sum64 : string -> N) (k1 k2 : base.PermissionCheckRequest)
  (v : base.PermissionCheckResponse) (c c' : C) :
  base.Check_TenantId k1 +:+ "_" +:+ base.Check_GetSchemaVersion k1
  = base.Check_TenantId k2 +:+ "_" +:+ base.Check_GetSchemaVersion k2 ->
  base.Check_GetSnapToken k1 = base.Check_GetSnapToken k2 ->
  base.Check_Entity k1 = base.Check_Entity k2 ->
  base.Check_Permission k1 = base.Check_Permission k2 ->
  base.Check_Subject k1 = base.Check_Subject k2 ->
  keys.checkKey ears sts k1 = keys.checkKey ears sts k2
  /\ keys.hashed ears sts sum64 k1 = keys.hashed ears sts sum64 k2
  /\ fst (keys.GetCheckKey ears sts sum64 k2 c')
     = match fst (cache_Get (keys.hashed ears sts sum64 k1) c') with
       | Some resp => (Some resp, true)
       | None => (None, false)
       end
  /\ (keys.SetCheckKey ears sts sum64 k1 v c = (true, c') ->
      fst (cache_Get (keys.hashed ears sts sum64 k1) c') = Some v ->
      fst (keys.GetCheckKey ears sts sum64 k2 c') = (Some v, true)).
Proof.
  intros Hjoin Hs He Hp Hsub.
  assert (Hkey : keys.checkKey ears sts k1 = keys.checkKey ears sts k2).
  { unfold keys.checkKey. rewrite Hs, He, Hp, Hsub. f_equal.
    set (rest := ":" +:+ _).
    rewrite (append_joined "_"), (append_joined "_").
    rewrite (append_joined (base.Check_TenantId k1)),
      (append_joined (base.Check_TenantId k2)).
    now rewrite Hjoin. }
  assert (Hhash : keys.hashed ears sts sum64 k1 = keys.hashed ears sts sum64 k2).
  { unfold keys.hashed. now rewrite Hkey. }
  assert (Hget : fst (keys.GetCheckKey ears sts sum64 k2 c')
                 = match fst (cache_Get (keys.hashed ears sts sum64 k1) c') with
                   | Some resp => (Some resp, true)
                   | None => (None, false)
                   end).
  { rewrite GetCheckKey_cache_Get. now rewrite Hhash. }
  split; [exact Hkey|]. split; [exact Hhash|]. split; [exact Hget|].
  intros _ Hheld. now rewrite Hget, Hheld.
Qed.

Lemma check_key_joins_tenant_and_version_witness :
  base.Check_TenantId (stores.check_in "a_b" "c")
  <> base.Check_TenantId (stores.check_in "a" "b_c")
  /\ fst (keys.GetCheckKey sample.EntityAndRelationToString sample.SubjectToString
            sample.byte_sum (stores.check_in "a" "b_c")
            (snd (keys.SetCheckKey sample.EntityAndRelationToString
                    sample.SubjectToString sample.byte_sum (stores.check_in "a_b" "c")
                    sample.allowed (∅ : gmap string base.PermissionCheckResponse))))
     = (Some sample.allowed, true).
Proof.
  split; [discriminate|].
  pose proof (check_key_joins_tenant_and_version sample.EntityAndRelationToString
                sample.SubjectToString sample.byte_sum
                (stores.check_in "a_b" "c") (stores.check_in "a" "b_c")
                sample.allowed (∅ : gmap string base.PermissionCheckResponse)
                (snd (keys.SetCheckKey sample.EntityAndRelationToString
                        sample.SubjectToString sample.byte_sum
                        (stores.check_in "a_b" "c") sample.allowed
                        (∅ : gmap string base.PermissionCheckResponse)))
                eq_refl eq_refl eq_refl eq_refl eq_refl) as (_ & _ & _ & Whit).
  apply Whit; [reflexivity|]. vm_compute. reflexivity.
Defined.


(* ================================================================== *)
(** * Facts: a page size of zero *)
(* ================================================================== *)

Lemma eligible_from_head (b : N) (matching : list repositories.RelationTuple)
  (next : repositories.RelationTuple) (rest : list repositories.RelationTuple) :
  paging.eligible b matching = next :: rest ->
  paging.eligible (repositories.ID next) matching = next :: rest.
Proof.
  intros Hrows.
  assert (Hsorted : StronglySorted repositories.ID_le (next :: rest)).
  { rewrite <- Hrows. apply eligible_sorted. }
  assert (Hb : repositories.at_least b next = true).
  { assert (Hin : In next (paging.eligible b matching)) by (rewrite Hrows; now left).
    unfold paging.eligible in Hin. now apply filter_In in Hin. }
  transitivity (List.filter (repositories.at_least (repositories.ID next))
                  (paging.eligible b matching)).
  - unfold paging.eligible. symmetry. apply filter_filter_implied.
    intros r Hr. unfold repositories.at_least in *.
    apply N.leb_le in Hr, Hb. apply N.leb_le. lia.
  - rewrite Hrows. apply forallb_filter_id, forallb_forall. intros r [<-|Hr].
    + apply N.leb_refl.
    + inversion Hsorted as [|? ? _ Hle]; subst.
      rewrite List.Forall_forall in Hle. apply N.leb_le. now apply Hle.
Qed.

Lemma follow_page_size_zero `{Base64} (read : database.Pagination -> database.ReadResult)
  (matching : list repositories.RelationTuple) :
  (forall r, In r matching -> (repositories.ID r <= strconv.MaxUint64)%N) ->
  (forall p b,
      database.PageSize p = 0%N ->
      utils.decoded_bound p = Ok b ->
      read p = paging.page 0 (paging.eligible b matching)) ->
  forall calls p b,
    database.PageSize p = 0%N ->
    utils.decoded_bound p = Ok b ->
    paging.eligible b matching <> [] ->
    client.follow read calls p = (repeat [] calls, false).
Proof.
  intros Hmax Hread.
  induction calls as [|calls IH]; intros p b Hsize Hbound Hrows; [reflexivity|].
  cbn [client.follow repeat]. rewrite (Hread p b Hsize Hbound).
  unfold paging.page, paging.continuous_token.
  destruct (paging.eligible b matching) as [|next rest] eqn:Hel; [congruence|].
  cbn [nth_error firstn map utils.NewContinuousToken_Encode database.Value].
  destruct (String.eqb_spec (EncodeToString (strconv.FormatUint (repositories.ID next)))
              "") as [Hempty|_].
  { exfalso. revert Hempty. apply EncodeToString_nonempty, FormatUint_nonempty. }
  rewrite (IH _ (repositories.ID next)); [reflexivity|exact Hsize| |].
  - apply (decoded_bound_of_token (database.PageSize p) (repositories.ID next)).
    apply Hmax.
    assert (Hin : In next (paging.eligible b matching)) by (rewrite Hel; now left).
    unfold paging.eligible in Hin. apply filter_In in Hin. destruct Hin as [Hin _].
    eapply Permutation_in; [apply sort_by_ID_perm|exact Hin].
  - rewrite (eligible_from_head b matching next rest Hel). discriminate.
Qed.

(** X13. With a page size of zero paging never reaches the end: when some
    row matches, [ReadRelationships] of either back end answers every call
    with an empty page and a continuous token that stands for the first
    matching row again, so that a caller that follows the tokens receives
    empty pages for as many calls as it makes. *)
Theorem ReadRelationships_page_size_zero `{Base64} (calls : nat) :
  (forall index filterQuery lowerBound db tenantID filter snap objs matching,
      lowerBound db (fst (index tenantID filter)) (snd (index tenantID filter)) = Ok objs ->
      memory.NewFilterIterator objs (filterQuery filter)
      = map memory.RelationTupleObject matching ->
      matching <> [] ->
      (forall r, In r matching -> (repositories.ID r <= strconv.MaxUint64)%N) ->
      client.follow
        (memory.ReadRelationships index filterQuery lowerBound db tenantID filter snap)
        calls {| database.PageSize := 0; database.Token := "" |}
      = (repeat [] calls, false))
  /\ (forall decode filterQuery snapshotQuery db tenantID filter snap st,
      let matching :=
        map postgres.columns
          (List.filter
             (fun r => String.eqb (postgres.tenant_id r) tenantID
                       && filterQuery filter (postgres.columns r)
                       && snapshotQuery st r)
             (postgres.relation_tuples db)) in
      decode snap = Ok st ->
      postgres.BeginTx db = None -> postgres.ToSql db = None ->
      postgres.QueryContext db = None -> (forall i, postgres.Scan db i = None) ->
      postgres.rows_Err db = None -> postgres.Commit db = None ->
      matching <> [] ->
      (forall r, In r matching -> (repositories.ID r <= strconv.MaxUint64)%N) ->
      client.follow
        (postgres.ReadRelationships decode filterQuery snapshotQuery db tenantID
           filter snap)
        calls {| database.PageSize := 0; database.Token := "" |}
      = (repeat [] calls, false)).
Proof.
  assert (Hsome : forall matching : list repositories.RelationTuple,
             matching <> [] -> paging.eligible 0 matching <> []).
  { intros matching Hne Hnil. apply Hne.
    unfold paging.eligible in Hnil. rewrite filter_at_least_0 in Hnil.
    apply Permutation_nil. rewrite <- Hnil. apply sort_by_ID_perm. }
  split.
  - intros index fq lowerBound db tenantID filter snap objs matching Hscan Hkept
      Hne Hmax.
    apply (follow_page_size_zero _ matching Hmax) with (b := 0%N); auto.
    intros p b Hsize Hb.
    change 0 with (N.to_nat 0). rewrite <- Hsize.
    now apply (memory_ReadRelationships_page _ _ _ _ _ _ _ _ _ objs).
  - intros decode fq sq db tenantID filter snap st matching Hsnap Hb Hs Hq
      Hscan Hr Hc Hne Hmax.
    apply (follow_page_size_zero _ matching Hmax) with (b := 0%N); auto.
    intros p b Hp Hpb.
    change 0 with (N.to_nat 0). rewrite <- Hp.
    apply postgres_ReadRelationships_page; try assumption. now rewrite Hp.
Qed.

Lemma ReadRelationships_page_size_zero_witness :
  client.follow
    (memory.ReadRelationships sample.mem_index sample.mem_filter sample.mem_scan
       sample.mem_db "t1" sample.any_filter "3")
    3 {| database.PageSize := 0; database.Token := "" |}
  = ([ []; []; [] ], false).
Proof.
  refine (proj1 (ReadRelationships_page_size_zero 3)
            sample.mem_index sample.mem_filter sample.mem_scan sample.mem_db
            "t1" sample.any_filter "3"
            (map memory.RelationTupleObject sample.rows) sample.rows _ _ _ _).
  - reflexivity.
  - vm_compute. reflexivity.
  - discriminate.
  - intros r Hr. simpl in Hr.
    destruct Hr as [<-|[<-|[<-|[]]]]; vm_compute; discriminate.
Defined.
